(** * DEN: configuration cache and pull-request watcher

    A shallow embedding of the editor add-on's stateful classes
    ([ConfigManager], [GitManager], [RepositoryHostAPI],
    [PullRequestMonitor], [StatusBarManager]), of [getGitConfig] and of
    the extension's Git commands.  Mutable fields become
    record fields threaded through the functions; the collaborators the
    code calls but does not implement (file system, YAML/JSON decoders,
    the git command line, HTTP, the clock, the timer queue of the
    runtime) are oracles passed as arguments. *)

From Stdlib Require Import ZArith Ascii String List Bool Lia.
From Stdlib Require Import Floats.PrimFloat.
From stdpp Require Import base gmap strings list option pretty.

#[local] Set Warnings "-register-all".
#[local] Open Scope string_scope.

(* ===================================================================== *)
(** ** JavaScript strings: the handful of operations the sources use *)
(* ===================================================================== *)

Module JsString.

(** [s.startsWith(p)], returning what follows the prefix. *)
Fixpoint strip_prefix (p s : string) : option string :=
  match p, s with
  | EmptyString, _ => Some s
  | String a p', String b s' =>
      if Ascii.eqb a b then strip_prefix p' s' else None
  | String _ _, EmptyString => None
  end.

Definition slash : Ascii.ascii := "/"%char.

(** Cut at the first ['/']: [Some (before, after)], [None] without one. *)
Fixpoint cut_first_slash (s : string) : option (string * string) :=
  match s with
  | EmptyString => None
  | String c s' =>
      if Ascii.eqb c slash then Some (EmptyString, s')
      else match cut_first_slash s' with
           | Some (a, b) => Some (String c a, b)
           | None => None
           end
  end.

(** Cut at the last ['/']: everything before it. With no ['/'] there is
    nothing before it. This is [s.split('/').slice(0, -1).join('/')]. *)
Fixpoint before_last_slash (s : string) : option string :=
  match s with
  | EmptyString => None
  | String c s' =>
      match before_last_slash s' with
      | Some t => Some (String c t)
      | None => if Ascii.eqb c slash then Some EmptyString else None
      end
  end.

Definition split_slice_join (s : string) : string :=
  default EmptyString (before_last_slash s).

Fixpoint has_slash (s : string) : bool :=
  match s with
  | EmptyString => false
  | String c s' => Ascii.eqb c slash || has_slash s'
  end.

(** [s] without a final [suffix], when it has one and something is left. *)
Fixpoint strip_suffix_nonempty (suffix s : string) : option string :=
  match s with
  | EmptyString => None
  | String c s' =>
      if String.eqb s' suffix then Some (String c EmptyString)
      else match strip_suffix_nonempty suffix s' with
           | Some t => Some (String c t)
           | None => None
           end
  end.

(** A JavaScript string is falsy exactly when it is empty. *)
Definition truthy (s : string) : bool := negb (String.eqb s "").

(** [a || b] on strings that may be [undefined]. *)
Definition or_else (a : option string) (b : string) : string :=
  match a with
  | Some s => if truthy s then s else b
  | None => b
  end.

(** [xs.includes(x)] on an array of strings. *)
Definition includes (xs : list string) (x : string) : bool :=
  existsb (String.eqb x) xs.

End JsString.

(* ===================================================================== *)
(** ** git/models/gitTypes.ts *)
(* ===================================================================== *)

Module GitTypes.

(** [Date]: built from a host timestamp ([new Date(s)]) or from the clock
  ([new Date()]). *)
Inductive Date :=
| DateOf (s : string)
| DateNow (ms : Z).

Inductive HostType := github | gitlab | bitbucket | other.

Definition HostType_eqb (a b : HostType) : bool :=
match a, b with
| github, github | gitlab, gitlab | bitbucket, bitbucket | other, other => true
| _, _ => false
end.

Record GitRemote := {
remote_name : string;
remote_url : string;
remote_type : HostType;
remote_owner : option string;        (* owner?: string *)
remote_repository : option string    (* repository?: string *)
}.

Record GitCommit := {
commit_hash : string;
commit_message : string;
commit_author : string;
commit_date : Date
}.

Record GitStatus := {
isClean : bool;
stagedFiles : Z;
modifiedFiles : Z;
untrackedFiles : Z;
ahead : Z;
behind : Z
}.

Record GitRepositoryInfo := {
root : string;
currentBranch : string;
remotes : list GitRemote;
lastCommit : GitCommit;
status : GitStatus;
isGitRepository : bool
}.

Record PullRequest := {
id : Z;
title : string;
url : string;
branch : string;
author : string;
createdAt : Date;
updatedAt : Date;
isDraft : bool;
repository : string
}.

Record RepositoryHostInfo := {
host_type : HostType;
host_owner : string;
host_repository : string;
baseUrl : string;
apiUrl : string
}.

Record GitConfig := {
enabled : bool;
branches : list string;
pollingInterval : Z;
showNotifications : bool;
includeDraftPRs : bool
}.

End GitTypes.
Import GitTypes.

(* ===================================================================== *)
(** ** git/repositoryHostAPI.ts *)
(* ===================================================================== *)

Module RepositoryHostAPI.

(** The response shapes the three mappers declare for the host payloads. *)
Record GitHubPull := {
  gh_number : Z;
  gh_title : string;
  gh_html_url : string;
  gh_base_ref : string;
  gh_user_login : string;
  gh_created_at : string;
  gh_updated_at : string;
  gh_draft : bool
}.

Record GitLabMergeRequest := {
  gl_iid : Z;
  gl_title : string;
  gl_web_url : string;
  gl_target_branch : string;
  gl_author_username : string;
  gl_created_at : string;
  gl_updated_at : string;
  gl_work_in_progress : bool
}.

Record BitbucketPullRequest := {
  bb_id : Z;
  bb_title : string;
  bb_links_html_href : string;
  bb_destination_branch_name : string;
  bb_author_username : string;
  bb_created_on : string;
  bb_updated_on : string
}.

(** [axios.get] per host, keyed by URL; [None] is a rejected request
    (network error, non-2xx status, undecodable body). *)
Record Http := {
  encodeURIComponent : string -> string;
  get_github : string -> option (list GitHubPull);
  get_gitlab : string -> option (list GitLabMergeRequest);
  get_bitbucket : string -> option (list BitbucketPullRequest)
}.

Definition repo_label (hostInfo : RepositoryHostInfo) : string :=
  host_owner hostInfo ++ "/" ++ host_repository hostInfo.

Definition ofGitHub (hostInfo : RepositoryHostInfo) (pr : GitHubPull) : PullRequest :=
  {| id := gh_number pr;
     title := gh_title pr;
     url := gh_html_url pr;
     branch := gh_base_ref pr;
     author := gh_user_login pr;
     createdAt := DateOf (gh_created_at pr);
     updatedAt := DateOf (gh_updated_at pr);
     isDraft := gh_draft pr;
     repository := repo_label hostInfo |}.

Definition getGitHubPullRequests (http : Http) (hostInfo : RepositoryHostInfo)
    (branches : list string) : list PullRequest :=
  let url := apiUrl hostInfo ++ "/repos/" ++ host_owner hostInfo ++ "/"
             ++ host_repository hostInfo ++ "/pulls" in
  match get_github http url with
  | Some data =>
      map (ofGitHub hostInfo)
          (List.filter (fun pr => JsString.includes branches (gh_base_ref pr)) data)
  | None => []
  end.

Definition ofGitLab (hostInfo : RepositoryHostInfo) (mr : GitLabMergeRequest) : PullRequest :=
  {| id := gl_iid mr;
     title := gl_title mr;
     url := gl_web_url mr;
     branch := gl_target_branch mr;
     author := gl_author_username mr;
     createdAt := DateOf (gl_created_at mr);
     updatedAt := DateOf (gl_updated_at mr);
     isDraft := gl_work_in_progress mr;
     repository := repo_label hostInfo |}.

Definition getGitLabPullRequests (http : Http) (hostInfo : RepositoryHostInfo)
    (branches : list string) : list PullRequest :=
  let url := apiUrl hostInfo ++ "/projects/"
             ++ encodeURIComponent http (repo_label hostInfo)
             ++ "/merge_requests" in
  match get_gitlab http url with
  | Some data =>
      map (ofGitLab hostInfo)
          (List.filter (fun mr => JsString.includes branches (gl_target_branch mr)) data)
  | None => []
  end.

Definition ofBitbucket (hostInfo : RepositoryHostInfo) (pr : BitbucketPullRequest) : PullRequest :=
  {| id := bb_id pr;
     title := bb_title pr;
     url := bb_links_html_href pr;
     branch := bb_destination_branch_name pr;
     author := bb_author_username pr;
     createdAt := DateOf (bb_created_on pr);
     updatedAt := DateOf (bb_updated_on pr);
     isDraft := false;   (* Bitbucket doesn't have draft PRs *)
     repository := repo_label hostInfo |}.

Definition getBitbucketPullRequests (http : Http) (hostInfo : RepositoryHostInfo)
    (branches : list string) : list PullRequest :=
  let url := apiUrl hostInfo ++ "/repositories/" ++ host_owner hostInfo ++ "/"
             ++ host_repository hostInfo ++ "/pullrequests" in
  match get_bitbucket http url with
  | Some values =>
      map (ofBitbucket hostInfo)
          (List.filter
             (fun pr => JsString.includes branches (bb_destination_branch_name pr))
             values)
  | None => []
  end.

Definition getPullRequests (http : Http) (hostInfo : RepositoryHostInfo)
    (branches : list string) : list PullRequest :=
  match host_type hostInfo with
  | other => []
  | github => getGitHubPullRequests http hostInfo branches
  | gitlab => getGitLabPullRequests http hostInfo branches
  | bitbucket => getBitbucketPullRequests http hostInfo branches
  end.

End RepositoryHostAPI.

(* ===================================================================== *)
(** ** git/gitManager.ts *)
(* ===================================================================== *)

Module GitManager.

(** *** Remote URL recognition

    The three patterns have one shape,
    [(?:https://HOST/|git@HOST:)([^/]+)/([^/]+?)(?:\.git)?$],
    searched for at the leftmost position of the URL where it matches. *)

(** [([^/]+)/([^/]+?)(?:\.git)?$] at the start of [s]. The greedy owner is
    the run up to the first ['/']; what follows must be slash-free up to
    the end of the input, and the lazy repository group leaves a final
    [.git] to the optional group whenever it keeps a character itself. *)
Definition match_owner_repo (s : string) : option (string * string) :=
  match JsString.cut_first_slash s with
  | Some (owner, rest) =>
      if String.eqb owner "" || String.eqb rest "" || JsString.has_slash rest
      then None
      else Some (owner, default rest (JsString.strip_suffix_nonempty ".git" rest))
  | None => None
  end.

(** Both alternatives of the host group tried at the start of [s]. *)
Definition match_here (https ssh s : string) : option (string * string) :=
  match (JsString.strip_prefix https s) ≫= match_owner_repo with
  | Some r => Some r
  | None => (JsString.strip_prefix ssh s) ≫= match_owner_repo
  end.

(** [url.match(re)]: the first position where the pattern matches. *)
Fixpoint url_match (https ssh url : string) : option (string * string) :=
  match match_here https ssh url with
  | Some r => Some r
  | None =>
      match url with
      | EmptyString => None
      | String _ url' => url_match https ssh url'
      end
  end.

Definition parseRepositoryUrl (url : string) : RepositoryHostInfo :=
  match url_match "https://github.com/" "git@github.com:" url with
  | Some (o, r) =>
      {| host_type := github; host_owner := o; host_repository := r;
         baseUrl := "https://github.com"; apiUrl := "https://api.github.com" |}
  | None =>
  match url_match "https://gitlab.com/" "git@gitlab.com:" url with
  | Some (o, r) =>
      {| host_type := gitlab; host_owner := o; host_repository := r;
         baseUrl := "https://gitlab.com"; apiUrl := "https://gitlab.com/api/v4" |}
  | None =>
  match url_match "https://bitbucket.org/" "git@bitbucket.org:" url with
  | Some (o, r) =>
      {| host_type := bitbucket; host_owner := o; host_repository := r;
         baseUrl := "https://bitbucket.org";
         apiUrl := "https://api.bitbucket.org/2.0" |}
  | None =>
      {| host_type := other; host_owner := ""; host_repository := "";
         baseUrl := ""; apiUrl := "" |}
  end end end.

(** One entry of [git.getRemotes(true)]. *)
Record RemoteWithRefs := {
  rr_name : string;
  rr_fetch : option string;
  rr_push : option string
}.

Definition parseRemote (remote : RemoteWithRefs) : GitRemote :=
  let url := JsString.or_else (rr_fetch remote)
               (JsString.or_else (rr_push remote) "") in
  let hostInfo := parseRepositoryUrl url in
  {| remote_name := rr_name remote;
     remote_url := url;
     remote_type := host_type hostInfo;
     remote_owner := Some (host_owner hostInfo);
     remote_repository := Some (host_repository hostInfo) |}.

(** *** The git command line, as observed at one moment

    Each field is the outcome of one invocation; [None] is a rejected
    promise. *)
Record LogLine := {
  log_hash : string;
  log_message : string;
  log_author_name : string;
  log_date : string
}.

Record StatusResult := {
  st_isClean : bool;
  st_staged : list string;
  st_modified : list string;
  st_not_added : list string;
  st_ahead : Z;
  st_behind : Z
}.

Record Git := {
  git_branch : option (string * list string);   (* current, all *)
  git_getRemotes : option (list RemoteWithRefs);
  git_log : option (option LogLine);            (* latest may be null *)
  git_status : option StatusResult;
  git_now : Z                                   (* clock read by [new Date()] *)
}.

(** *** The manager's fields *)
Record t := {
  git : bool;                                (* [this.git !== null] *)
  baseDir : string;                          (* [this.gitOptions.baseDir] *)
  repositoryInfo : option GitRepositoryInfo
}.

Definition getCurrentBranch (w : Git) (gm : t) : string :=
  if git gm then
    match git_branch w with
    | Some (current, _) => current
    | None => ""
    end
  else "".

Definition getRemotes (w : Git) (gm : t) : list GitRemote :=
  if git gm then
    match git_getRemotes w with
    | Some result => map parseRemote result
    | None => []
    end
  else [].

Definition emptyCommit (w : Git) : GitCommit :=
  {| commit_hash := ""; commit_message := ""; commit_author := "";
     commit_date := DateNow (git_now w) |}.

Definition getLastCommit (w : Git) (gm : t) : GitCommit :=
  if git gm then
    match git_log w with
    | Some (Some latest) =>
        {| commit_hash := log_hash latest;
           commit_message := log_message latest;
           commit_author := log_author_name latest;
           commit_date := DateOf (log_date latest) |}
    | _ => emptyCommit w
    end
  else emptyCommit w.

Definition cleanStatus : GitStatus :=
  {| isClean := true; stagedFiles := 0; modifiedFiles := 0;
     untrackedFiles := 0; ahead := 0; behind := 0 |}.

Definition getStatus (w : Git) (gm : t) : GitStatus :=
  if git gm then
    match git_status w with
    | Some st =>
        {| isClean := st_isClean st;
           stagedFiles := Z.of_nat (length (st_staged st));
           modifiedFiles := Z.of_nat (length (st_modified st));
           untrackedFiles := Z.of_nat (length (st_not_added st));
           ahead := st_ahead st;
           behind := st_behind st |}
    | None => cleanStatus
    end
  else cleanStatus.

(** The four queries swallow their own failures, so the [catch] around
    [Promise.all] is never entered. *)
Definition refreshRepositoryInfo (w : Git) (gm : t)
    : option GitRepositoryInfo * t :=
  if negb (git gm) then (None, gm)
  else
    let info :=
      {| root := baseDir gm;
         currentBranch := getCurrentBranch w gm;
         remotes := getRemotes w gm;
         lastCommit := getLastCommit w gm;
         status := getStatus w gm;
         isGitRepository := true |} in
    (Some info,
     {| git := git gm; baseDir := baseDir gm; repositoryInfo := Some info |}).

Definition getRepositoryInfo (w : Git) (gm : t)
    : option GitRepositoryInfo * t :=
  match repositoryInfo gm with
  | None => refreshRepositoryInfo w gm
  | Some info => (Some info, gm)
  end.

Definition getBranchList (w : Git) (gm : t) : list string :=
  if git gm then
    match git_branch w with
    | Some (_, all) => all
    | None => []
    end
  else [].

(** [checkout branchName] either rejects ([None]) or succeeds and leaves
    the working copy in the state the following refresh observes. *)
Definition switchBranch (checkout : string -> option Git) (branchName : string)
    (gm : t) : bool * t :=
  if negb (git gm) then (false, gm)
  else
    match checkout branchName with
    | Some w' => (true, snd (refreshRepositoryInfo w' gm))
    | None => (false, gm)
    end.

Definition dispose (gm : t) : t :=
  {| git := false; baseDir := baseDir gm; repositoryInfo := None |}.

(** [checkIsRepo] is the outcome of [git.checkIsRepo()], [None] a rejected
    promise. *)
Definition isGitRepository (checkIsRepo : option bool) (gm : t) : bool :=
  if git gm then default false checkIsRepo else false.

(** The manager as its field initializers leave it. *)
Definition blank : t := {| git := false; baseDir := ""; repositoryInfo := None |}.

(** The constructor: [initializeGit] on the blank manager. [folders] is
    [vscode.workspace.workspaceFolders], [hasGitDir root] the outcome of
    [fs.existsSync(path.join(root, '.git'))]. *)
Definition initializeGit (folders : option (list string))
    (hasGitDir : string -> bool) (w : Git) (gm : t) : t :=
  match folders with
  | Some (workspaceRoot :: _) =>
      if hasGitDir workspaceRoot then
        snd (refreshRepositoryInfo w
               {| git := true; baseDir := workspaceRoot;
                  repositoryInfo := repositoryInfo gm |})
      else gm
  | _ => gm
  end.

Definition create (folders : option (list string)) (hasGitDir : string -> bool)
    (w : Git) : t :=
  initializeGit folders hasGitDir w blank.

End GitManager.

(* ===================================================================== *)
(** ** The runtime's interval timers ([setInterval] / [clearInterval]) *)
(* ===================================================================== *)

Module Timers.

(** Handles are issued in sequence; [active] maps each live handle to the
    delay it was created with, that is, to the delay argument as the
    caller passed it (what the runtime makes of a delay outside its own
    range is not part of this record). *)
Record t := {
  next : nat;
  active : gmap nat Z
}.

Definition empty : t := {| next := 0; active := ∅ |}.

Definition setInterval (delay : Z) (q : t) : nat * t :=
  (next q, {| next := S (next q); active := <[next q := delay]> (active q) |}).

Definition clearInterval (h : nat) (q : t) : t :=
  {| next := next q; active := delete h (active q) |}.

(** Every handle handed out so far is below [next]. *)
Definition wf (q : t) : Prop := ∀ h, is_Some (active q !! h) → h < next q.

End Timers.

(* ===================================================================== *)
(** ** git/pullRequestMonitor.ts *)
(* ===================================================================== *)

Module PullRequestMonitor.

Import RepositoryHostAPI.

(** The monitor's own fields. *)
Record t := {
  pollingInterval : option nat;                    (* NodeJS.Timeout | null *)
  lastKnownPRs : gmap string (list PullRequest);
  config : GitConfig
}.

(** The objects a monitor call reads and writes: the shared [GitManager],
    the timer queue, the monitor. *)
Record Session := {
  gitManager : GitManager.t;
  timers : Timers.t;
  monitor : t
}.

(** [vscode.window.showInformationMessage] calls made by the monitor. *)
Inductive Notification :=
| NewPullRequest (pr : PullRequest)
| NewPullRequests (newPRs : list PullRequest).

Definition notification_message (n : Notification) : string :=
  match n with
  | NewPullRequest pr => "New pull request: " ++ title pr
  | NewPullRequests newPRs =>
      pretty (length newPRs) ++ " new pull requests found"
  end.

Definition notification_action (n : Notification) : string :=
  match n with
  | NewPullRequest _ => "View PR"
  | NewPullRequests _ => "View All"
  end.

(** [new PullRequestMonitor(gitManager, config)] *)
Definition create (gm : GitManager.t) (q : Timers.t) (cfg : GitConfig) : Session :=
  {| gitManager := gm; timers := q;
     monitor := {| pollingInterval := None; lastKnownPRs := ∅; config := cfg |} |}.

Definition findNewPullRequests (lastKnown current : list PullRequest)
    : list PullRequest :=
  if Nat.eqb (length lastKnown) 0 then current
  else
    let lastKnownIds : gset Z := list_to_set (map id lastKnown) in
    List.filter (fun pr => negb (bool_decide (id pr ∈ lastKnownIds))) current.

Definition showNewPullRequestNotifications (newPRs : list PullRequest)
    : Notification :=
  match newPRs with
  | [pr] => NewPullRequest pr
  | _ => NewPullRequests newPRs
  end.

Definition getApiUrl (type : HostType) : string :=
  match type with
  | github => "https://api.github.com"
  | gitlab => "https://gitlab.com/api/v4"
  | bitbucket => "https://api.bitbucket.org/2.0"
  | other => ""
  end.

(** [!s] for an optional string. *)
Definition missing (s : option string) : bool :=
  match s with
  | Some v => negb (JsString.truthy v)
  | None => true
  end.

(** The [continue] guard at the head of both loops. *)
Definition skipped (remote : GitRemote) : bool :=
  HostType_eqb (remote_type remote) other
  || missing (remote_owner remote)
  || missing (remote_repository remote).

Definition hostInfoOf (remote : GitRemote) : RepositoryHostInfo :=
  {| host_type := remote_type remote;
     host_owner := default "" (remote_owner remote);
     host_repository := default "" (remote_repository remote);
     baseUrl := JsString.split_slice_join (remote_url remote);
     apiUrl := getApiUrl (remote_type remote) |}.

(** One iteration of the loop in [checkForNewPullRequests]. *)
Definition checkRemote (http : Http) (remote : GitRemote)
    (acc : t * list Notification) : t * list Notification :=
  let '(m, shown) := acc in
  if skipped remote then acc
  else
    let currentPRs := getPullRequests http (hostInfoOf remote) (branches (config m)) in
    let lastKnown := default [] (lastKnownPRs m !! remote_name remote) in
    let newPRs := findNewPullRequests lastKnown currentPRs in
    let shown' :=
      if (0 <? length newPRs)%nat && showNotifications (config m)
      then (shown ++ [showNewPullRequestNotifications newPRs])%list
      else shown in
    ({| pollingInterval := pollingInterval m;
        lastKnownPRs := <[remote_name remote := currentPRs]> (lastKnownPRs m);
        config := config m |},
     shown').

Definition checkRemotes (http : Http) (rs : list GitRemote)
    (acc : t * list Notification) : t * list Notification :=
  fold_left (fun a r => checkRemote http r a) rs acc.

(** One poll tick. Neither the snapshot query nor the host queries nor
    the notification call rejects, so the [catch] is never entered. *)
Definition checkForNewPullRequests (w : GitManager.Git) (http : Http)
    (s : Session) : Session * list Notification :=
  let '(repoInfo, gm') := GitManager.getRepositoryInfo w (gitManager s) in
  match repoInfo with
  | None => ({| gitManager := gm'; timers := timers s; monitor := monitor s |}, [])
  | Some info =>
      match remotes info with
      | [] => ({| gitManager := gm'; timers := timers s; monitor := monitor s |}, [])
      | rs =>
          let '(m', shown) := checkRemotes http rs (monitor s, []) in
          ({| gitManager := gm'; timers := timers s; monitor := m' |}, shown)
      end
  end.

(** The initial check is started first and the timer is installed while
    it is still pending; the two touch different fields, so running the
    check to completion first gives the same session. *)
Definition startMonitoring (w : GitManager.Git) (http : Http) (s : Session)
    : Session * list Notification :=
  if negb (enabled (config (monitor s))) then (s, [])
  else
    let '(s1, shown) := checkForNewPullRequests w http s in
    let '(h, q) :=
      Timers.setInterval (GitTypes.pollingInterval (config (monitor s1))) (timers s1) in
    ({| gitManager := gitManager s1;
        timers := q;
        monitor := {| pollingInterval := Some h;
                      lastKnownPRs := lastKnownPRs (monitor s1);
                      config := config (monitor s1) |} |},
     shown).

Definition stopMonitoring (s : Session) : Session :=
  match pollingInterval (monitor s) with
  | Some h =>
      {| gitManager := gitManager s;
         timers := Timers.clearInterval h (timers s);
         monitor := {| pollingInterval := None;
                       lastKnownPRs := lastKnownPRs (monitor s);
                       config := config (monitor s) |} |}
  | None => s
  end.

Definition collectRemote (http : Http) (brs : list string)
    (allPRs : list PullRequest) (remote : GitRemote) : list PullRequest :=
  if skipped remote then allPRs
  else (allPRs ++ getPullRequests http (hostInfoOf remote) brs)%list.

Definition getCurrentPullRequests (w : GitManager.Git) (http : Http)
    (s : Session) : Session * list PullRequest :=
  let '(repoInfo, gm') := GitManager.getRepositoryInfo w (gitManager s) in
  let s' := {| gitManager := gm'; timers := timers s; monitor := monitor s |} in
  match repoInfo with
  | None => (s', [])
  | Some info =>
      match remotes info with
      | [] => (s', [])
      | rs => (s', fold_left (collectRemote http (branches (config (monitor s)))) rs [])
      end
  end.

Definition updateConfig (w : GitManager.Git) (http : Http)
    (newConfig : GitConfig) (s : Session) : Session * list Notification :=
  let s0 := {| gitManager := gitManager s;
               timers := timers s;
               monitor := {| pollingInterval := pollingInterval (monitor s);
                             lastKnownPRs := lastKnownPRs (monitor s);
                             config := newConfig |} |} in
  if enabled (config (monitor s0)) then startMonitoring w http s0
  else (stopMonitoring s0, []).

Definition dispose (s : Session) : Session :=
  let s1 := stopMonitoring s in
  {| gitManager := gitManager s1;
     timers := timers s1;
     monitor := {| pollingInterval := pollingInterval (monitor s1);
                   lastKnownPRs := ∅;
                   config := config (monitor s1) |} |}.

End PullRequestMonitor.

(* ===================================================================== *)
(** ** extension.ts: the monitor's configuration *)
(* ===================================================================== *)

Module Extension.

(** The [den.git] section of the editor settings; [None] is an unset key. *)
Record GitSettings := {
  set_enabled : option bool;
  set_branches : option (list string);
  set_pollingInterval : option Z;
  set_showNotifications : option bool;
  set_includeDraftPRs : option bool
}.

(** [config.get<T>(key, defaultValue)] *)
Definition get {A : Type} (stored : option A) (defaultValue : A) : A :=
  default defaultValue stored.

Definition getGitConfig (c : GitSettings) : GitConfig :=
  {| enabled := get (set_enabled c) true;
     branches := get (set_branches c) ["develop"; "test"; "master"; "main"];
     GitTypes.pollingInterval := get (set_pollingInterval c) 300000%Z;
     showNotifications := get (set_showNotifications c) true;
     includeDraftPRs := get (set_includeDraftPRs c) false |}.

End Extension.

(* ===================================================================== *)
(** ** configManager.ts *)
(* ===================================================================== *)

Module ConfigManager.

(** *** Decoded values

    What [JSON.parse] and [yaml.load] hand back: JSON values, [undefined]
    (an empty YAML document) and [Date] (a YAML timestamp). An object is
    its list of own properties, each key once. *)
Inductive JSValue :=
| JUndefined
| JNull
| JBoolean (b : bool)
| JNumber (n : float)
| JString (s : string)
| JDate (d : Date)
| JArray (items : list JSValue)
| JObject (props : list (string * JSValue)).

Definition typeof (v : JSValue) : string :=
  match v with
  | JUndefined => "undefined"
  | JNull => "object"
  | JBoolean _ => "boolean"
  | JNumber _ => "number"
  | JString _ => "string"
  | JDate _ | JArray _ | JObject _ => "object"
  end.

(** [ToBoolean]: [undefined], [null], [false], [0], [NaN] and [''] are
    falsy. *)
Definition truthy (v : JSValue) : bool :=
  match v with
  | JUndefined | JNull => false
  | JBoolean b => b
  | JNumber n => negb (PrimFloat.eqb n 0 || negb (PrimFloat.eqb n n))
  | JString s => JsString.truthy s
  | JDate _ | JArray _ | JObject _ => true
  end.

Fixpoint assoc (k : string) (props : list (string * JSValue)) : option JSValue :=
  match props with
  | [] => None
  | (k', v) :: rest => if String.eqb k k' then Some v else assoc k rest
  end.

(** [v.k] for the property names this file reads ([name], [version],
    [environment], [tools], [settings]): none of them is an index or
    [length], nor defined on a prototype, so only a plain object can
    answer anything but [undefined]. *)
Definition read (v : JSValue) (k : string) : JSValue :=
  match v with
  | JObject props => default JUndefined (assoc k props)
  | _ => JUndefined
  end.

Record DENConfig := {
  name : string;
  version : string;
  environment : string;
  tools : list JSValue;
  settings : JSValue
}.

(** [typeof v === 'string' ? v : d] *)
Definition string_or (v : JSValue) (d : string) : string :=
  if String.eqb (typeof v) "string"
  then match v with JString s => s | _ => d end
  else d.

(** [Array.isArray(v) ? v : []] *)
Definition array_or_empty (v : JSValue) : list JSValue :=
  match v with
  | JArray items => items
  | _ => []
  end.

Definition validateConfig (config : JSValue) : option DENConfig :=
  if negb (truthy config) || negb (String.eqb (typeof config) "object")
  then None
  else
    Some {| name := string_or (read config "name") "Default Environment";
            version := string_or (read config "version") "1.0.0";
            environment := string_or (read config "environment") "development";
            tools := array_or_empty (read config "tools");
            settings :=
              if truthy (read config "settings")
                 && String.eqb (typeof (read config "settings")) "object"
              then read config "settings"
              else JObject [] |}.

Definition getDefaultConfig : DENConfig :=
  {| name := "Default Environment";
     version := "1.0.0";
     environment := "development";
     tools := [];
     settings := JObject [] |}.

(** *** Collaborators: file system, path and string helpers, decoders,
    clock. [None] is a thrown exception. *)
Record Env := {
  existsSync : string -> bool;
  readFileSync : string -> option string;
  path_join : string -> string -> string;
  path_extname : string -> string;
  toLowerCase : string -> string;
  JSON_parse : string -> option JSValue;
  yaml_load : string -> option JSValue;
  Date_now : nat -> Z          (* the n-th reading of the clock *)
}.

Inductive FsCall :=
| ExistsSync (path : string)
| ReadFileSync (path : string).

(** The manager's cache together with what a call leaves observable
    outside: the clock readings consumed and the file-system calls made. *)
Record t := {
  configCache : gmap string (DENConfig * Z);
  clock : nat;
  fsCalls : list FsCall
}.

Definition configFileNames : list string :=
  ["den.yml"; "den.yaml"; "den.json"; ".den.yml"; ".den.yaml"; ".den.json"].

Definition cacheTimeout : Z := 30000.

Definition create : t := {| configCache := ∅; clock := 0; fsCalls := [] |}.

(** A small state monad over [t]. *)
Definition M (A : Type) : Type := t -> A * t.

#[global] Instance M_ret : MRet M := fun A (a : A) st => (a, st).
#[global] Instance M_bind : MBind M :=
  fun A B (k : A -> M B) (c : M A) st => let '(a, st') := c st in k a st'.

Definition fsCall (c : FsCall) : M unit := fun st =>
  (tt, {| configCache := configCache st; clock := clock st;
          fsCalls := (fsCalls st ++ [c])%list |}).

Definition now (env : Env) : M Z := fun st =>
  (Date_now env (clock st),
   {| configCache := configCache st; clock := S (clock st);
      fsCalls := fsCalls st |}).

Definition cacheGet (key : string) : M (option (DENConfig * Z)) := fun st =>
  (configCache st !! key, st).

Definition cacheSet (key : string) (entry : DENConfig * Z) : M unit := fun st =>
  (tt, {| configCache := <[key := entry]> (configCache st); clock := clock st;
          fsCalls := fsCalls st |}).

Definition clearCache (st : t) : t :=
  {| configCache := ∅; clock := clock st; fsCalls := fsCalls st |}.

Definition loadConfigFromPath (env : Env) (filePath : string)
    : M (option DENConfig) :=
  _ ← fsCall (ReadFileSync filePath);
  match readFileSync env filePath with
  | None => mret None
  | Some content =>
      let ext := toLowerCase env (path_extname env filePath) in
      if String.eqb ext ".json" then
        mret (JSON_parse env content ≫= validateConfig)
      else if String.eqb ext ".yml" || String.eqb ext ".yaml" then
        mret (yaml_load env content ≫= validateConfig)
      else mret None
  end.

(** The loop over [configFileNames] in [findConfigInWorkspace]. *)
Fixpoint searchFiles (env : Env) (workspacePath cacheKey : string)
    (fileNames : list string) : M (option DENConfig) :=
  match fileNames with
  | [] => mret None
  | fileName :: rest =>
      let filePath := path_join env workspacePath fileName in
      _ ← fsCall (ExistsSync filePath);
      if existsSync env filePath then
        config ← loadConfigFromPath env filePath;
        match config with
        | Some c =>
            timestamp ← now env;
            _ ← cacheSet cacheKey (c, timestamp);
            mret (Some c)
        | None => searchFiles env workspacePath cacheKey rest
        end
      else searchFiles env workspacePath cacheKey rest
  end.

Definition findConfigInWorkspace (env : Env) (workspacePath : string)
    : M (option DENConfig) :=
  let cacheKey := "workspace:" ++ workspacePath in
  cached ← cacheGet cacheKey;
  match cached with
  | Some (config, timestamp) =>
      t ← now env;
      if (t - timestamp <? cacheTimeout)%Z then mret (Some config)
      else searchFiles env workspacePath cacheKey configFileNames
  | None => searchFiles env workspacePath cacheKey configFileNames
  end.

(** The [den] section of the editor settings and the open folders. *)
Record Workspace := {
  configPath : option string;
  autoSearch : option bool;
  workspaceFolders : option (list string)
}.

Fixpoint searchFolders (env : Env) (folders : list string)
    : M (option DENConfig) :=
  match folders with
  | [] => mret None
  | folder :: rest =>
      config ← findConfigInWorkspace env folder;
      match config with
      | Some c => mret (Some c)
      | None => searchFolders env rest
      end
  end.

Definition loadConfiguration (env : Env) (ws : Workspace)
    : M (option DENConfig) :=
  customConfig ←
    match configPath ws with
    | Some customPath =>
        if JsString.truthy customPath then loadConfigFromPath env customPath
        else mret None
    | None => mret None
    end;
  match customConfig with
  | Some c => mret (Some c)
  | None =>
      match default false (autoSearch ws), workspaceFolders ws with
      | true, Some folders => searchFolders env folders
      | _, _ => mret None
      end
  end.

Record ConfigValidationResult := {
  isValid : bool;
  errors : list string;
  warnings : list string
}.

(** The double-quote character, for the messages that quote a field name. *)
Definition dq : string := String "034"%char EmptyString.

(** [errors.push(m)] when [c] holds. *)
Definition pushIf (c : bool) (m : string) (xs : list string) : list string :=
  if c then (xs ++ [m])%list else xs.

(** The record's [name], [version] and [environment] are strings and its
    [tools] a list by type, so of [!x || typeof x !== 'string'] only [!x]
    can hold and [!Array.isArray(config.tools)] cannot. *)
Definition validateConfiguration (config : DENConfig) : ConfigValidationResult :=
  let errors0 : list string := [] in
  let errors1 :=
    pushIf (negb (JsString.truthy (name config)))
      ("Missing or invalid " ++ dq ++ "name" ++ dq ++ " field") errors0 in
  let errors2 :=
    pushIf (negb (JsString.truthy (version config)))
      ("Missing or invalid " ++ dq ++ "version" ++ dq ++ " field") errors1 in
  let errors3 :=
    pushIf (negb (JsString.truthy (environment config)))
      ("Missing or invalid " ++ dq ++ "environment" ++ dq ++ " field") errors2 in
  let warnings1 :=
    pushIf (Nat.eqb (length (tools config)) 0)
      "No tools specified in configuration" [] in
  let errors4 :=
    pushIf (negb (truthy (settings config))
            || negb (String.eqb (typeof (settings config)) "object"))
      ("Invalid " ++ dq ++ "settings" ++ dq ++ " field - must be an object") errors3 in
  {| isValid := Nat.eqb (length errors4) 0;
     errors := errors4;
     warnings := warnings1 |}.

(** *** [createDefaultConfig]

    What the editor and the disk answer while a default file is written:
    the button picked in the overwrite prompt ([None] when it is
    dismissed), the YAML serializer, and for the write and for opening the
    written file either success ([None]) or the text of the error thrown. *)
Record Desk := {
  overwriteAnswer : option string;
  yaml_dump : DENConfig -> string;
  writeFileSync : string -> string -> option string;
  openAndShow : string -> option string
}.

Inductive UiCall :=
| ShowErrorMessage (message : string)
| ShowWarningMessage (message : string) (items : list string)
| ShowInformationMessage (message : string)
| WriteFileSync (path content : string)
| OpenTextDocument (path : string).

Definition defaultConfig : DENConfig :=
  {| name := "Developer Environment";
     version := "1.0.0";
     environment := "development";
     tools := [JString "git"; JString "npm"; JString "docker"];
     settings := JObject [("autoSave", JBoolean true);
                          ("formatOnSave", JBoolean true);
                          ("lintOnSave", JBoolean true)] |}.

(** The part of [createDefaultConfig] after the overwrite check. *)
Definition writeDefaultConfig (desk : Desk) (configPath : string) (st : t)
    : list UiCall * t :=
  let yamlContent := yaml_dump desk defaultConfig in
  match writeFileSync desk configPath yamlContent with
  | Some error =>
      ([WriteFileSync configPath yamlContent;
        ShowErrorMessage ("Failed to create configuration: " ++ error)], st)
  | None =>
      let st' := clearCache st in
      match openAndShow desk configPath with
      | None =>
          ([WriteFileSync configPath yamlContent;
            ShowInformationMessage "Default configuration created successfully";
            OpenTextDocument configPath], st')
      | Some error =>
          ([WriteFileSync configPath yamlContent;
            ShowInformationMessage "Default configuration created successfully";
            OpenTextDocument configPath;
            ShowErrorMessage ("Failed to create configuration: " ++ error)], st')
      end
  end.

(** [None] is the [TypeError] of reading [workspaceFolders[0].uri] on an
    empty folder list, which no [try] surrounds. *)
Definition createDefaultConfig (env : Env) (desk : Desk) (ws : Workspace)
    : M (option (list UiCall)) :=
  match workspaceFolders ws with
  | None => mret (Some [ShowErrorMessage "No workspace folder found"])
  | Some [] => mret None
  | Some (workspacePath :: _) =>
      let configPath := path_join env workspacePath "den.yml" in
      let prompt :=
        ShowWarningMessage "Configuration file already exists. Overwrite?"
          ["Yes"; "No"] in
      _ ← fsCall (ExistsSync configPath);
      if existsSync env configPath then
        if String.eqb (default "" (overwriteAnswer desk)) "Yes" then
          (fun st => let '(calls, st') := writeDefaultConfig desk configPath st in
                     (Some (prompt :: calls), st')) : M (option (list UiCall))
        else mret (Some [prompt])
      else
        (fun st => let '(calls, st') := writeDefaultConfig desk configPath st in
                   (Some calls, st')) : M (option (list UiCall))
  end.

Definition dispose (st : t) : t := clearCache st.

End ConfigManager.

(* ===================================================================== *)
(** ** statusBarManager.ts *)
(* ===================================================================== *)

Module StatusBarManager.

Inductive StatusType := loading | warning | error | success.

Definition StatusType_eqb (a b : StatusType) : bool :=
  match a, b with
  | loading, loading | warning, warning | error, error | success, success => true
  | _, _ => false
  end.

Definition statusIcons (status : StatusType) : string :=
  match status with
  | loading => "$(sync~spin)"
  | warning => "$(warning)"
  | error => "$(error)"
  | success => "$(check)"
  end.

(** The theme colour set for each status. *)
Definition backgroundOf (status : StatusType) : string :=
  match status with
  | success => "statusBarItem.prominentBackground"
  | error => "statusBarItem.errorBackground"
  | warning => "statusBarItem.warningBackground"
  | loading => "statusBarItem.prominentBackground"
  end.

(** The manager's two remembered fields and the two editor items it
    drives. [textWrites] lists, oldest first, every value assigned to the
    main item's [text]. *)
Record t := {
  currentStatus : option StatusType;
  currentText : option string;
  textWrites : list string;
  backgroundColor : option string;
  gitText : string;
  gitVisible : bool
}.

Definition create : t :=
  {| currentStatus := None; currentText := None; textWrites := [];
     backgroundColor := None; gitText := ""; gitVisible := false |}.

(** What the main item shows: the last value assigned to its [text]. *)
Definition shownText (bar : t) : option string := last (textWrites bar).

Definition sameAs (status : StatusType) (text : string) (bar : t) : bool :=
  match currentStatus bar, currentText bar with
  | Some s, Some t => StatusType_eqb s status && String.eqb t text
  | _, _ => false
  end.

Definition setStatus (status : StatusType) (text : string) (bar : t) : t :=
  if sameAs status text bar then bar
  else
    let icon := statusIcons status in
    let shown := icon ++ " DEN: " ++ text in
    {| currentStatus := Some status;
       currentText := Some text;
       textWrites := (textWrites bar ++ [shown])%list;
       backgroundColor := Some (backgroundOf status);
       gitText := gitText bar;
       gitVisible := gitVisible bar |}.

Definition updateStatus (status : StatusType) (text : string) (bar : t) : t :=
  setStatus status text bar.

Definition setGitStatus (branch : string) (isClean : bool) (ahead behind : Z)
    (bar : t) : t :=
  let icon := if isClean then "$(git-branch)" else "$(git-branch) $(warning)" in
  let text :=
    if (0 <? ahead)%Z || (0 <? behind)%Z
    then branch ++ " ↑" ++ pretty ahead ++ " ↓" ++ pretty behind
    else branch in
  {| currentStatus := currentStatus bar;
     currentText := currentText bar;
     textWrites := textWrites bar;
     backgroundColor := backgroundColor bar;
     gitText := icon ++ " " ++ text;
     gitVisible := true |}.

Definition hideGitStatus (bar : t) : t :=
  {| currentStatus := currentStatus bar;
     currentText := currentText bar;
     textWrites := textWrites bar;
     backgroundColor := backgroundColor bar;
     gitText := gitText bar;
     gitVisible := false |}.

End StatusBarManager.

(* ===================================================================== *)
(** ** extension.ts: the Git commands *)
(* ===================================================================== *)

Module GitCommands.

(** The objects the Git commands share. *)
Record App := {
  session : PullRequestMonitor.Session;
  statusBar : StatusBarManager.t
}.

Inductive Message :=
| Information (message : string)
| Warning (message : string)
| Error (message : string).

Definition withGit (gm : GitManager.t) (s : PullRequestMonitor.Session)
    : PullRequestMonitor.Session :=
  {| PullRequestMonitor.gitManager := gm;
     PullRequestMonitor.timers := PullRequestMonitor.timers s;
     PullRequestMonitor.monitor := PullRequestMonitor.monitor s |}.

Definition updateGitStatus (w : GitManager.Git) (app : App) : App :=
  let '(repoInfo, gm') :=
    GitManager.getRepositoryInfo w (PullRequestMonitor.gitManager (session app)) in
  {| session := withGit gm' (session app);
     statusBar :=
       match repoInfo with
       | Some info =>
           StatusBarManager.setGitStatus (currentBranch info)
             (isClean (status info)) (ahead (status info)) (behind (status info))
             (statusBar app)
       | None => statusBar app
       end |}.

Definition refreshGitStatus (w : GitManager.Git) (app : App) : App * list Message :=
  (updateGitStatus w app, [Information "Git status refreshed"]).

(** [picked] is the entry chosen in the quick pick, [None] when it is
    dismissed; [w] is the working copy before the checkout. *)
Definition switchGitBranch (w : GitManager.Git)
    (checkout : string -> option GitManager.Git) (picked : option string)
    (app : App) : App * list Message :=
  let gm := PullRequestMonitor.gitManager (session app) in
  match GitManager.getBranchList w gm with
  | [] => (app, [Warning "No branches found"])
  | _ =>
      match picked with
      | Some selected =>
          if JsString.truthy selected then
            let '(ok, gm') := GitManager.switchBranch checkout selected gm in
            let app' := {| session := withGit gm' (session app);
                           statusBar := statusBar app |} in
            if ok then
              (updateGitStatus (default w (checkout selected)) app',
               [Information ("Switched to branch: " ++ selected)])
            else (app', [Error ("Failed to switch to branch: " ++ selected)])
          else (app, [])
      | None => (app, [])
      end
  end.

(** [initializeGit] of the extension: [checkIsRepo] as in
    [GitManager.isGitRepository], [settings] the [den.git] section as it
    reads when the function runs. *)
Definition initializeGit (checkIsRepo : option bool)
    (settings : Extension.GitSettings) (w : GitManager.Git)
    (http : RepositoryHostAPI.Http) (app : App)
    : App * list PullRequestMonitor.Notification :=
  if GitManager.isGitRepository checkIsRepo
       (PullRequestMonitor.gitManager (session app))
  then
    if enabled (Extension.getGitConfig settings) then
      let '(s', shown) := PullRequestMonitor.startMonitoring w http (session app) in
      (updateGitStatus w {| session := s'; statusBar := statusBar app |}, shown)
    else (app, [])
  else
    ({| session := session app;
        statusBar := StatusBarManager.hideGitStatus (statusBar app) |}, []).

End GitCommands.

(* ===================================================================== *)
(** ** Vocabulary of the statements below *)
(* ===================================================================== *)

Module Views.

Import RepositoryHostAPI PullRequestMonitor.

(** The items a tick starting from monitor [m] finds new on [remote]. *)
Definition newOn (m : PullRequestMonitor.t) (http : Http) (remote : GitRemote)
    : list PullRequest :=
  findNewPullRequests
    (default [] (lastKnownPRs m !! remote_name remote))
    (getPullRequests http (hostInfoOf remote) (branches (config m))).

(** The notification, if any, that [remote] gives rise to. *)
Definition announced (m : PullRequestMonitor.t) (http : Http)
    (remote : GitRemote) : list Notification :=
  if skipped remote || negb (showNotifications (config m)) then []
  else match newOn m http remote with
       | [] => []
       | [pr] => [NewPullRequest pr]
       | newPRs => [NewPullRequests newPRs]
       end.

(** The requests a notification is about. *)
Definition requestsOf (n : Notification) : list PullRequest :=
  match n with
  | NewPullRequest pr => [pr]
  | NewPullRequests newPRs => newPRs
  end.

(** What the on-demand listing shows for one remote. *)
Definition listed (http : Http) (branches : list string) (remote : GitRemote)
    : list PullRequest :=
  if skipped remote then []
  else getPullRequests http (hostInfoOf remote) branches.

(** No timer handle is reused, and a stored handle is that of a running
    timer. *)
Definition tidy (s : Session) : Prop :=
  Timers.wf (timers s)
  ∧ ∀ h, pollingInterval (monitor s) = Some h →
         is_Some (Timers.active (timers s) !! h).

(** What the main status item was last asked to show. *)
Definition displayed (bar : StatusBarManager.t)
    : option (StatusBarManager.StatusType * string) :=
  match StatusBarManager.currentStatus bar, StatusBarManager.currentText bar with
  | Some s, Some t => Some (s, t)
  | _, _ => None
  end.

Definition samePair (a b : StatusBarManager.StatusType * string) : bool :=
  StatusBarManager.StatusType_eqb (fst a) (fst b) && String.eqb (snd a) (snd b).

(** The calls of a sequence that differ from the pair displayed when they
    arrive. *)
Fixpoint changes (shown : option (StatusBarManager.StatusType * string))
    (calls : list (StatusBarManager.StatusType * string))
    : list (StatusBarManager.StatusType * string) :=
  match calls with
  | [] => []
  | c :: rest =>
      match shown with
      | Some p => if samePair p c then changes shown rest
                  else c :: changes (Some c) rest
      | None => c :: changes (Some c) rest
      end
  end.

(** The text the main status item carries for a pair. *)
Definition statusLine (c : StatusBarManager.StatusType * string) : string :=
  StatusBarManager.statusIcons (fst c) ++ " DEN: " ++ snd c.

(** A sequence of [setStatus] calls. *)
Definition setStatuses (calls : list (StatusBarManager.StatusType * string))
    (bar : StatusBarManager.t) : StatusBarManager.t :=
  fold_left (fun b c => StatusBarManager.setStatus (fst c) (snd c) b) calls bar.

(** Once something is displayed, the item's text is the line of the
    displayed pair. *)
Definition inSync (bar : StatusBarManager.t) : Prop :=
  ∀ p, displayed bar = Some p → StatusBarManager.shownText bar = Some (statusLine p).

(** The file a candidate path decodes to, without the bookkeeping. *)
Definition decodeAt (env : ConfigManager.Env) (filePath : string)
    : option ConfigManager.DENConfig :=
  match ConfigManager.readFileSync env filePath with
  | None => None
  | Some content =>
      let ext := ConfigManager.toLowerCase env (ConfigManager.path_extname env filePath) in
      if String.eqb ext ".json" then
        ConfigManager.JSON_parse env content ≫= ConfigManager.validateConfig
      else if String.eqb ext ".yml" || String.eqb ext ".yaml" then
        ConfigManager.yaml_load env content ≫= ConfigManager.validateConfig
      else None
  end.

(** What one candidate file name of a workspace yields. *)
Definition candidate (env : ConfigManager.Env) (workspacePath fileName : string)
    : option ConfigManager.DENConfig :=
  if ConfigManager.existsSync env (ConfigManager.path_join env workspacePath fileName)
  then decodeAt env (ConfigManager.path_join env workspacePath fileName)
  else None.

(** The first element of a list for which [f] answers. *)
Fixpoint firstSome {A B : Type} (f : A → option B) (l : list A) : option B :=
  match l with
  | [] => None
  | a :: rest => match f a with Some b => Some b | None => firstSome f rest end
  end.

(** The record [loadConfiguration] resolves to when nothing is cached: the
    custom path if it is set and loads, else the first loadable candidate
    of the first workspace folder that has one, if the automatic search is
    on. *)
Definition resolved (env : ConfigManager.Env) (ws : ConfigManager.Workspace)
    : option ConfigManager.DENConfig :=
  let custom :=
    match ConfigManager.configPath ws with
    | Some customPath =>
        if JsString.truthy customPath then decodeAt env customPath else None
    | None => None
    end in
  match custom with
  | Some c => Some c
  | None =>
      match default false (ConfigManager.autoSearch ws),
            ConfigManager.workspaceFolders ws with
      | true, Some folders =>
          firstSome (fun folder =>
                       firstSome (candidate env folder) ConfigManager.configFileNames)
                    folders
      | _, _ => None
      end
  end.

(** A decoded value that is an object in the JavaScript sense: anything
    but [undefined], [null], a boolean, a number or a string. *)
Definition isObject (v : ConfigManager.JSValue) : bool :=
  match v with
  | ConfigManager.JDate _ | ConfigManager.JArray _ | ConfigManager.JObject _ => true
  | _ => false
  end.

(** A decoded value that is an object in the narrower sense of a
    key-value record, which sets arrays apart (as in "non-array tools"
    beside "non-object settings"). *)
Definition isKeyValueObject (v : ConfigManager.JSValue) : bool :=
  match v with
  | ConfigManager.JObject _ => true
  | _ => false
  end.

(** Whether the character [c] occurs in [s]. *)
Fixpoint occurs (c : Ascii.ascii) (s : string) : bool :=
  match s with
  | EmptyString => false
  | String a s' => Ascii.eqb a c || occurs c s'
  end.

End Views.

(* ===================================================================== *)
(** ** Concrete inputs used by the examples below *)
(* ===================================================================== *)

Module Fixtures.

Import RepositoryHostAPI.

Definition pr (n : Z) (t : string) : PullRequest :=
  {| id := n; title := t; url := "https://github.com/acme/widgets/pull/" ++ t;
     branch := "main"; author := "dev";
     createdAt := DateOf "2024-01-01T00:00:00Z";
     updatedAt := DateOf "2024-01-02T00:00:00Z";
     isDraft := false; repository := "acme/widgets" |}.

Definition ghPull (n : Z) (t : string) : GitHubPull :=
  {| gh_number := n; gh_title := t;
     gh_html_url := "https://github.com/acme/widgets/pull/" ++ t;
     gh_base_ref := "main"; gh_user_login := "dev";
     gh_created_at := "2024-01-01T00:00:00Z";
     gh_updated_at := "2024-01-02T00:00:00Z";
     gh_draft := false |}.

Definition glMergeRequest (n : Z) (t : string) : GitLabMergeRequest :=
  {| gl_iid := n; gl_title := t;
     gl_web_url := "https://gitlab.com/acme/widgets/-/merge_requests/" ++ t;
     gl_target_branch := "main"; gl_author_username := "dev";
     gl_created_at := "2024-01-01T00:00:00Z";
     gl_updated_at := "2024-01-02T00:00:00Z";
     gl_work_in_progress := false |}.

Definition bbPullRequest (n : Z) (t : string) : BitbucketPullRequest :=
  {| bb_id := n; bb_title := t;
     bb_links_html_href := "https://bitbucket.org/acme/widgets/pull-requests/" ++ t;
     bb_destination_branch_name := "main"; bb_author_username := "dev";
     bb_created_on := "2024-01-01T00:00:00Z";
     bb_updated_on := "2024-01-02T00:00:00Z" |}.

(** Hosts answering with the given open requests, whatever the URL. *)
Definition hosts (gh : list GitHubPull) (gl : list GitLabMergeRequest)
    (bb : list BitbucketPullRequest) : Http :=
  {| encodeURIComponent := fun s => s;
     get_github := fun _ => Some gh;
     get_gitlab := fun _ => Some gl;
     get_bitbucket := fun _ => Some bb |}.

Definition bbHostInfo : RepositoryHostInfo :=
  {| host_type := bitbucket; host_owner := "acme"; host_repository := "widgets";
     baseUrl := "https://bitbucket.org"; apiUrl := "https://api.bitbucket.org/2.0" |}.

(** A working copy on [main] with the given remotes. *)
Definition workingCopy (rs : list GitManager.RemoteWithRefs) : GitManager.Git :=
  {| GitManager.git_branch := Some ("main", ["main"; "develop"]);
     GitManager.git_getRemotes := Some rs;
     GitManager.git_log := Some None;
     GitManager.git_status := None;
     GitManager.git_now := 0 |}.

Definition origin : GitManager.RemoteWithRefs :=
  {| GitManager.rr_name := "origin";
     GitManager.rr_fetch := Some "git@github.com:acme/widgets.git";
     GitManager.rr_push := None |}.

Definition upstream : GitManager.RemoteWithRefs :=
  {| GitManager.rr_name := "upstream";
     GitManager.rr_fetch := Some "https://gitlab.com/acme/widgets.git";
     GitManager.rr_push := None |}.

(** A manager over a repository whose first refresh has not run yet. *)
Definition manager : GitManager.t :=
  {| GitManager.git := true; GitManager.baseDir := "/work";
     GitManager.repositoryInfo := None |}.

Definition defaultSettings : Extension.GitSettings :=
  {| Extension.set_enabled := None;
     Extension.set_branches := None;
     Extension.set_pollingInterval := None;
     Extension.set_showNotifications := None;
     Extension.set_includeDraftPRs := None |}.

Definition withInterval (ms : Z) : Extension.GitSettings :=
  {| Extension.set_enabled := None;
     Extension.set_branches := None;
     Extension.set_pollingInterval := Some ms;
     Extension.set_showNotifications := None;
     Extension.set_includeDraftPRs := None |}.

Definition session : PullRequestMonitor.Session :=
  PullRequestMonitor.create manager Timers.empty
    (Extension.getGitConfig defaultSettings).

(** The text from the last ['.'] on, as [path.extname] gives it for the
    file names used here. *)
Fixpoint fromLastDot (s : string) : option string :=
  match s with
  | EmptyString => None
  | String c s' =>
      match fromLastDot s' with
      | Some e => Some e
      | None => if Ascii.eqb c "."%char then Some s else None
      end
  end.

Definition fooDocument : ConfigManager.JSValue :=
  ConfigManager.JObject [("name", ConfigManager.JString "Foo")].

(** A disk holding [/work/den.yml] with the one line [name: Foo]; the
    clock advances one second per reading. *)
Definition disk : ConfigManager.Env :=
  {| ConfigManager.existsSync := fun p => String.eqb p "/work/den.yml";
     ConfigManager.readFileSync := fun p =>
       if String.eqb p "/work/den.yml" then Some "name: Foo" else None;
     ConfigManager.path_join := fun a b => a ++ "/" ++ b;
     ConfigManager.path_extname := fun p => default "" (fromLastDot p);
     ConfigManager.toLowerCase := fun s => s;
     ConfigManager.JSON_parse := fun _ => None;
     ConfigManager.yaml_load := fun content =>
       if String.eqb content "name: Foo" then Some fooDocument else None;
     ConfigManager.Date_now := fun n => (1000 * Z.of_nat n)%Z |}.

(** An application whose manager has stored the snapshot of a working copy
    on [main] and whose status bar is fresh. *)
Definition app : GitCommands.App :=
  {| GitCommands.session :=
       PullRequestMonitor.create
         (snd (GitManager.refreshRepositoryInfo (workingCopy [origin]) manager))
         Timers.empty (Extension.getGitConfig defaultSettings);
     GitCommands.statusBar := StatusBarManager.create |}.

(** The working copy after a checkout of [develop], two commits ahead. *)
Definition onDevelop : GitManager.Git :=
  {| GitManager.git_branch := Some ("develop", ["main"; "develop"]);
     GitManager.git_getRemotes := Some [origin];
     GitManager.git_log := Some None;
     GitManager.git_status :=
       Some {| GitManager.st_isClean := false;
               GitManager.st_staged := [];
               GitManager.st_modified := ["a.ts"];
               GitManager.st_not_added := [];
               GitManager.st_ahead := 2;
               GitManager.st_behind := 0 |};
     GitManager.git_now := 0 |}.

(** A checkout that accepts [develop] only. *)
Definition checkoutDevelop (b : string) : option GitManager.Git :=
  if String.eqb b "develop" then Some onDevelop else None.

(** An editor in which the overwrite prompt is dismissed and writing and
    opening succeed. *)
Definition desk : ConfigManager.Desk :=
  {| ConfigManager.overwriteAnswer := None;
     ConfigManager.yaml_dump := fun _ => "name: Developer Environment";
     ConfigManager.writeFileSync := fun _ _ => None;
     ConfigManager.openAndShow := fun _ => None |}.

Definition freshFolder : ConfigManager.Workspace :=
  {| ConfigManager.configPath := None;
     ConfigManager.autoSearch := Some true;
     ConfigManager.workspaceFolders := Some ["/fresh"] |}.

(** A manager whose entry for [/work] was stored 30 000 ms before the
    clock's first reading. *)
Definition agedManager : ConfigManager.t :=
  {| ConfigManager.configCache :=
       <["workspace:/work" := (ConfigManager.getDefaultConfig, (-30000)%Z)]> ∅;
     ConfigManager.clock := 0;
     ConfigManager.fsCalls := [] |}.

End Fixtures.

(* ===================================================================== *)
(** * Properties *)
(* ===================================================================== *)

(** ** String helpers *)

Module JsStringProps.

Import JsString.

Lemma strip_prefix_app p s : strip_prefix p (p ++ s) = Some s.
Proof.
  induction p as [|a p IH]; simpl; [by destruct s|].
  by rewrite Ascii.eqb_refl.
Qed.

Lemma has_slash_app a b : has_slash (a ++ b) = has_slash a || has_slash b.
Proof. induction a as [|c a IH]; simpl; [done|]. by rewrite IH, orb_assoc. Qed.

Lemma cut_first_slash_app a b :
  has_slash a = false → cut_first_slash (a ++ "/" ++ b) = Some (a, b).
Proof.
  induction a as [|c a IH]; simpl; [done|].
  intros H. apply orb_false_elim in H as [Hc Ha].
  rewrite Hc. by rewrite (IH Ha).
Qed.

Lemma cut_first_slash_spec s a b :
  cut_first_slash s = Some (a, b) → has_slash a = false ∧ s = a ++ "/" ++ b.
Proof.
  revert a. induction s as [|c s IH]; intros a; simpl; [done|].
  destruct (Ascii.eqb c slash) eqn:Hc.
  - intros [= <- <-]. apply Ascii.eqb_eq in Hc as ->. done.
  - destruct (cut_first_slash s) as [[a' b']|]; [|done].
    intros [= <- <-]. destruct (IH a' eq_refl) as [Ha ->].
    simpl. by rewrite Hc, Ha.
Qed.

Lemma length_app (a b : string) :
  String.length (a ++ b) = String.length a + String.length b.
Proof. induction a as [|c a IH]; simpl; [done|]. by rewrite IH. Qed.

Lemma strip_suffix_spec suffix s p :
  strip_suffix_nonempty suffix s = Some p → p ≠ "" ∧ s = p ++ suffix.
Proof.
  revert p. induction s as [|c s IH]; intros p; simpl; [done|].
  destruct (String.eqb s suffix) eqn:E.
  - intros [= <-]. apply String.eqb_eq in E as ->. done.
  - destruct (strip_suffix_nonempty suffix s) as [t|]; [|done].
    intros [= <-]. destruct (IH t eq_refl) as [_ ->]. done.
Qed.

Lemma strip_suffix_app suffix p :
  p ≠ "" → strip_suffix_nonempty suffix (p ++ suffix) = Some p.
Proof.
  induction p as [|c p IH]; [done|]. intros _. simpl.
  destruct p as [|c' p].
  - simpl. by rewrite String.eqb_refl.
  - assert (Hne : String.eqb (String c' p ++ suffix) suffix = false).
    { apply String.eqb_neq. intros Heq.
      apply (f_equal String.length) in Heq. rewrite length_app in Heq.
      simpl in Heq. lia. }
    rewrite Hne. by rewrite IH.
Qed.

Lemma strip_suffix_none suffix s :
  (∀ p, p ≠ "" → s ≠ p ++ suffix) → strip_suffix_nonempty suffix s = None.
Proof.
  intros H. destruct (strip_suffix_nonempty suffix s) as [p|] eqn:E; [|done].
  apply strip_suffix_spec in E as [Hp ->]. by destruct (H p Hp).
Qed.

Lemma occurs_app c a b : Views.occurs c (a ++ b) = Views.occurs c a || Views.occurs c b.
Proof. induction a as [|x a IH]; simpl; [done|]. by rewrite IH, orb_assoc. Qed.

(** A prefix can only be stripped from a string that contains every
    character of the prefix. *)
Lemma strip_prefix_occurs c p s rest :
  strip_prefix p s = Some rest → Views.occurs c p = true → Views.occurs c s = true.
Proof.
  revert s. induction p as [|a p IH]; intros s; simpl; [done|].
  destruct s as [|b s]; [done|].
  destruct (Ascii.eqb a b) eqn:E; [|done].
  apply Ascii.eqb_eq in E as ->. intros Hs Hc. simpl.
  apply orb_true_iff in Hc as [Hc|Hc]; [by rewrite Hc|].
  rewrite (IH _ Hs Hc). by rewrite orb_true_r.
Qed.

End JsStringProps.

(** ** Repository snapshot *)

Module GitManagerProps.

(** Sanity checks of the URL patterns on the shapes the source comments
    name. *)
Example parse_github_ssh :
  GitManager.parseRepositoryUrl "git@github.com:acme/widgets.git"
  = {| host_type := github; host_owner := "acme"; host_repository := "widgets";
       baseUrl := "https://github.com"; apiUrl := "https://api.github.com" |}.
Proof. reflexivity. Qed.

Example parse_gitlab_https :
  GitManager.parseRepositoryUrl "https://gitlab.com/acme/widgets"
  = {| host_type := gitlab; host_owner := "acme"; host_repository := "widgets";
       baseUrl := "https://gitlab.com"; apiUrl := "https://gitlab.com/api/v4" |}.
Proof. reflexivity. Qed.

Example parse_other :
  host_type (GitManager.parseRepositoryUrl "https://example.org/acme/widgets.git") = other.
Proof. reflexivity. Qed.

Example parse_nested_path_is_other :
  host_type (GitManager.parseRepositoryUrl "https://github.com/acme/team/widgets.git") = other.
Proof. reflexivity. Qed.

Example parse_keeps_inner_dot_git :
  host_repository (GitManager.parseRepositoryUrl "https://github.com/acme/a.git.git")
  = "a.git".
Proof. reflexivity. Qed.

Lemma refresh_without_git w gm :
  GitManager.git gm = false →
  GitManager.refreshRepositoryInfo w gm = (None, gm).
Proof. intros H. unfold GitManager.refreshRepositoryInfo. by rewrite H. Qed.

Lemma refresh_with_git w gm :
  GitManager.git gm = true →
  ∃ info,
    GitManager.refreshRepositoryInfo w gm
    = (Some info,
       {| GitManager.git := true; GitManager.baseDir := GitManager.baseDir gm;
          GitManager.repositoryInfo := Some info |})
    ∧ root info = GitManager.baseDir gm
    ∧ currentBranch info = GitManager.getCurrentBranch w gm
    ∧ remotes info = GitManager.getRemotes w gm
    ∧ lastCommit info = GitManager.getLastCommit w gm
    ∧ status info = GitManager.getStatus w gm.
Proof.
  intros H. unfold GitManager.refreshRepositoryInfo. rewrite H. simpl.
  eexists. split; [reflexivity|]. by repeat split.
Qed.

(** Once a snapshot query has run, a further one changes nothing in the
    manager, whatever the working copy looks like by then. *)
Lemma getRepositoryInfo_settles w w' gm :
  snd (GitManager.getRepositoryInfo w'
         (snd (GitManager.getRepositoryInfo w gm)))
  = snd (GitManager.getRepositoryInfo w gm).
Proof.
  unfold GitManager.getRepositoryInfo.
  destruct (GitManager.repositoryInfo gm) as [info|] eqn:Hinfo.
  - simpl. by rewrite Hinfo.
  - unfold GitManager.refreshRepositoryInfo.
    destruct (GitManager.git gm) eqn:Hgit; simpl.
    + reflexivity.
    + by rewrite Hinfo, Hgit.
Qed.

(** C9. A rejected checkout leaves the manager, and with it the stored
    snapshot, exactly as it was and [switchBranch] answers [false]; an
    accepted checkout answers [true] and stores the snapshot of a full
    refresh (branch, remotes, last commit and status all re-queried on the
    working copy as the checkout left it). *)
Theorem switchBranch_checkout_outcomes
    (checkout : string -> option GitManager.Git) (branchName : string)
    (gm : GitManager.t) :
  GitManager.git gm = true →
  (checkout branchName = None →
     GitManager.switchBranch checkout branchName gm = (false, gm))
  ∧ (∀ w', checkout branchName = Some w' →
       fst (GitManager.switchBranch checkout branchName gm) = true
       ∧ snd (GitManager.switchBranch checkout branchName gm)
         = snd (GitManager.refreshRepositoryInfo w' gm)
       ∧ GitManager.repositoryInfo
           (snd (GitManager.switchBranch checkout branchName gm))
         = Some {| root := GitManager.baseDir gm;
                   currentBranch := GitManager.getCurrentBranch w' gm;
                   remotes := GitManager.getRemotes w' gm;
                   lastCommit := GitManager.getLastCommit w' gm;
                   status := GitManager.getStatus w' gm;
                   isGitRepository := true |}).
Proof.
  intros Hgit. unfold GitManager.switchBranch. rewrite Hgit. simpl. split.
  - intros ->. reflexivity.
  - intros w' ->. simpl.
    unfold GitManager.refreshRepositoryInfo. rewrite Hgit. simpl. by repeat split.
Qed.

Lemma switchBranch_checkout_outcomes_witness :
  GitManager.switchBranch
    (fun b => if String.eqb b "develop"
              then Some (Fixtures.workingCopy [Fixtures.origin]) else None)
    "gone" Fixtures.manager
  = (false, Fixtures.manager)
  ∧ fst (GitManager.switchBranch
           (fun b => if String.eqb b "develop"
                     then Some (Fixtures.workingCopy [Fixtures.origin]) else None)
           "develop" Fixtures.manager)
    = true.
Proof.
  split.
  - exact (proj1 (switchBranch_checkout_outcomes
                    (fun b => if String.eqb b "develop"
                              then Some (Fixtures.workingCopy [Fixtures.origin])
                              else None)
                    "gone" Fixtures.manager eq_refl) eq_refl).
  - exact (proj1 (proj2 (switchBranch_checkout_outcomes
                           (fun b => if String.eqb b "develop"
                                     then Some (Fixtures.workingCopy [Fixtures.origin])
                                     else None)
                           "develop" Fixtures.manager eq_refl)
                    (Fixtures.workingCopy [Fixtures.origin]) eq_refl)).
Defined.

(** *** Remote URL recognition *)

Lemma url_match_unfold https ssh url :
  GitManager.url_match https ssh url
  = match GitManager.match_here https ssh url with
    | Some r => Some r
    | None => match url with
              | EmptyString => None
              | String _ url' => GitManager.url_match https ssh url'
              end
    end.
Proof. by destruct url. Qed.

Lemma match_owner_repo_app o rest :
  o ≠ "" → rest ≠ "" →
  JsString.has_slash o = false → JsString.has_slash rest = false →
  GitManager.match_owner_repo (o ++ "/" ++ rest)
  = Some (o, default rest (JsString.strip_suffix_nonempty ".git" rest)).
Proof.
  intros Ho Hr Hso Hsr. unfold GitManager.match_owner_repo.
  rewrite (JsStringProps.cut_first_slash_app _ _ Hso).
  apply String.eqb_neq in Ho, Hr. by rewrite Ho, Hr, Hsr.
Qed.

Lemma match_owner_repo_sound s o r :
  GitManager.match_owner_repo s = Some (o, r) →
  o ≠ "" ∧ r ≠ "" ∧ JsString.has_slash o = false ∧ JsString.has_slash r = false.
Proof.
  unfold GitManager.match_owner_repo.
  destruct (JsString.cut_first_slash s) as [[owner rest]|] eqn:Hcut; [|done].
  apply JsStringProps.cut_first_slash_spec in Hcut as [Hso _].
  destruct (String.eqb owner "") eqn:Ho; [done|].
  destruct (String.eqb rest "") eqn:Hr; [done|].
  destruct (JsString.has_slash rest) eqn:Hsr; [done|]. simpl.
  apply String.eqb_neq in Ho, Hr.
  destruct (JsString.strip_suffix_nonempty ".git" rest) as [p|] eqn:Hp; simpl;
    intros [= <- <-].
  - apply JsStringProps.strip_suffix_spec in Hp as [Hne ->].
    rewrite JsStringProps.has_slash_app in Hsr.
    apply orb_false_elim in Hsr as [Hsp _]. done.
  - done.
Qed.

Lemma url_match_sound https ssh url o r :
  GitManager.url_match https ssh url = Some (o, r) →
  o ≠ "" ∧ r ≠ "" ∧ JsString.has_slash o = false ∧ JsString.has_slash r = false.
Proof.
  induction url as [|c url IH]; rewrite url_match_unfold;
    unfold GitManager.match_here;
    destruct (JsString.strip_prefix https _ ≫= GitManager.match_owner_repo)
      as [[o1 r1]|] eqn:E1.
  1,3: intros [= <- <-];
       destruct (JsString.strip_prefix https _) as [x|]; [|done];
       by apply (match_owner_repo_sound x).
  all: destruct (JsString.strip_prefix ssh _ ≫= GitManager.match_owner_repo)
         as [[o2 r2]|] eqn:E2; [|done].
  all: intros [= <- <-];
       destruct (JsString.strip_prefix ssh _) as [x|]; [|done];
       by apply (match_owner_repo_sound x).
Qed.

(** Neither host pattern can match inside a string without [':']. *)
Lemma url_match_needs_colon https ssh url :
  Views.occurs ":" https = true → Views.occurs ":" ssh = true →
  Views.occurs ":" url = false →
  GitManager.url_match https ssh url = None.
Proof.
  intros Hh Hs. induction url as [|c url IH]; intros Hu.
  - rewrite url_match_unfold. unfold GitManager.match_here.
    destruct (JsString.strip_prefix https "") as [x|] eqn:E1.
    { apply (JsStringProps.strip_prefix_occurs ":") in E1; [done|done]. }
    destruct (JsString.strip_prefix ssh "") as [x|] eqn:E2; [|done].
    apply (JsStringProps.strip_prefix_occurs ":") in E2; [done|done].
  - rewrite url_match_unfold. unfold GitManager.match_here.
    destruct (JsString.strip_prefix https (String c url)) as [x|] eqn:E1.
    { apply (JsStringProps.strip_prefix_occurs ":") in E1; [congruence|done]. }
    destruct (JsString.strip_prefix ssh (String c url)) as [x|] eqn:E2.
    { apply (JsStringProps.strip_prefix_occurs ":") in E2; [congruence|done]. }
    simpl. apply IH. simpl in Hu. by apply orb_false_elim in Hu as [_ Hu].
Qed.

Lemma url_match_skip https ssh c url :
  GitManager.match_here https ssh (String c url) = None →
  GitManager.url_match https ssh (String c url) = GitManager.url_match https ssh url.
Proof. intros H. rewrite url_match_unfold. by rewrite H. Qed.

Lemma url_match_here https ssh url r :
  GitManager.match_here https ssh url = Some r →
  GitManager.url_match https ssh url = Some r.
Proof. intros H. rewrite url_match_unfold. by rewrite H. Qed.

Lemma append_cons c s t : String c s ++ t = String c (s ++ t).
Proof. reflexivity. Qed.

Lemma append_nil t : "" ++ t = t.
Proof. reflexivity. Qed.

(** Step over the characters of a literal prefix at which a pattern fails. *)
Ltac skip_literal :=
  rewrite ?append_cons, ?append_nil;
  repeat (rewrite url_match_skip by reflexivity).

(** The part of a URL after the host prefix. *)
Lemma tail_has_no_colon o rest :
  Views.occurs ":" o = false → Views.occurs ":" rest = false →
  Views.occurs ":" (o ++ "/" ++ rest) = false.
Proof.
  intros Ho Hr. rewrite !JsStringProps.occurs_app, Ho, Hr. reflexivity.
Qed.

Lemma match_here_https https ssh x res :
  GitManager.match_owner_repo x = Some res →
  GitManager.match_here https ssh (https ++ x) = Some res.
Proof.
  intros H. unfold GitManager.match_here.
  rewrite JsStringProps.strip_prefix_app. simpl. by rewrite H.
Qed.

Lemma match_here_ssh https ssh x res :
  JsString.strip_prefix https (ssh ++ x) = None →
  GitManager.match_owner_repo x = Some res →
  GitManager.match_here https ssh (ssh ++ x) = Some res.
Proof.
  intros Hn H. unfold GitManager.match_here.
  rewrite Hn, JsStringProps.strip_prefix_app. simpl. exact H.
Qed.

Lemma owner_repo_dot_git o r :
  o ≠ "" → r ≠ "" →
  JsString.has_slash o = false → JsString.has_slash r = false →
  GitManager.match_owner_repo (o ++ "/" ++ r ++ ".git") = Some (o, r).
Proof.
  intros Ho Hr Hso Hsr.
  rewrite match_owner_repo_app; [|done| |done|].
  - by rewrite (JsStringProps.strip_suffix_app _ _ Hr).
  - by destruct r.
  - by rewrite JsStringProps.has_slash_app, Hsr.
Qed.

Lemma owner_repo_plain o r :
  o ≠ "" → r ≠ "" →
  JsString.has_slash o = false → JsString.has_slash r = false →
  (∀ p, p ≠ "" → r ≠ p ++ ".git") →
  GitManager.match_owner_repo (o ++ "/" ++ r) = Some (o, r).
Proof.
  intros Ho Hr Hso Hsr Hplain.
  rewrite match_owner_repo_app by done.
  by rewrite (JsStringProps.strip_suffix_none _ _ Hplain).
Qed.

(** Settle a pattern that matches at the very start of the URL. *)
Ltac hit H :=
  erewrite url_match_here; cycle 1;
  [ first [ apply match_here_https; exact H
          | apply match_here_ssh; [reflexivity | exact H] ]
  | reflexivity ].

(** X1. A GitHub remote URL in either form, [https://github.com/o/r] or
    [git@github.com:o/r], with or without a final [.git], is recognised
    as GitHub with owner [o] and repository [r], for every non-empty,
    slash-free [o] and [r]. *)
Theorem github_url_is_recognised (o r : string) :
  o ≠ "" → r ≠ "" →
  JsString.has_slash o = false → JsString.has_slash r = false →
  let descriptor :=
    {| host_type := github; host_owner := o; host_repository := r;
       baseUrl := "https://github.com"; apiUrl := "https://api.github.com" |} in
  GitManager.parseRepositoryUrl ("https://github.com/" ++ o ++ "/" ++ r ++ ".git")
  = descriptor
  ∧ GitManager.parseRepositoryUrl ("git@github.com:" ++ o ++ "/" ++ r ++ ".git")
    = descriptor
  ∧ ((∀ p, p ≠ "" → r ≠ p ++ ".git") →
     GitManager.parseRepositoryUrl ("https://github.com/" ++ o ++ "/" ++ r)
     = descriptor
     ∧ GitManager.parseRepositoryUrl ("git@github.com:" ++ o ++ "/" ++ r)
       = descriptor).
Proof.
  intros Ho Hr Hso Hsr descriptor.
  pose proof (owner_repo_dot_git o r Ho Hr Hso Hsr) as Hgit.
  unfold GitManager.parseRepositoryUrl. repeat split.
  - hit Hgit.
  - hit Hgit.
  - pose proof (owner_repo_plain o r Ho Hr Hso Hsr H) as Hplain.
    hit Hplain.
  - pose proof (owner_repo_plain o r Ho Hr Hso Hsr H) as Hplain.
    hit Hplain.
Qed.

Lemma github_url_is_recognised_witness :
  GitManager.parseRepositoryUrl "https://github.com/acme/widgets.git"
  = {| host_type := github; host_owner := "acme"; host_repository := "widgets";
       baseUrl := "https://github.com"; apiUrl := "https://api.github.com" |}.
Proof.
  exact (proj1 (github_url_is_recognised "acme" "widgets"
                  ltac:(discriminate) ltac:(discriminate) eq_refl eq_refl)).
Defined.

(** The GitHub patterns miss every URL that has no [':'] after a GitLab or
    Bitbucket host prefix, and the GitLab patterns every such Bitbucket
    URL. *)
Ltac miss Hcolon :=
  skip_literal; apply url_match_needs_colon; [reflexivity|reflexivity|exact Hcolon].

(** X2. A GitLab or Bitbucket remote URL in either form, with or without
    a final [.git], is recognised as that host with owner [o] and
    repository [r], for every non-empty [o] and [r] free of ['/'] and
    [':']. *)
Theorem gitlab_bitbucket_url_is_recognised (o r : string) :
  o ≠ "" → r ≠ "" →
  JsString.has_slash o = false → JsString.has_slash r = false →
  Views.occurs ":" o = false → Views.occurs ":" r = false →
  let lab :=
    {| host_type := gitlab; host_owner := o; host_repository := r;
       baseUrl := "https://gitlab.com"; apiUrl := "https://gitlab.com/api/v4" |} in
  let bucket :=
    {| host_type := bitbucket; host_owner := o; host_repository := r;
       baseUrl := "https://bitbucket.org";
       apiUrl := "https://api.bitbucket.org/2.0" |} in
  (GitManager.parseRepositoryUrl ("https://gitlab.com/" ++ o ++ "/" ++ r ++ ".git")
   = lab
   ∧ GitManager.parseRepositoryUrl ("git@gitlab.com:" ++ o ++ "/" ++ r ++ ".git")
     = lab
   ∧ GitManager.parseRepositoryUrl
       ("https://bitbucket.org/" ++ o ++ "/" ++ r ++ ".git") = bucket
   ∧ GitManager.parseRepositoryUrl
       ("git@bitbucket.org:" ++ o ++ "/" ++ r ++ ".git") = bucket)
  ∧ ((∀ p, p ≠ "" → r ≠ p ++ ".git") →
     GitManager.parseRepositoryUrl ("https://gitlab.com/" ++ o ++ "/" ++ r) = lab
     ∧ GitManager.parseRepositoryUrl ("git@gitlab.com:" ++ o ++ "/" ++ r) = lab
     ∧ GitManager.parseRepositoryUrl ("https://bitbucket.org/" ++ o ++ "/" ++ r)
       = bucket
     ∧ GitManager.parseRepositoryUrl ("git@bitbucket.org:" ++ o ++ "/" ++ r)
       = bucket).
Proof.
  intros Ho Hr Hso Hsr Hco Hcr lab bucket.
  pose proof (owner_repo_dot_git o r Ho Hr Hso Hsr) as Hgit.
  assert (Hc1 : Views.occurs ":" (o ++ "/" ++ r ++ ".git") = false).
  { apply tail_has_no_colon; [done|]. by rewrite JsStringProps.occurs_app, Hcr. }
  assert (Hc2 : Views.occurs ":" (o ++ "/" ++ r) = false)
    by by apply tail_has_no_colon.
  unfold GitManager.parseRepositoryUrl. split; [repeat split|intros Hplain0].
  - replace (GitManager.url_match "https://github.com/" "git@github.com:" _)
      with (@None (string * string)) by (symmetry; miss Hc1).
    hit Hgit.
  - replace (GitManager.url_match "https://github.com/" "git@github.com:" _)
      with (@None (string * string)) by (symmetry; miss Hc1).
    hit Hgit.
  - replace (GitManager.url_match "https://github.com/" "git@github.com:" _)
      with (@None (string * string)) by (symmetry; miss Hc1).
    replace (GitManager.url_match "https://gitlab.com/" "git@gitlab.com:" _)
      with (@None (string * string)) by (symmetry; miss Hc1).
    hit Hgit.
  - replace (GitManager.url_match "https://github.com/" "git@github.com:" _)
      with (@None (string * string)) by (symmetry; miss Hc1).
    replace (GitManager.url_match "https://gitlab.com/" "git@gitlab.com:" _)
      with (@None (string * string)) by (symmetry; miss Hc1).
    hit Hgit.
  - pose proof (owner_repo_plain o r Ho Hr Hso Hsr Hplain0) as Hplain.
    repeat split.
    + replace (GitManager.url_match "https://github.com/" "git@github.com:" _)
        with (@None (string * string)) by (symmetry; miss Hc2).
      hit Hplain.
    + replace (GitManager.url_match "https://github.com/" "git@github.com:" _)
        with (@None (string * string)) by (symmetry; miss Hc2).
      hit Hplain.
    + replace (GitManager.url_match "https://github.com/" "git@github.com:" _)
        with (@None (string * string)) by (symmetry; miss Hc2).
      replace (GitManager.url_match "https://gitlab.com/" "git@gitlab.com:" _)
        with (@None (string * string)) by (symmetry; miss Hc2).
      hit Hplain.
    + replace (GitManager.url_match "https://github.com/" "git@github.com:" _)
        with (@None (string * string)) by (symmetry; miss Hc2).
      replace (GitManager.url_match "https://gitlab.com/" "git@gitlab.com:" _)
        with (@None (string * string)) by (symmetry; miss Hc2).
      hit Hplain.
Qed.

Lemma gitlab_bitbucket_url_is_recognised_witness :
  GitManager.parseRepositoryUrl "git@bitbucket.org:acme/widgets.git"
  = {| host_type := bitbucket; host_owner := "acme"; host_repository := "widgets";
       baseUrl := "https://bitbucket.org";
       apiUrl := "https://api.bitbucket.org/2.0" |}.
Proof.
  exact (proj2 (proj2 (proj2 (proj1
           (gitlab_bitbucket_url_is_recognised "acme" "widgets"
              ltac:(discriminate) ltac:(discriminate)
              eq_refl eq_refl eq_refl eq_refl))))).
Defined.

(** The pattern is not anchored at the start of the URL: a GitLab URL
    whose owner segment embeds the GitHub SSH prefix is taken for GitHub,
    which is why X2 asks for colon-free names. *)
Example embedded_prefix_wins :
  host_type (GitManager.parseRepositoryUrl "https://gitlab.com/git@github.com:a/b")
  = github.
Proof. reflexivity. Qed.

(** The two shapes a parsed descriptor can have. *)
Lemma parse_shape (url : string) :
  (host_type (GitManager.parseRepositoryUrl url) = other
   ∧ host_owner (GitManager.parseRepositoryUrl url) = ""
   ∧ host_repository (GitManager.parseRepositoryUrl url) = ""
   ∧ apiUrl (GitManager.parseRepositoryUrl url) = "")
  ∨ (host_type (GitManager.parseRepositoryUrl url) ≠ other
     ∧ (host_owner (GitManager.parseRepositoryUrl url) ≠ ""
        ∧ host_repository (GitManager.parseRepositoryUrl url) ≠ ""
        ∧ JsString.has_slash (host_owner (GitManager.parseRepositoryUrl url)) = false
        ∧ JsString.has_slash (host_repository (GitManager.parseRepositoryUrl url))
          = false)
     ∧ apiUrl (GitManager.parseRepositoryUrl url)
       = PullRequestMonitor.getApiUrl
           (host_type (GitManager.parseRepositoryUrl url))).
Proof.
  unfold GitManager.parseRepositoryUrl.
  destruct (GitManager.url_match "https://github.com/" _ url) as [[o r]|] eqn:E1.
  { apply url_match_sound in E1 as (? & ? & ? & ?). right. simpl. by repeat split. }
  destruct (GitManager.url_match "https://gitlab.com/" _ url) as [[o r]|] eqn:E2.
  { apply url_match_sound in E2 as (? & ? & ? & ?). right. simpl. by repeat split. }
  destruct (GitManager.url_match "https://bitbucket.org/" _ url) as [[o r]|] eqn:E3.
  { apply url_match_sound in E3 as (? & ? & ? & ?). right. simpl. by repeat split. }
  left. simpl. by repeat split.
Qed.

(** X3. Whatever the URL, the descriptor [parseRepositoryUrl] builds is
    well formed: its API root is the one the monitor's own table gives for
    the host type; an unrecognised URL has empty owner and repository; a
    recognised one has a non-empty, slash-free owner and repository. *)
Theorem parsed_descriptor_is_well_formed (url : string) :
  apiUrl (GitManager.parseRepositoryUrl url)
  = PullRequestMonitor.getApiUrl (host_type (GitManager.parseRepositoryUrl url))
  ∧ (host_type (GitManager.parseRepositoryUrl url) = other →
     host_owner (GitManager.parseRepositoryUrl url) = ""
     ∧ host_repository (GitManager.parseRepositoryUrl url) = "")
  ∧ (host_type (GitManager.parseRepositoryUrl url) ≠ other →
     host_owner (GitManager.parseRepositoryUrl url) ≠ ""
     ∧ host_repository (GitManager.parseRepositoryUrl url) ≠ ""
     ∧ JsString.has_slash (host_owner (GitManager.parseRepositoryUrl url)) = false
     ∧ JsString.has_slash (host_repository (GitManager.parseRepositoryUrl url))
       = false).
Proof.
  destruct (parse_shape url) as [(Ht & Ho & Hr & Ha)|(Ht & Hwf & Ha)].
  - rewrite Ht, Ho, Hr, Ha. by repeat split.
  - split; [exact Ha|]. split; [by intros Hother|by intros _].
Qed.

End GitManagerProps.

(** ** Host queries *)

Module HostProps.

Import RepositoryHostAPI.

(** C10. Whatever the Bitbucket host answers (or fails to answer), every
    record the Bitbucket mapper returns has its draft flag [false]; the
    same holds at [getPullRequests] for a Bitbucket-typed host. *)
Theorem bitbucket_never_draft (http : Http) (hostInfo : RepositoryHostInfo)
    (branches : list string) :
  Forall (fun pr => isDraft pr = false)
         (getBitbucketPullRequests http hostInfo branches)
  ∧ (host_type hostInfo = bitbucket →
     Forall (fun pr => isDraft pr = false)
            (getPullRequests http hostInfo branches)).
Proof.
  assert (H : Forall (fun pr => isDraft pr = false)
                (getBitbucketPullRequests http hostInfo branches)).
  { unfold getBitbucketPullRequests.
    destruct (get_bitbucket http _) as [values|]; [|constructor].
    induction values as [|v values IH]; simpl; [constructor|].
    destruct (JsString.includes _ _); simpl; [constructor|]; done. }
  split; [exact H|].
  intros Hty. unfold getPullRequests. by rewrite Hty.
Qed.

Lemma bitbucket_never_draft_witness :
  getPullRequests (Fixtures.hosts [] [] [Fixtures.bbPullRequest 4 "d"])
                  Fixtures.bbHostInfo ["main"] ≠ []
  ∧ Forall (fun pr => isDraft pr = false)
           (getPullRequests (Fixtures.hosts [] [] [Fixtures.bbPullRequest 4 "d"])
                            Fixtures.bbHostInfo ["main"]).
Proof.
  split; [discriminate|].
  exact (proj2 (bitbucket_never_draft
                  (Fixtures.hosts [] [] [Fixtures.bbPullRequest 4 "d"])
                  Fixtures.bbHostInfo ["main"]) eq_refl).
Defined.

(** The other two mappers copy the host's own flag, so the constant is
    specific to the Bitbucket path. *)
Example github_draft_is_copied :
  map isDraft
      (getGitHubPullRequests
         (Fixtures.hosts
            [{| gh_number := 9; gh_title := "wip"; gh_html_url := "";
                gh_base_ref := "main"; gh_user_login := "dev";
                gh_created_at := ""; gh_updated_at := ""; gh_draft := true |}]
            [] [])
         Fixtures.bbHostInfo ["main"])
  = [true].
Proof. reflexivity. Qed.

(** *** Branch filtering *)

Lemma includes_elem xs x : JsString.includes xs x = true ↔ x ∈ xs.
Proof.
  unfold JsString.includes. rewrite existsb_exists. split.
  - intros (y & Hy & Heq). apply String.eqb_eq in Heq as ->.
    by apply list_elem_of_In.
  - intros Hx. exists x. split; [by apply list_elem_of_In|apply String.eqb_refl].
Qed.

(** Mapping after filtering keeps what the filter guarantees. *)
Lemma map_filter_Forall {A B : Type} (keep : A → bool) (f : A → B)
    (P : B → Prop) (data : list A) :
  (∀ a, keep a = true → P (f a)) →
  Forall P (map f (List.filter keep data)).
Proof.
  intros H. induction data as [|a data IH]; simpl; [constructor|].
  destruct (keep a) eqn:E; [|done]. simpl. constructor; [by apply H|done].
Qed.

Lemma getPullRequests_allowed http hostInfo branches :
  Forall (λ pr, branch pr ∈ branches ∧ repository pr = repo_label hostInfo)
         (getPullRequests http hostInfo branches).
Proof.
  unfold getPullRequests.
  destruct (host_type hostInfo); [| | |constructor].
  - unfold getGitHubPullRequests.
    destruct (get_github http _) as [data|]; [|constructor].
    apply map_filter_Forall. intros a Ha. split; [|done]. by apply includes_elem.
  - unfold getGitLabPullRequests.
    destruct (get_gitlab http _) as [data|]; [|constructor].
    apply map_filter_Forall. intros a Ha. split; [|done]. by apply includes_elem.
  - unfold getBitbucketPullRequests.
    destruct (get_bitbucket http _) as [data|]; [|constructor].
    apply map_filter_Forall. intros a Ha. split; [|done]. by apply includes_elem.
Qed.

(** X4. Whatever the host type and whatever the host answers, every
    record [getPullRequests] returns targets a branch of the allow-list
    and is labelled [owner/repository]; with an empty allow-list it
    returns nothing. *)
Theorem returned_requests_target_allowed_branches
    (http : Http) (hostInfo : RepositoryHostInfo) (branches : list string) :
  Forall (λ pr, branch pr ∈ branches
                ∧ repository pr
                  = host_owner hostInfo ++ "/" ++ host_repository hostInfo)
         (getPullRequests http hostInfo branches)
  ∧ getPullRequests http hostInfo [] = [].
Proof.
  split; [apply getPullRequests_allowed|].
  pose proof (getPullRequests_allowed http hostInfo []) as H.
  destruct (getPullRequests http hostInfo []) as [|pr prs]; [done|].
  apply Forall_cons in H as [[Hin _] _]. by apply elem_of_nil in Hin.
Qed.

End HostProps.

(** ** Poll, diff, notify *)

Module MonitorProps.

Import RepositoryHostAPI PullRequestMonitor Views.

Lemma findNew_empty_history current : findNewPullRequests [] current = current.
Proof. reflexivity. Qed.

Lemma findNew_filter lastKnown current :
  lastKnown ≠ [] →
  findNewPullRequests lastKnown current
  = filter (λ pr, id pr ∉ id <$> lastKnown) current.
Proof.
  intros Hne. unfold findNewPullRequests.
  destruct lastKnown as [|p ps]; [done|]. simpl Nat.eqb. cbv iota.
  generalize (p :: ps). intros l.
  induction current as [|c cs IH]; [done|].
  simpl. rewrite filter_cons, IH.
  destruct (decide (id c ∉ id <$> l)) as [Hn|Hn].
  - rewrite bool_decide_eq_false_2; [done|].
    intros Hin. apply Hn. by apply elem_of_list_to_set in Hin.
  - rewrite bool_decide_eq_true_2; [done|].
    apply elem_of_list_to_set. by apply dec_stable.
Qed.

(** C2. Against a non-empty history, the diff keeps exactly the current
    items whose id does not occur among the history's ids, in their
    original order. *)
Theorem findNew_exactly_unseen_ids (lastKnown current : list PullRequest) :
  lastKnown ≠ [] →
  findNewPullRequests lastKnown current
  = filter (λ pr, id pr ∉ id <$> lastKnown) current
  ∧ ∀ pr, pr ∈ findNewPullRequests lastKnown current
          ↔ pr ∈ current ∧ id pr ∉ id <$> lastKnown.
Proof.
  intros Hne. rewrite (findNew_filter _ _ Hne). split; [done|].
  intros pr. rewrite list_elem_of_filter. tauto.
Qed.

Lemma findNew_exactly_unseen_ids_witness :
  findNewPullRequests [Fixtures.pr 1 "a"; Fixtures.pr 2 "b"]
                      [Fixtures.pr 2 "b"; Fixtures.pr 3 "c"]
  = filter (λ pr, id pr ∉ id <$> [Fixtures.pr 1 "a"; Fixtures.pr 2 "b"])
           [Fixtures.pr 2 "b"; Fixtures.pr 3 "c"].
Proof.
  exact (proj1 (findNew_exactly_unseen_ids
                  [Fixtures.pr 1 "a"; Fixtures.pr 2 "b"]
                  [Fixtures.pr 2 "b"; Fixtures.pr 3 "c"]
                  ltac:(discriminate))).
Defined.

Example diff_of_12_and_23 :
  findNewPullRequests [Fixtures.pr 1 "a"; Fixtures.pr 2 "b"]
                      [Fixtures.pr 2 "b"; Fixtures.pr 3 "c"]
  = [Fixtures.pr 3 "c"].
Proof. vm_compute. reflexivity. Qed.

(** In a tick, a remote with a non-empty stored list is diffed against
    the ids of that list. *)
Lemma newOn_with_history m http r lastKnown :
  lastKnownPRs m !! remote_name r = Some lastKnown →
  lastKnown ≠ [] →
  newOn m http r
  = filter (λ pr, id pr ∉ id <$> lastKnown)
      (getPullRequests http (hostInfoOf r) (branches (config m))).
Proof.
  intros Hl Hne. unfold newOn. rewrite Hl. by apply findNew_filter.
Qed.

(** *** One loop iteration *)

Lemma checkRemote_skipped http remote acc :
  skipped remote = true → checkRemote http remote acc = acc.
Proof. intros H. destruct acc. unfold checkRemote. by rewrite H. Qed.

Lemma checkRemote_config http remote m shown :
  config (fst (checkRemote http remote (m, shown))) = config m.
Proof. unfold checkRemote. by destruct (skipped remote). Qed.

Lemma checkRemote_handle http remote m shown :
  pollingInterval (fst (checkRemote http remote (m, shown))) = pollingInterval m.
Proof. unfold checkRemote. by destruct (skipped remote). Qed.

Lemma checkRemote_history_other http remote m shown n :
  n ≠ remote_name remote →
  lastKnownPRs (fst (checkRemote http remote (m, shown))) !! n
  = lastKnownPRs m !! n.
Proof.
  intros Hn. unfold checkRemote. destruct (skipped remote); [done|].
  simpl. by rewrite lookup_insert_ne.
Qed.

Lemma checkRemote_history_own http remote m shown :
  skipped remote = false →
  lastKnownPRs (fst (checkRemote http remote (m, shown))) !! remote_name remote
  = Some (getPullRequests http (hostInfoOf remote) (branches (config m))).
Proof.
  intros Hs. unfold checkRemote. rewrite Hs. simpl. by rewrite lookup_insert_eq.
Qed.

Lemma checkRemote_shown http remote m shown :
  snd (checkRemote http remote (m, shown))
  = (shown ++ announced m http remote)%list.
Proof.
  unfold checkRemote, announced. fold (newOn m http remote).
  destruct (skipped remote); simpl; [by rewrite app_nil_r|].
  destruct (showNotifications (config m)); simpl.
  - destruct (newOn m http remote) as [|p [|p' ps]]; simpl;
      [by rewrite app_nil_r|done|done].
  - rewrite andb_false_r. by rewrite app_nil_r.
Qed.

(** Entries are added or replaced, never removed. *)
Lemma checkRemote_history_grows http remote m shown n :
  is_Some (lastKnownPRs m !! n) →
  is_Some (lastKnownPRs (fst (checkRemote http remote (m, shown))) !! n).
Proof.
  intros Hn. unfold checkRemote. destruct (skipped remote); [done|]. simpl.
  destruct (decide (remote_name remote = n)) as [->|Hne].
  - rewrite lookup_insert_eq. by eexists.
  - by rewrite lookup_insert_ne.
Qed.

(** *** The whole loop *)

Lemma checkRemotes_cons http r rs acc :
  checkRemotes http (r :: rs) acc = checkRemotes http rs (checkRemote http r acc).
Proof. reflexivity. Qed.

Lemma checkRemotes_config http rs m shown :
  config (fst (checkRemotes http rs (m, shown))) = config m.
Proof.
  revert m shown. induction rs as [|r rs IH]; intros m shown; [done|].
  rewrite checkRemotes_cons.
  destruct (checkRemote http r (m, shown)) as [m1 shown1] eqn:E.
  rewrite IH. by rewrite <- (checkRemote_config http r m shown), E.
Qed.

Lemma checkRemotes_handle http rs m shown :
  pollingInterval (fst (checkRemotes http rs (m, shown))) = pollingInterval m.
Proof.
  revert m shown. induction rs as [|r rs IH]; intros m shown; [done|].
  rewrite checkRemotes_cons.
  destruct (checkRemote http r (m, shown)) as [m1 shown1] eqn:E.
  rewrite IH. by rewrite <- (checkRemote_handle http r m shown), E.
Qed.

Lemma checkRemotes_history_other http rs m shown n :
  n ∉ remote_name <$> rs →
  lastKnownPRs (fst (checkRemotes http rs (m, shown))) !! n
  = lastKnownPRs m !! n.
Proof.
  revert m shown. induction rs as [|r rs IH]; intros m shown Hn; [done|].
  rewrite fmap_cons in Hn. apply not_elem_of_cons in Hn as [Hr Hrs].
  rewrite checkRemotes_cons.
  destruct (checkRemote http r (m, shown)) as [m1 shown1] eqn:E.
  rewrite (IH _ _ Hrs).
  by rewrite <- (checkRemote_history_other http r m shown n Hr), E.
Qed.

Lemma checkRemotes_history_grows http rs m shown n :
  is_Some (lastKnownPRs m !! n) →
  is_Some (lastKnownPRs (fst (checkRemotes http rs (m, shown))) !! n).
Proof.
  revert m shown. induction rs as [|r rs IH]; intros m shown Hn; [done|].
  rewrite checkRemotes_cons.
  destruct (checkRemote http r (m, shown)) as [m1 shown1] eqn:E.
  apply IH. pose proof (checkRemote_history_grows http r m shown n Hn) as H.
  by rewrite E in H.
Qed.

(** With distinct remote names, what a remote is diffed against is the
    history as it stood when the tick began. *)
Lemma newOn_after_other http r r' m shown :
  remote_name r' ≠ remote_name r →
  newOn (fst (checkRemote http r (m, shown))) http r' = newOn m http r'.
Proof.
  intros Hne. unfold newOn.
  by rewrite checkRemote_config, (checkRemote_history_other _ _ _ _ _ Hne).
Qed.

Lemma announced_after_other http r r' m shown :
  remote_name r' ≠ remote_name r →
  announced (fst (checkRemote http r (m, shown))) http r' = announced m http r'.
Proof.
  intros Hne. unfold announced.
  by rewrite checkRemote_config, (newOn_after_other _ _ _ _ _ Hne).
Qed.

Lemma checkRemotes_shown http rs m shown :
  NoDup (remote_name <$> rs) →
  snd (checkRemotes http rs (m, shown))
  = (shown ++ flat_map (announced m http) rs)%list.
Proof.
  revert m shown. induction rs as [|r rs IH]; intros m shown Hnd.
  { simpl. by rewrite app_nil_r. }
  rewrite fmap_cons in Hnd. apply NoDup_cons in Hnd as [Hr Hrs].
  rewrite checkRemotes_cons.
  destruct (checkRemote http r (m, shown)) as [m1 shown1] eqn:E.
  rewrite (IH _ _ Hrs).
  assert (Hm1 : m1 = fst (checkRemote http r (m, shown))) by by rewrite E.
  assert (Hs1 : shown1 = snd (checkRemote http r (m, shown))) by by rewrite E.
  rewrite Hs1, checkRemote_shown. simpl. rewrite <- app_assoc. f_equal. f_equal.
  clear IH Hrs E Hs1. induction rs as [|r' rs IH]; [done|].
  simpl. rewrite fmap_cons in Hr. apply not_elem_of_cons in Hr as [Hne Hr].
  rewrite (IH Hr). f_equal. rewrite Hm1. apply announced_after_other. congruence.
Qed.

Lemma checkRemotes_history_own http rs m shown r :
  NoDup (remote_name <$> rs) →
  r ∈ rs →
  skipped r = false →
  lastKnownPRs (fst (checkRemotes http rs (m, shown))) !! remote_name r
  = Some (getPullRequests http (hostInfoOf r) (branches (config m))).
Proof.
  revert m shown. induction rs as [|r0 rs IH]; intros m shown Hnd Hin Hs.
  { by apply elem_of_nil in Hin. }
  rewrite fmap_cons in Hnd. apply NoDup_cons in Hnd as [Hr0 Hrs].
  rewrite checkRemotes_cons.
  destruct (checkRemote http r0 (m, shown)) as [m1 shown1] eqn:E.
  assert (Hm1 : m1 = fst (checkRemote http r0 (m, shown))) by by rewrite E.
  apply elem_of_cons in Hin as [->|Hin].
  - rewrite (checkRemotes_history_other _ _ _ _ _ Hr0), Hm1.
    by apply checkRemote_history_own.
  - rewrite (IH _ _ Hrs Hin Hs). by rewrite Hm1, checkRemote_config.
Qed.

(** *** One tick *)

Lemma tick_unfold w http s :
  checkForNewPullRequests w http s
  = match fst (GitManager.getRepositoryInfo w (gitManager s)) with
    | Some info =>
        ({| gitManager := snd (GitManager.getRepositoryInfo w (gitManager s));
            timers := timers s;
            monitor := fst (checkRemotes http (remotes info) (monitor s, [])) |},
         snd (checkRemotes http (remotes info) (monitor s, [])))
    | None =>
        ({| gitManager := snd (GitManager.getRepositoryInfo w (gitManager s));
            timers := timers s;
            monitor := monitor s |}, [])
    end.
Proof.
  unfold checkForNewPullRequests.
  destruct (GitManager.getRepositoryInfo w (gitManager s)) as [[info|] gm'];
    cbn [fst snd]; [|done].
  destruct (remotes info) as [|r rs]; [reflexivity|].
  by destruct (checkRemotes http (r :: rs) (monitor s, [])).
Qed.

Lemma tick_timers w http s :
  timers (fst (checkForNewPullRequests w http s)) = timers s.
Proof.
  rewrite tick_unfold.
  by destruct (fst (GitManager.getRepositoryInfo w (gitManager s))).
Qed.

Lemma tick_config w http s :
  config (monitor (fst (checkForNewPullRequests w http s))) = config (monitor s).
Proof.
  rewrite tick_unfold.
  destruct (fst (GitManager.getRepositoryInfo w (gitManager s))); [|done].
  apply checkRemotes_config.
Qed.

Lemma tick_handle w http s :
  pollingInterval (monitor (fst (checkForNewPullRequests w http s)))
  = pollingInterval (monitor s).
Proof.
  rewrite tick_unfold.
  destruct (fst (GitManager.getRepositoryInfo w (gitManager s))); [|done].
  apply checkRemotes_handle.
Qed.

Lemma tick_history_grows w http s n :
  is_Some (lastKnownPRs (monitor s) !! n) →
  is_Some (lastKnownPRs (monitor (fst (checkForNewPullRequests w http s))) !! n).
Proof.
  intros Hn. rewrite tick_unfold.
  destruct (fst (GitManager.getRepositoryInfo w (gitManager s))); [|done].
  by apply checkRemotes_history_grows.
Qed.

Lemma announced_first_poll m http r :
  skipped r = false →
  showNotifications (config m) = true →
  lastKnownPRs m !! remote_name r = None →
  getPullRequests http (hostInfoOf r) (branches (config m)) ≠ [] →
  announced m http r
  = [showNewPullRequestNotifications
       (getPullRequests http (hostInfoOf r) (branches (config m)))].
Proof.
  intros Hs Hshow Hnone Hne. unfold announced, newOn.
  rewrite Hs, Hshow, Hnone. simpl. rewrite findNew_empty_history.
  by destruct (getPullRequests http (hostInfoOf r) (branches (config m)))
    as [|p [|p' ps]].
Qed.

(** C1, as the code has it. On a remote without a history entry, a tick
    that fetches a non-empty list finds every fetched item new, announces
    them when notifications are enabled, and stores the fetched list as
    that remote's history. *)
Theorem first_poll_reports_everything
    (w : GitManager.Git) (http : Http) (s : Session)
    (info : GitRepositoryInfo) (r : GitRemote) :
  fst (GitManager.getRepositoryInfo w (gitManager s)) = Some info →
  NoDup (remote_name <$> remotes info) →
  r ∈ remotes info →
  skipped r = false →
  lastKnownPRs (monitor s) !! remote_name r = None →
  getPullRequests http (hostInfoOf r) (branches (config (monitor s))) ≠ [] →
  newOn (monitor s) http r
  = getPullRequests http (hostInfoOf r) (branches (config (monitor s)))
  ∧ (showNotifications (config (monitor s)) = true →
     showNewPullRequestNotifications
       (getPullRequests http (hostInfoOf r) (branches (config (monitor s))))
     ∈ snd (checkForNewPullRequests w http s))
  ∧ lastKnownPRs (monitor (fst (checkForNewPullRequests w http s)))
      !! remote_name r
    = Some (getPullRequests http (hostInfoOf r) (branches (config (monitor s)))).
Proof.
  intros Hinfo Hnd Hin Hs Hnone Hne. split; [|split].
  - unfold newOn. by rewrite Hnone.
  - intros Hshow. rewrite tick_unfold, Hinfo. cbn [snd].
    rewrite (checkRemotes_shown _ _ _ _ Hnd). simpl app.
    apply list_elem_of_In, in_flat_map. exists r. split.
    + by apply list_elem_of_In.
    + rewrite (announced_first_poll _ _ _ Hs Hshow Hnone Hne). by left.
  - rewrite tick_unfold, Hinfo. cbn [fst monitor].
    by apply checkRemotes_history_own.
Qed.

Lemma first_poll_reports_everything_witness :
  snd (checkForNewPullRequests
         (Fixtures.workingCopy [Fixtures.origin])
         (Fixtures.hosts [Fixtures.ghPull 1 "a"; Fixtures.ghPull 2 "b";
                          Fixtures.ghPull 3 "c"] [] [])
         Fixtures.session)
  ≠ []
  ∧ lastKnownPRs
      (monitor (fst (checkForNewPullRequests
                       (Fixtures.workingCopy [Fixtures.origin])
                       (Fixtures.hosts [Fixtures.ghPull 1 "a"; Fixtures.ghPull 2 "b";
                                        Fixtures.ghPull 3 "c"] [] [])
                       Fixtures.session)))
      !! "origin"
    = Some [Fixtures.pr 1 "a"; Fixtures.pr 2 "b"; Fixtures.pr 3 "c"].
Proof.
  destruct (first_poll_reports_everything
              (Fixtures.workingCopy [Fixtures.origin])
              (Fixtures.hosts [Fixtures.ghPull 1 "a"; Fixtures.ghPull 2 "b";
                               Fixtures.ghPull 3 "c"] [] [])
              Fixtures.session _ (GitManager.parseRemote Fixtures.origin)
              eq_refl
              ltac:(apply NoDup_singleton)
              ltac:(apply list_elem_of_singleton; reflexivity)
              eq_refl eq_refl ltac:(discriminate))
    as (_ & Hshown & Hstored).
  split.
  - intros Hnil. specialize (Hshown eq_refl). rewrite Hnil in Hshown.
    by apply elem_of_nil in Hshown.
  - exact Hstored.
Defined.

(** C1, as written, fails: with no history for [origin], a tick that
    fetches three open requests announces all three. *)
Lemma first_poll_is_not_silent :
  ¬ (∀ (w : GitManager.Git) (http : Http) (s : Session)
       (info : GitRepositoryInfo) (r : GitRemote),
       fst (GitManager.getRepositoryInfo w (gitManager s)) = Some info →
       remotes info = [r] →
       skipped r = false →
       lastKnownPRs (monitor s) !! remote_name r = None →
       getPullRequests http (hostInfoOf r) (branches (config (monitor s))) ≠ [] →
       newOn (monitor s) http r = []
       ∧ snd (checkForNewPullRequests w http s) = []
       ∧ lastKnownPRs (monitor (fst (checkForNewPullRequests w http s)))
           !! remote_name r
         = Some (getPullRequests http (hostInfoOf r)
                   (branches (config (monitor s))))).
Proof.
  intros H.
  destruct (H (Fixtures.workingCopy [Fixtures.origin])
              (Fixtures.hosts [Fixtures.ghPull 1 "a"; Fixtures.ghPull 2 "b";
                               Fixtures.ghPull 3 "c"] [] [])
              Fixtures.session _ (GitManager.parseRemote Fixtures.origin)
              eq_refl eq_refl eq_refl eq_refl ltac:(discriminate))
    as (_ & Hshown & _).
  vm_compute in Hshown. discriminate.
Qed.

Lemma announced_shape m http r n :
  n ∈ announced m http r →
  (∃ pr, newOn m http r = [pr] ∧ n = NewPullRequest pr
         ∧ notification_action n = "View PR")
  ∨ ((1 < length (newOn m http r))%nat ∧ n = NewPullRequests (newOn m http r)
     ∧ notification_action n = "View All").
Proof.
  unfold announced.
  destruct (skipped r || negb (showNotifications (config m))).
  { intros H. by apply elem_of_nil in H. }
  destruct (newOn m http r) as [|p [|p' ps]]; intros H.
  - by apply elem_of_nil in H.
  - apply list_elem_of_singleton in H as ->. left. by exists p.
  - apply list_elem_of_singleton in H as ->. right. simpl. repeat split. lia.
Qed.

(** C4, as the code has it. Notifications are raised remote by remote
    inside the loop: a tick emits, in remote order, one notification for
    each queried remote on which something new was found (none when
    notifications are disabled) - the single-item one with its direct-open
    action when that remote has exactly one new item, the count summary
    with its view-all action when it has more. *)
Theorem notifications_are_per_remote
    (w : GitManager.Git) (http : Http) (s : Session)
    (info : GitRepositoryInfo) :
  fst (GitManager.getRepositoryInfo w (gitManager s)) = Some info →
  NoDup (remote_name <$> remotes info) →
  snd (checkForNewPullRequests w http s)
  = flat_map (announced (monitor s) http) (remotes info)
  ∧ ∀ n, n ∈ snd (checkForNewPullRequests w http s) →
      ∃ r, r ∈ remotes info ∧ skipped r = false
           ∧ showNotifications (config (monitor s)) = true
           ∧ ((∃ pr, newOn (monitor s) http r = [pr] ∧ n = NewPullRequest pr
                     ∧ notification_action n = "View PR")
              ∨ ((1 < length (newOn (monitor s) http r))%nat
                 ∧ n = NewPullRequests (newOn (monitor s) http r)
                 ∧ notification_action n = "View All")).
Proof.
  intros Hinfo Hnd.
  assert (Heq : snd (checkForNewPullRequests w http s)
                = flat_map (announced (monitor s) http) (remotes info)).
  { rewrite tick_unfold, Hinfo. cbn [snd].
    by rewrite (checkRemotes_shown _ _ _ _ Hnd). }
  split; [exact Heq|].
  intros n Hn. rewrite Heq in Hn.
  apply list_elem_of_In, in_flat_map in Hn as (r & Hr & Hn).
  apply list_elem_of_In in Hr, Hn.
  exists r. split; [done|].
  assert (Hgate : skipped r = false ∧ showNotifications (config (monitor s)) = true).
  { unfold announced in Hn.
    destruct (skipped r); [by apply elem_of_nil in Hn|].
    destruct (showNotifications (config (monitor s)));
      [done|by apply elem_of_nil in Hn]. }
  destruct Hgate as [Hs Hshow]. repeat split; [done|done|].
  by apply announced_shape.
Qed.

Lemma notifications_are_per_remote_witness :
  snd (checkForNewPullRequests
         (Fixtures.workingCopy [Fixtures.origin; Fixtures.upstream])
         (Fixtures.hosts [Fixtures.ghPull 1 "a"] [Fixtures.glMergeRequest 7 "z"] [])
         Fixtures.session)
  = flat_map (announced (monitor Fixtures.session)
                (Fixtures.hosts [Fixtures.ghPull 1 "a"]
                   [Fixtures.glMergeRequest 7 "z"] []))
      [GitManager.parseRemote Fixtures.origin;
       GitManager.parseRemote Fixtures.upstream].
Proof.
  refine (proj1 (notifications_are_per_remote
                   (Fixtures.workingCopy [Fixtures.origin; Fixtures.upstream])
                   (Fixtures.hosts [Fixtures.ghPull 1 "a"]
                      [Fixtures.glMergeRequest 7 "z"] [])
                   Fixtures.session _ eq_refl _)).
  vm_compute. apply NoDup_cons. split.
  - intros Hin. apply list_elem_of_singleton in Hin. discriminate.
  - apply NoDup_singleton.
Defined.

(** C4, as written, fails: one new request on each of two remotes gives
    two notifications in the same tick, not one summary. *)
Lemma notifications_not_aggregated :
  ¬ (∀ (w : GitManager.Git) (http : Http) (s : Session),
       showNotifications (config (monitor s)) = true →
       snd (checkForNewPullRequests w http s) ≠ [] →
       ∃ n, snd (checkForNewPullRequests w http s) = [n]).
Proof.
  intros H.
  destruct (H (Fixtures.workingCopy [Fixtures.origin; Fixtures.upstream])
              (Fixtures.hosts [Fixtures.ghPull 1 "a"]
                 [Fixtures.glMergeRequest 7 "z"] [])
              Fixtures.session eq_refl ltac:(discriminate)) as [n Hn].
  vm_compute in Hn. discriminate.
Qed.

Example two_remotes_two_notifications :
  map notification_message
    (snd (checkForNewPullRequests
            (Fixtures.workingCopy [Fixtures.origin; Fixtures.upstream])
            (Fixtures.hosts [Fixtures.ghPull 1 "a"]
               [Fixtures.glMergeRequest 7 "z"] [])
            Fixtures.session))
  = ["New pull request: a"; "New pull request: z"].
Proof. vm_compute. reflexivity. Qed.

Example three_new_on_one_remote :
  map notification_message
    (snd (checkForNewPullRequests
            (Fixtures.workingCopy [Fixtures.origin])
            (Fixtures.hosts [Fixtures.ghPull 1 "a"; Fixtures.ghPull 2 "b";
                             Fixtures.ghPull 3 "c"] [] [])
            Fixtures.session))
  = ["3 new pull requests found"].
Proof. vm_compute. reflexivity. Qed.

(** *** On-demand listing *)

(** C5. [getCurrentPullRequests] returns the monitor (history, settings,
    timer handle) and the timer queue as it found them; and once a tick
    has run, a listing between that tick and the next leaves the whole
    session as it was, so the next tick diffs, announces and stores
    exactly what it would have without the listing. *)
Theorem getCurrentPullRequests_does_not_perturb :
  (∀ (w : GitManager.Git) (http : Http) (s : Session),
      monitor (fst (getCurrentPullRequests w http s)) = monitor s
      ∧ timers (fst (getCurrentPullRequests w http s)) = timers s
      ∧ ∀ h r, newOn (monitor (fst (getCurrentPullRequests w http s))) h r
               = newOn (monitor s) h r)
  ∧ (∀ (w0 w1 w2 : GitManager.Git) (http0 http1 http2 : Http) (s : Session),
       checkForNewPullRequests w2 http2
         (fst (getCurrentPullRequests w1 http1
                 (fst (checkForNewPullRequests w0 http0 s))))
       = checkForNewPullRequests w2 http2
           (fst (checkForNewPullRequests w0 http0 s))).
Proof.
  assert (Hframe : ∀ w http s,
             fst (getCurrentPullRequests w http s)
             = {| gitManager := snd (GitManager.getRepositoryInfo w (gitManager s));
                  timers := timers s; monitor := monitor s |}).
  { intros w http s. unfold getCurrentPullRequests.
    destruct (GitManager.getRepositoryInfo w (gitManager s)) as [[info|] gm'];
      [|done].
    by destruct (remotes info). }
  split.
  - intros w http s. rewrite Hframe. by repeat split.
  - intros w0 w1 w2 http0 http1 http2 s. f_equal.
    rewrite Hframe.
    set (s1 := fst (checkForNewPullRequests w0 http0 s)).
    assert (Hgm : gitManager s1
                  = snd (GitManager.getRepositoryInfo w0 (gitManager s))).
    { unfold s1. rewrite tick_unfold.
      by destruct (fst (GitManager.getRepositoryInfo w0 (gitManager s))). }
    rewrite Hgm, GitManagerProps.getRepositoryInfo_settles, <- Hgm.
    by destruct s1.
Qed.

(** *** Timer handling *)

Lemma startMonitoring_enabled w http s :
  enabled (config (monitor s)) = true →
  timers (fst (startMonitoring w http s))
  = {| Timers.next := S (Timers.next (timers s));
       Timers.active :=
         <[Timers.next (timers s) := GitTypes.pollingInterval (config (monitor s))]>
           (Timers.active (timers s)) |}
  ∧ pollingInterval (monitor (fst (startMonitoring w http s)))
    = Some (Timers.next (timers s))
  ∧ config (monitor (fst (startMonitoring w http s))) = config (monitor s).
Proof.
  intros Hen. unfold startMonitoring. rewrite Hen. cbn [negb].
  pose proof (tick_timers w http s) as Ht.
  pose proof (tick_config w http s) as Hc.
  destruct (checkForNewPullRequests w http s) as [s1 shown].
  cbn [fst] in Ht, Hc. unfold Timers.setInterval. cbn [fst timers monitor config pollingInterval].
  by rewrite Ht, Hc.
Qed.

Lemma startMonitoring_disabled w http s :
  enabled (config (monitor s)) = false → startMonitoring w http s = (s, []).
Proof. intros Hen. unfold startMonitoring. by rewrite Hen. Qed.

(** Reconfiguring an enabled monitor installs a further timer next to
    every timer that was already running. *)
Lemma updateConfig_enabled_adds_timer w http newConfig s :
  enabled newConfig = true →
  Timers.active (timers (fst (updateConfig w http newConfig s)))
  = <[Timers.next (timers s) := GitTypes.pollingInterval newConfig]>
      (Timers.active (timers s)).
Proof.
  intros Hen. unfold updateConfig. cbn [monitor config]. rewrite Hen.
  edestruct startMonitoring_enabled as (-> & _ & _); [exact Hen|]. done.
Qed.

(** With handles issued in sequence, the timer that was running before
    is still running afterwards, next to the new one. *)
Lemma updateConfig_old_timer_survives w http newConfig s h delay :
  Timers.wf (timers s) →
  enabled newConfig = true →
  pollingInterval (monitor s) = Some h →
  Timers.active (timers s) !! h = Some delay →
  Timers.active (timers (fst (updateConfig w http newConfig s))) !! h = Some delay
  ∧ Timers.active (timers (fst (updateConfig w http newConfig s)))
      !! Timers.next (timers s)
    = Some (GitTypes.pollingInterval newConfig)
  ∧ h ≠ Timers.next (timers s).
Proof.
  intros Hwf Hen _ Hh.
  assert (Hlt : h < Timers.next (timers s)) by (apply Hwf; by eexists).
  rewrite (updateConfig_enabled_adds_timer _ _ _ _ Hen).
  rewrite lookup_insert_ne by lia. rewrite lookup_insert_eq. repeat split; [done|lia].
Qed.

(** No history entry is dropped by a reconfiguration. *)
Lemma updateConfig_keeps_history w http newConfig s n :
  is_Some (lastKnownPRs (monitor s) !! n) →
  is_Some (lastKnownPRs (monitor (fst (updateConfig w http newConfig s))) !! n).
Proof.
  intros Hn. unfold updateConfig. cbn [monitor config].
  destruct (enabled newConfig) eqn:Hen.
  - unfold startMonitoring. cbn [monitor config]. rewrite Hen. cbn [negb].
    match goal with
    | |- context [checkForNewPullRequests w http ?s0] =>
        pose proof (tick_history_grows w http s0 n Hn) as Hg;
        destruct (checkForNewPullRequests w http s0) as [s1 shown]
    end.
    exact Hg.
  - cbn [fst]. unfold stopMonitoring. cbn [monitor pollingInterval].
    by destruct (pollingInterval (monitor s)).
Qed.

(** C6, evaluated. A monitor that is already polling (timer 0, every
    300 000 ms) is reconfigured with an enabled configuration: timer 0 is
    still running next to the new timer 1, the monitor only remembers
    timer 1, and neither [stopMonitoring] nor [dispose] can reach timer 0
    any more. The history entry stored by the first check is still there. *)
Theorem updateConfig_leaves_old_timer_running :
  let w := Fixtures.workingCopy [Fixtures.origin] in
  let http := Fixtures.hosts [Fixtures.ghPull 1 "a"] [] [] in
  let s1 := fst (startMonitoring w http Fixtures.session) in
  let s2 := fst (updateConfig w http
                   (Extension.getGitConfig (Fixtures.withInterval 120000)) s1) in
  (pollingInterval (monitor s1) = Some 0%nat
   ∧ map_to_list (Timers.active (timers s1)) = [(0%nat, 300000%Z)])
  ∧ (pollingInterval (monitor s2) = Some 1%nat
     ∧ Timers.active (timers s2) !! 0%nat = Some 300000%Z
     ∧ Timers.active (timers s2) !! 1%nat = Some 120000%Z
     ∧ size (Timers.active (timers s2)) = 2%nat)
  ∧ Timers.active (timers (stopMonitoring s2)) !! 0%nat = Some 300000%Z
  ∧ Timers.active (timers (dispose s2)) !! 0%nat = Some 300000%Z
  ∧ lastKnownPRs (monitor s2) !! "origin" = Some [Fixtures.pr 1 "a"].
Proof. vm_compute. repeat split. Qed.

(** C8, as the code has it. The delay the watcher passes to
    [setInterval] for its recurring timer is the configured value itself
    (300 000 when the setting is unset); nothing in between clamps it, so
    for a configured value within 60 000..1 800 000 - and only for
    such - the delay passed is the value clamped to that range. *)
Theorem polling_interval_is_used_as_configured
    (c : Extension.GitSettings) (gm : GitManager.t) (q : Timers.t)
    (w : GitManager.Git) (http : Http) :
  enabled (Extension.getGitConfig c) = true →
  pollingInterval
    (monitor (fst (startMonitoring w http (create gm q (Extension.getGitConfig c)))))
  = Some (Timers.next q)
  ∧ Timers.active
      (timers (fst (startMonitoring w http (create gm q (Extension.getGitConfig c)))))
      !! Timers.next q
    = Some (Extension.get (Extension.set_pollingInterval c) 300000%Z)
  ∧ ((60000 ≤ Extension.get (Extension.set_pollingInterval c) 300000
      ≤ 1800000)%Z →
     Timers.active
       (timers (fst (startMonitoring w http (create gm q (Extension.getGitConfig c)))))
       !! Timers.next q
     = Some (Z.max 60000
               (Z.min 1800000
                  (Extension.get (Extension.set_pollingInterval c) 300000)))%Z).
Proof.
  intros Hen.
  destruct (startMonitoring_enabled w http
              (create gm q (Extension.getGitConfig c)) Hen) as (Ht & Hh & _).
  rewrite Ht, Hh. cbn [Timers.active create timers monitor config].
  rewrite lookup_insert_eq. repeat split.
  intros Hrange. f_equal. cbn [GitTypes.pollingInterval Extension.getGitConfig]. lia.
Qed.

Lemma polling_interval_is_used_as_configured_witness :
  Timers.active
    (timers (fst (startMonitoring (Fixtures.workingCopy []) (Fixtures.hosts [] [] [])
                    (create Fixtures.manager Timers.empty
                       (Extension.getGitConfig (Fixtures.withInterval 90000))))))
    !! 0%nat
  = Some 90000%Z.
Proof.
  exact (proj1 (proj2 (polling_interval_is_used_as_configured
                         (Fixtures.withInterval 90000) Fixtures.manager
                         Timers.empty (Fixtures.workingCopy [])
                         (Fixtures.hosts [] [] []) eq_refl))).
Defined.

(** C8, as written, fails: with a configured interval of one second the
    timer is created with a delay of 1000 ms, not of 60 000 ms. *)
Lemma polling_interval_is_not_clamped :
  ¬ (∀ (c : Extension.GitSettings) (gm : GitManager.t) (q : Timers.t)
       (w : GitManager.Git) (http : Http),
       enabled (Extension.getGitConfig c) = true →
       Timers.active
         (timers (fst (startMonitoring w http
                         (create gm q (Extension.getGitConfig c)))))
         !! Timers.next q
       = Some (Z.max 60000
                 (Z.min 1800000
                    (Extension.get (Extension.set_pollingInterval c) 300000)))%Z).
Proof.
  intros H.
  specialize (H (Fixtures.withInterval 1000) Fixtures.manager Timers.empty
                (Fixtures.workingCopy []) (Fixtures.hosts [] [] []) eq_refl).
  vm_compute in H. discriminate.
Qed.

(** *** Remotes as the repository snapshot delivers them *)

(** X5. A remote built by [parseRemote] is skipped by the monitor exactly
    when its host type is [other]; and the descriptor the monitor rebuilds
    for it names the same host type, owner, repository and API root as the
    one the URL parser produced. *)
Theorem parsed_remote_is_skipped_iff_other (raw : GitManager.RemoteWithRefs) :
  (skipped (GitManager.parseRemote raw) = true
   ↔ remote_type (GitManager.parseRemote raw) = other)
  ∧ host_type (hostInfoOf (GitManager.parseRemote raw))
    = host_type (GitManager.parseRepositoryUrl
                   (remote_url (GitManager.parseRemote raw)))
  ∧ host_owner (hostInfoOf (GitManager.parseRemote raw))
    = host_owner (GitManager.parseRepositoryUrl
                    (remote_url (GitManager.parseRemote raw)))
  ∧ host_repository (hostInfoOf (GitManager.parseRemote raw))
    = host_repository (GitManager.parseRepositoryUrl
                         (remote_url (GitManager.parseRemote raw)))
  ∧ apiUrl (hostInfoOf (GitManager.parseRemote raw))
    = apiUrl (GitManager.parseRepositoryUrl
                (remote_url (GitManager.parseRemote raw))).
Proof.
  unfold GitManager.parseRemote.
  set (u := JsString.or_else (GitManager.rr_fetch raw)
              (JsString.or_else (GitManager.rr_push raw) "")).
  unfold skipped, missing, hostInfoOf. simpl.
  destruct (GitManagerProps.parse_shape u) as [(Ht & Ho & Hr & Ha)|(Ht & Hwf & Ha)].
  - rewrite Ht, Ha. by repeat split.
  - destruct Hwf as (Ho & Hr & _). apply String.eqb_neq in Ho, Hr.
    unfold JsString.truthy. rewrite Ho, Hr, Ha. repeat split; try done.
    destruct (host_type (GitManager.parseRepositoryUrl u)); done.
Qed.

(** *** What a tick can announce *)

Lemma findNew_subset lastKnown current pr :
  pr ∈ findNewPullRequests lastKnown current → pr ∈ current.
Proof.
  unfold findNewPullRequests. destruct (Nat.eqb _ 0); [done|].
  intros H. apply list_elem_of_In, filter_In in H as [H _].
  by apply list_elem_of_In.
Qed.

Lemma requestsOf_shown newPRs :
  requestsOf (showNewPullRequestNotifications newPRs) = newPRs.
Proof. by destruct newPRs as [|p [|p' ps]]. Qed.

Lemma checkRemotes_shown_satisfy http rs m shown (P : PullRequest → Prop) :
  (∀ r pr, r ∈ rs → skipped r = false →
           pr ∈ getPullRequests http (hostInfoOf r) (branches (config m)) → P pr) →
  (∀ n pr, n ∈ shown → pr ∈ requestsOf n → P pr) →
  ∀ n pr, n ∈ snd (checkRemotes http rs (m, shown)) → pr ∈ requestsOf n → P pr.
Proof.
  revert m shown. induction rs as [|r rs IH]; intros m shown Hfetch Hshown; [done|].
  rewrite checkRemotes_cons.
  destruct (checkRemote http r (m, shown)) as [m1 shown1] eqn:E.
  assert (Hm1 : config m1 = config m).
  { by rewrite <- (checkRemote_config http r m shown), E. }
  apply IH.
  - intros r' pr Hr'. rewrite Hm1. apply Hfetch. by right.
  - intros n pr Hn Hpr.
    assert (Hs1 : shown1 = snd (checkRemote http r (m, shown))) by by rewrite E.
    rewrite Hs1 in Hn. clear E Hs1. unfold checkRemote in Hn.
    destruct (skipped r) eqn:Hskip; [by apply (Hshown n)|]. cbn [snd] in Hn.
    destruct (_ && _).
    + apply elem_of_app in Hn as [Hn|Hn]; [by apply (Hshown n)|].
      apply list_elem_of_singleton in Hn as ->.
      rewrite requestsOf_shown in Hpr. apply findNew_subset in Hpr.
      apply (Hfetch r); [by left|done|done].
    + by apply (Hshown n).
Qed.

(** X6. Every request a tick announces was fetched in that tick from a
    remote that is not skipped, and targets a branch of the configured
    allow-list. *)
Theorem announced_requests_are_fetched_and_allowed
    (w : GitManager.Git) (http : Http) (s : Session)
    (n : Notification) (pr : PullRequest) :
  n ∈ snd (checkForNewPullRequests w http s) →
  pr ∈ requestsOf n →
  branch pr ∈ branches (config (monitor s))
  ∧ ∃ info r,
      fst (GitManager.getRepositoryInfo w (gitManager s)) = Some info
      ∧ r ∈ remotes info ∧ skipped r = false
      ∧ pr ∈ getPullRequests http (hostInfoOf r) (branches (config (monitor s))).
Proof.
  rewrite tick_unfold.
  destruct (fst (GitManager.getRepositoryInfo w (gitManager s))) as [info|] eqn:Hinfo.
  2: { intros Hn. by apply elem_of_nil in Hn. }
  cbn [snd]. intros Hn Hpr.
  assert (Hex : ∃ r, r ∈ remotes info ∧ skipped r = false
                     ∧ pr ∈ getPullRequests http (hostInfoOf r)
                              (branches (config (monitor s)))).
  { revert n pr Hn Hpr.
    apply (checkRemotes_shown_satisfy http (remotes info) (monitor s) []).
    - intros r pr Hr Hs Hpr. by exists r.
    - intros n pr Hn. by apply elem_of_nil in Hn. }
  destruct Hex as (r & Hr & Hs & Hfetch). split.
  - pose proof (HostProps.getPullRequests_allowed http (hostInfoOf r)
                  (branches (config (monitor s)))) as Hall.
    rewrite Forall_forall in Hall. by apply (Hall pr).
  - by exists info, r.
Qed.

Lemma announced_requests_are_fetched_and_allowed_witness :
  branch (Fixtures.pr 1 "a")
  ∈ branches (config (monitor Fixtures.session)).
Proof.
  refine (proj1 (announced_requests_are_fetched_and_allowed
                   (Fixtures.workingCopy [Fixtures.origin])
                   (Fixtures.hosts [Fixtures.ghPull 1 "a"] [] [])
                   Fixtures.session
                   (NewPullRequest (Fixtures.pr 1 "a")) (Fixtures.pr 1 "a") _ _)).
  - vm_compute. apply list_elem_of_singleton. reflexivity.
  - apply list_elem_of_singleton. reflexivity.
Defined.

(** *** Silence *)

Lemma checkRemotes_silent http rs m shown :
  showNotifications (config m) = false →
  snd (checkRemotes http rs (m, shown)) = shown.
Proof.
  revert m shown. induction rs as [|r rs IH]; intros m shown Hoff; [done|].
  rewrite checkRemotes_cons.
  destruct (checkRemote http r (m, shown)) as [m1 shown1] eqn:E.
  assert (Hm1 : config m1 = config m).
  { by rewrite <- (checkRemote_config http r m shown), E. }
  rewrite IH by by rewrite Hm1.
  assert (Hs1 : shown1 = snd (checkRemote http r (m, shown))) by by rewrite E.
  rewrite Hs1. unfold checkRemote. destruct (skipped r); [done|].
  cbn [snd]. by rewrite Hoff, andb_false_r.
Qed.

Lemma findNew_all_seen lastKnown current :
  lastKnown ≠ [] →
  (∀ pr, pr ∈ current → id pr ∈ id <$> lastKnown) →
  findNewPullRequests lastKnown current = [].
Proof.
  intros Hne Hseen. rewrite (findNew_filter _ _ Hne).
  induction current as [|c cs IH]; [done|].
  rewrite filter_cons. destruct (decide (id c ∉ id <$> lastKnown)) as [Hn|_].
  - destruct Hn. apply Hseen. by left.
  - apply IH. intros pr Hpr. apply Hseen. by right.
Qed.

Lemma findNew_same_ids lastKnown current :
  id <$> lastKnown = id <$> current →
  findNewPullRequests lastKnown current = [].
Proof.
  intros Hids. destruct lastKnown as [|p ps].
  - by destruct current.
  - apply findNew_all_seen; [done|]. intros pr Hpr. rewrite Hids.
    by apply list_elem_of_fmap_2.
Qed.

Lemma getRepositoryInfo_returns_stored w w' gm info :
  fst (GitManager.getRepositoryInfo w gm) = Some info →
  fst (GitManager.getRepositoryInfo w' (snd (GitManager.getRepositoryInfo w gm)))
  = Some info.
Proof.
  unfold GitManager.getRepositoryInfo.
  destruct (GitManager.repositoryInfo gm) as [i|] eqn:Hi.
  - simpl. by rewrite Hi.
  - unfold GitManager.refreshRepositoryInfo.
    destruct (GitManager.git gm); simpl; [|done]. by intros [= <-].
Qed.

Lemma tick_gitManager w http s :
  gitManager (fst (checkForNewPullRequests w http s))
  = snd (GitManager.getRepositoryInfo w (gitManager s)).
Proof.
  rewrite tick_unfold.
  by destruct (fst (GitManager.getRepositoryInfo w (gitManager s))).
Qed.

Lemma tick_monitor w http s info :
  fst (GitManager.getRepositoryInfo w (gitManager s)) = Some info →
  monitor (fst (checkForNewPullRequests w http s))
  = fst (checkRemotes http (remotes info) (monitor s, [])).
Proof. intros Hinfo. by rewrite tick_unfold, Hinfo. Qed.

Lemma flat_map_all_nil {A B : Type} (f : A → list B) (l : list A) :
  (∀ a, a ∈ l → f a = []) → flat_map f l = [].
Proof.
  induction l as [|a l IH]; intros H; [done|]. simpl.
  rewrite (H a) by by left. apply IH. intros b Hb. apply H. by right.
Qed.

(** X7. A tick is followed by another one in which every queried remote
    answers with requests of the same ids as before (titles, authors,
    dates and the like may all have changed): the second tick announces
    nothing, whatever the working copy looks like by then. In particular
    an unchanged answer is never announced twice. *)
Theorem same_ids_are_not_reannounced
    (w w' : GitManager.Git) (http http' : Http) (s : Session)
    (info : GitRepositoryInfo) :
  fst (GitManager.getRepositoryInfo w (gitManager s)) = Some info →
  NoDup (remote_name <$> remotes info) →
  (∀ r, r ∈ remotes info → skipped r = false →
        id <$> getPullRequests http (hostInfoOf r) (branches (config (monitor s)))
        = id <$> getPullRequests http' (hostInfoOf r) (branches (config (monitor s)))) →
  snd (checkForNewPullRequests w' http'
         (fst (checkForNewPullRequests w http s)))
  = [].
Proof.
  intros Hinfo Hnd Hids.
  rewrite (tick_unfold w' http'), tick_gitManager.
  rewrite (getRepositoryInfo_returns_stored _ _ _ _ Hinfo). cbn [snd].
  rewrite (checkRemotes_shown _ _ _ _ Hnd). simpl app.
  apply flat_map_all_nil. intros r Hr.
  unfold announced. destruct (skipped r) eqn:Hs; [done|]. simpl.
  destruct (showNotifications _); [|done]. simpl.
  unfold newOn. rewrite tick_config.
  rewrite (tick_monitor _ _ _ _ Hinfo).
  rewrite (checkRemotes_history_own _ _ _ _ _ Hnd Hr Hs). cbn [default].
  unfold Datatypes.id.
  by rewrite (findNew_same_ids _ _ (Hids r Hr Hs)).
Qed.

Lemma same_ids_are_not_reannounced_witness :
  snd (checkForNewPullRequests
         (Fixtures.workingCopy [])
         (Fixtures.hosts [Fixtures.ghPull 1 "renamed"] [] [])
         (fst (checkForNewPullRequests
                 (Fixtures.workingCopy [Fixtures.origin])
                 (Fixtures.hosts [Fixtures.ghPull 1 "a"] [] [])
                 Fixtures.session)))
  = [].
Proof.
  refine (same_ids_are_not_reannounced
            (Fixtures.workingCopy [Fixtures.origin]) (Fixtures.workingCopy [])
            (Fixtures.hosts [Fixtures.ghPull 1 "a"] [] [])
            (Fixtures.hosts [Fixtures.ghPull 1 "renamed"] [] [])
            Fixtures.session _ eq_refl _ _).
  - vm_compute. apply NoDup_singleton.
  - intros r Hr Hs. vm_compute in Hr. apply list_elem_of_singleton in Hr as ->.
    reflexivity.
Defined.

(** X8. With notifications switched off a tick announces nothing,
    whatever it fetches. *)
Theorem disabled_notifications_silence_every_tick
    (w : GitManager.Git) (http : Http) (s : Session) :
  showNotifications (config (monitor s)) = false →
  snd (checkForNewPullRequests w http s) = [].
Proof.
  intros Hoff. rewrite tick_unfold.
  destruct (fst (GitManager.getRepositoryInfo w (gitManager s))); [|done].
  cbn [snd]. by apply checkRemotes_silent.
Qed.

Lemma disabled_notifications_silence_every_tick_witness :
  snd (checkForNewPullRequests
         (Fixtures.workingCopy [Fixtures.origin])
         (Fixtures.hosts [Fixtures.ghPull 1 "a"] [] [])
         (create Fixtures.manager Timers.empty
            {| enabled := true; branches := ["main"];
               GitTypes.pollingInterval := 300000;
               showNotifications := false; includeDraftPRs := false |}))
  = [].
Proof.
  exact (disabled_notifications_silence_every_tick
           (Fixtures.workingCopy [Fixtures.origin])
           (Fixtures.hosts [Fixtures.ghPull 1 "a"] [] [])
           (create Fixtures.manager Timers.empty
              {| enabled := true; branches := ["main"];
                 GitTypes.pollingInterval := 300000;
                 showNotifications := false; includeDraftPRs := false |})
           eq_refl).
Defined.

(** *** The history a tick leaves *)

Lemma checkRemotes_history_untouched http rs m shown n :
  (∀ r, r ∈ rs → skipped r = false → remote_name r ≠ n) →
  lastKnownPRs (fst (checkRemotes http rs (m, shown))) !! n = lastKnownPRs m !! n.
Proof.
  revert m shown. induction rs as [|r rs IH]; intros m shown Hn; [done|].
  rewrite checkRemotes_cons.
  destruct (checkRemote http r (m, shown)) as [m1 shown1] eqn:E.
  rewrite IH by (intros r' Hr'; apply Hn; by right).
  assert (Hm1 : m1 = fst (checkRemote http r (m, shown))) by by rewrite E.
  rewrite Hm1. destruct (skipped r) eqn:Hs.
  - by rewrite checkRemote_skipped.
  - apply checkRemote_history_other. intros ->.
    apply (Hn r); [by left|done|done].
Qed.

(** X9. After a tick the stored history of every queried remote is
    exactly the list fetched for it in that tick (replaced, not merged),
    and the entry under any other name is what it was before. *)
Theorem tick_replaces_history_wholesale
    (w : GitManager.Git) (http : Http) (s : Session) (info : GitRepositoryInfo) :
  fst (GitManager.getRepositoryInfo w (gitManager s)) = Some info →
  NoDup (remote_name <$> remotes info) →
  (∀ r, r ∈ remotes info → skipped r = false →
        lastKnownPRs (monitor (fst (checkForNewPullRequests w http s)))
          !! remote_name r
        = Some (getPullRequests http (hostInfoOf r) (branches (config (monitor s)))))
  ∧ (∀ n, (∀ r, r ∈ remotes info → skipped r = false → remote_name r ≠ n) →
          lastKnownPRs (monitor (fst (checkForNewPullRequests w http s))) !! n
          = lastKnownPRs (monitor s) !! n).
Proof.
  intros Hinfo Hnd. rewrite (tick_monitor _ _ _ _ Hinfo). split.
  - intros r Hr Hs. by apply checkRemotes_history_own.
  - intros n Hn. by apply checkRemotes_history_untouched.
Qed.

Lemma tick_replaces_history_wholesale_witness :
  lastKnownPRs
    (monitor (fst (checkForNewPullRequests
                     (Fixtures.workingCopy [Fixtures.origin])
                     (Fixtures.hosts [Fixtures.ghPull 2 "b"] [] [])
                     (fst (checkForNewPullRequests
                             (Fixtures.workingCopy [Fixtures.origin])
                             (Fixtures.hosts [Fixtures.ghPull 1 "a"] [] [])
                             Fixtures.session)))))
    !! "origin"
  = Some [Fixtures.pr 2 "b"].
Proof.
  refine (proj1 (tick_replaces_history_wholesale
                   (Fixtures.workingCopy [Fixtures.origin])
                   (Fixtures.hosts [Fixtures.ghPull 2 "b"] [] [])
                   (fst (checkForNewPullRequests
                           (Fixtures.workingCopy [Fixtures.origin])
                           (Fixtures.hosts [Fixtures.ghPull 1 "a"] [] [])
                           Fixtures.session))
                   _ eq_refl _)
                (GitManager.parseRemote Fixtures.origin) _ eq_refl).
  - vm_compute. apply NoDup_singleton.
  - vm_compute. apply list_elem_of_singleton. reflexivity.
Defined.

(** *** The on-demand listing *)

Lemma collect_is_flat_map http brs rs acc :
  fold_left (collectRemote http brs) rs acc
  = (acc ++ flat_map (listed http brs) rs)%list.
Proof.
  revert acc. induction rs as [|r rs IH]; intros acc; simpl.
  { by rewrite app_nil_r. }
  rewrite IH. unfold collectRemote, listed.
  destruct (skipped r); [done|]. by rewrite <- app_assoc.
Qed.

Lemma listing_unfold w http s :
  snd (getCurrentPullRequests w http s)
  = match fst (GitManager.getRepositoryInfo w (gitManager s)) with
    | Some info => flat_map (listed http (branches (config (monitor s)))) (remotes info)
    | None => []
    end.
Proof.
  unfold getCurrentPullRequests.
  destruct (GitManager.getRepositoryInfo w (gitManager s)) as [[info|] gm'];
    cbn [fst snd]; [|done].
  destruct (remotes info) as [|r rs] eqn:E; [done|].
  cbn [snd]. by rewrite collect_is_flat_map.
Qed.

(** X10. The on-demand listing is the concatenation, in remote order, of
    what each remote that is not skipped answers for the configured
    branches; it is empty when there is no repository snapshot. Every
    request it lists targets a branch of the allow-list. *)
Theorem listing_is_the_concatenation_over_remotes
    (w : GitManager.Git) (http : Http) (s : Session) :
  snd (getCurrentPullRequests w http s)
  = match fst (GitManager.getRepositoryInfo w (gitManager s)) with
    | Some info =>
        flat_map (listed http (branches (config (monitor s)))) (remotes info)
    | None => []
    end
  ∧ Forall (λ pr, branch pr ∈ branches (config (monitor s)))
           (snd (getCurrentPullRequests w http s)).
Proof.
  split; [apply listing_unfold|]. rewrite listing_unfold.
  destruct (fst (GitManager.getRepositoryInfo w (gitManager s))) as [info|];
    [|constructor].
  apply Forall_forall. intros pr Hpr.
  apply list_elem_of_In, in_flat_map in Hpr as (r & _ & Hpr).
  unfold listed in Hpr. destruct (skipped r); [done|].
  pose proof (HostProps.getPullRequests_allowed http (hostInfoOf r)
                (branches (config (monitor s)))) as Hall.
  rewrite Forall_forall in Hall. apply list_elem_of_In in Hpr.
  by apply (Hall pr).
Qed.

Lemma flat_map_agree {A B : Type} (f g : A → list B) (l : list A) :
  (∀ a, a ∈ l → f a = g a) → flat_map f l = flat_map g l.
Proof.
  induction l as [|a l IH]; intros H; [done|]. simpl.
  rewrite (H a) by by left. f_equal. apply IH. intros b Hb. apply H. by right.
Qed.

(** X11. A listing requested after a tick, from hosts that answer as they
    did in the tick, shows exactly the histories the tick stored: for each
    remote that is not skipped, the list kept under its name. *)
Theorem listing_after_tick_shows_the_stored_history
    (w w' : GitManager.Git) (http : Http) (s : Session) (info : GitRepositoryInfo) :
  fst (GitManager.getRepositoryInfo w (gitManager s)) = Some info →
  NoDup (remote_name <$> remotes info) →
  snd (getCurrentPullRequests w' http (fst (checkForNewPullRequests w http s)))
  = flat_map
      (λ r, if skipped r then []
            else default []
                   (lastKnownPRs (monitor (fst (checkForNewPullRequests w http s)))
                      !! remote_name r))
      (remotes info).
Proof.
  intros Hinfo Hnd. rewrite listing_unfold, tick_gitManager.
  rewrite (getRepositoryInfo_returns_stored _ _ _ _ Hinfo), tick_config.
  apply flat_map_agree. intros r Hr. unfold listed.
  destruct (skipped r) eqn:Hs; [done|].
  rewrite (tick_monitor _ _ _ _ Hinfo).
  by rewrite (checkRemotes_history_own _ _ _ _ _ Hnd Hr Hs).
Qed.

Lemma listing_after_tick_shows_the_stored_history_witness :
  snd (getCurrentPullRequests
         (Fixtures.workingCopy [])
         (Fixtures.hosts [Fixtures.ghPull 1 "a"] [] [])
         (fst (checkForNewPullRequests
                 (Fixtures.workingCopy [Fixtures.origin])
                 (Fixtures.hosts [Fixtures.ghPull 1 "a"] [] [])
                 Fixtures.session)))
  = [Fixtures.pr 1 "a"].
Proof.
  refine (listing_after_tick_shows_the_stored_history
            (Fixtures.workingCopy [Fixtures.origin]) (Fixtures.workingCopy [])
            (Fixtures.hosts [Fixtures.ghPull 1 "a"] [] [])
            Fixtures.session _ eq_refl _).
  vm_compute. apply NoDup_singleton.
Defined.

(** *** Timer life cycle *)

Lemma wf_next_free q : Timers.wf q → Timers.active q !! Timers.next q = None.
Proof.
  intros Hwf. destruct (Timers.active q !! Timers.next q) eqn:E; [|done].
  assert (Timers.next q < Timers.next q) by (apply Hwf; by eexists). lia.
Qed.

Lemma wf_setInterval delay q : Timers.wf q → Timers.wf (snd (Timers.setInterval delay q)).
Proof.
  intros Hwf h. unfold Timers.setInterval. cbn [snd Timers.active Timers.next].
  destruct (decide (Timers.next q = h)) as [<-|Hne]; [lia|].
  rewrite lookup_insert_ne by done. intros Hh. apply Hwf in Hh. lia.
Qed.

Lemma wf_clearInterval h q : Timers.wf q → Timers.wf (Timers.clearInterval h q).
Proof.
  intros Hwf h'. unfold Timers.clearInterval. cbn [Timers.active Timers.next].
  intros [d Hd]. apply lookup_delete_Some in Hd as [_ Hd]. apply Hwf. by eexists.
Qed.

Lemma stopMonitoring_handle s : pollingInterval (monitor (stopMonitoring s)) = None.
Proof. unfold stopMonitoring. by destruct (pollingInterval (monitor s)) eqn:E. Qed.

(** X12. Starting an idle monitor and stopping it again leaves the set of
    running timers as it was, whether or not the configuration enables
    polling; and stopping is idempotent - a second [stopMonitoring]
    changes nothing. *)
Theorem start_then_stop_restores_the_timers
    (w : GitManager.Git) (http : Http) (s : Session) :
  Timers.wf (timers s) →
  pollingInterval (monitor s) = None →
  Timers.active (timers (stopMonitoring (fst (startMonitoring w http s))))
  = Timers.active (timers s)
  ∧ pollingInterval (monitor (stopMonitoring (fst (startMonitoring w http s)))) = None
  ∧ stopMonitoring (stopMonitoring (fst (startMonitoring w http s)))
    = stopMonitoring (fst (startMonitoring w http s)).
Proof.
  intros Hwf Hidle. split; [|split].
  - destruct (enabled (config (monitor s))) eqn:Hen.
    + destruct (startMonitoring_enabled w http s Hen) as (Ht & Hh & _).
      unfold stopMonitoring. rewrite Hh, Ht.
      cbn [timers Timers.clearInterval Timers.active].
      rewrite delete_insert_eq. apply delete_id. by apply wf_next_free.
    + rewrite (startMonitoring_disabled w http s Hen). cbn [fst].
      unfold stopMonitoring. by rewrite Hidle.
  - apply stopMonitoring_handle.
  - unfold stopMonitoring at 1. by rewrite stopMonitoring_handle.
Qed.

Lemma start_then_stop_restores_the_timers_witness :
  Timers.active
    (timers (stopMonitoring
               (fst (startMonitoring (Fixtures.workingCopy [Fixtures.origin])
                       (Fixtures.hosts [] [] []) Fixtures.session))))
  = ∅.
Proof.
  refine (proj1 (start_then_stop_restores_the_timers
                   (Fixtures.workingCopy [Fixtures.origin])
                   (Fixtures.hosts [] [] []) Fixtures.session _ eq_refl)).
  intros h [d Hd]. discriminate Hd.
Defined.

Lemma tidy_start w http s : tidy s → tidy (fst (startMonitoring w http s)).
Proof.
  intros [Hwf Hlive]. destruct (enabled (config (monitor s))) eqn:Hen.
  - destruct (startMonitoring_enabled w http s Hen) as (Ht & Hh & _).
    split.
    + rewrite Ht. apply (wf_setInterval _ _ Hwf).
    + intros h. rewrite Hh, Ht. intros [= <-]. cbn [Timers.active].
      rewrite lookup_insert_eq. by eexists.
  - by rewrite (startMonitoring_disabled w http s Hen).
Qed.

Lemma tidy_stop s : tidy s → tidy (stopMonitoring s).
Proof.
  intros [Hwf Hlive]. split.
  - unfold stopMonitoring. destruct (pollingInterval (monitor s)); [|done].
    by apply wf_clearInterval.
  - rewrite stopMonitoring_handle. done.
Qed.

(** X13. Two facts hold of a fresh monitor and survive every operation -
    a tick, a listing, [startMonitoring], [stopMonitoring],
    [updateConfig], [dispose]: no timer handle is ever reused, and the
    handle the monitor stores is that of a timer that is still running. *)
Theorem stored_handle_is_always_live
    (w : GitManager.Git) (http : Http) (newConfig : GitConfig) (s : Session) :
  tidy s →
  tidy (fst (checkForNewPullRequests w http s))
  ∧ tidy (fst (getCurrentPullRequests w http s))
  ∧ tidy (fst (startMonitoring w http s))
  ∧ tidy (stopMonitoring s)
  ∧ tidy (fst (updateConfig w http newConfig s))
  ∧ tidy (dispose s).
Proof.
  intros Htidy. repeat split.
  - rewrite tick_timers. apply Htidy.
  - rewrite tick_timers, tick_handle. apply Htidy.
  - unfold getCurrentPullRequests.
    destruct (GitManager.getRepositoryInfo w (gitManager s)) as [[info|] gm'];
      [destruct (remotes info)|]; apply Htidy.
  - unfold getCurrentPullRequests.
    destruct (GitManager.getRepositoryInfo w (gitManager s)) as [[info|] gm'];
      [destruct (remotes info)|]; apply Htidy.
  - by apply tidy_start.
  - by apply tidy_start.
  - by apply tidy_stop.
  - by apply tidy_stop.
  - unfold updateConfig. cbn [monitor config].
    destruct (enabled newConfig); [apply tidy_start|apply tidy_stop]; apply Htidy.
  - unfold updateConfig. cbn [monitor config].
    destruct (enabled newConfig); [apply tidy_start|apply tidy_stop]; apply Htidy.
  - apply (tidy_stop s Htidy).
  - destruct (tidy_stop s Htidy) as [_ Hlive]. exact Hlive.
Qed.

Lemma stored_handle_is_always_live_witness :
  tidy (fst (startMonitoring (Fixtures.workingCopy [Fixtures.origin])
               (Fixtures.hosts [] [] []) Fixtures.session)).
Proof.
  refine (proj1 (proj2 (proj2 (stored_handle_is_always_live
            (Fixtures.workingCopy [Fixtures.origin]) (Fixtures.hosts [] [] [])
            (Extension.getGitConfig Fixtures.defaultSettings)
            Fixtures.session _)))).
  split.
  - intros h [d Hd]. discriminate Hd.
  - intros h Hh. discriminate Hh.
Defined.

(** Reconfiguring runs a check at once, with the new allow-list, and the
    check replaces the stored lists: narrowing the allow-list to
    [develop] empties the history of [origin], and widening it again
    announces request 1 a second time. *)
Example allow_list_change_and_back_announces_again :
  let w := Fixtures.workingCopy [Fixtures.origin] in
  let http := Fixtures.hosts [Fixtures.ghPull 1 "a"] [] [] in
  let s1 := fst (startMonitoring w http Fixtures.session) in
  let narrowed :=
    updateConfig w http
      {| enabled := true; branches := ["develop"];
         GitTypes.pollingInterval := 300000;
         showNotifications := true; includeDraftPRs := false |} s1 in
  let widened :=
    updateConfig w http (Extension.getGitConfig Fixtures.defaultSettings)
      (fst narrowed) in
  lastKnownPRs (monitor s1) !! "origin" = Some [Fixtures.pr 1 "a"]
  ∧ snd narrowed = []
  ∧ lastKnownPRs (monitor (fst narrowed)) !! "origin" = Some []
  ∧ snd widened = [NewPullRequest (Fixtures.pr 1 "a")].
Proof. vm_compute. repeat split. Qed.

End MonitorProps.

(** ** Configuration loading *)

Module ConfigProps.

Import ConfigManager Views.

Lemma string_or_string s d : string_or (JString s) d = s.
Proof. reflexivity. Qed.

Lemma string_or_other v d : (∀ s, v ≠ JString s) → string_or v d = d.
Proof. intros H. destruct v; try reflexivity. by destruct (H s). Qed.

Lemma array_or_empty_other v : (∀ l, v ≠ JArray l) → array_or_empty v = [].
Proof. intros H. destruct v; try reflexivity. by destruct (H items). Qed.

(** The guard of [validateConfig] lets through exactly the objects. *)
Lemma object_guard v :
  truthy v && String.eqb (typeof v) "object" = isObject v.
Proof. destruct v as [| |b|n|s|d|l|ps]; try reflexivity; simpl.
  - by rewrite andb_false_r.
  - by rewrite andb_false_r.
  - by rewrite andb_false_r.
Qed.

Lemma read_missing props k : assoc k props = None → read (JObject props) k = JUndefined.
Proof. intros H. unfold read. by rewrite H. Qed.

(** C3, as the code has it. "Object" is what the guard tests: a truthy
    value of type [object], so [null] is none and an array or a date is
    one. A decoded value that is not an object in that sense gives no
    record. One that is always gives a record with all five fields: a
    string [name], [version], [environment] is kept and anything else (a
    missing key included) becomes the default; an array [tools] is kept
    and anything else becomes the empty list; a [settings] that is an
    object in that sense - an array or a date included - is kept and
    anything else becomes the empty map. An array or a date as the whole
    document has none of the five keys and gives the all-defaults
    record. *)
Theorem validateConfig_coerces_with_defaults (config : JSValue) :
  (isObject config = false → validateConfig config = None)
  ∧ (isObject config = true →
     ∃ r, validateConfig config = Some r
       ∧ ((∀ s, read config "name" = JString s → name r = s)
          ∧ ((∀ s, read config "name" ≠ JString s) →
             name r = "Default Environment"))
       ∧ ((∀ s, read config "version" = JString s → version r = s)
          ∧ ((∀ s, read config "version" ≠ JString s) → version r = "1.0.0"))
       ∧ ((∀ s, read config "environment" = JString s → environment r = s)
          ∧ ((∀ s, read config "environment" ≠ JString s) →
             environment r = "development"))
       ∧ ((∀ l, read config "tools" = JArray l → tools r = l)
          ∧ ((∀ l, read config "tools" ≠ JArray l) → tools r = []))
       ∧ ((isObject (read config "settings") = true →
           settings r = read config "settings")
          ∧ (isObject (read config "settings") = false →
             settings r = JObject []))
       ∧ isObject (settings r) = true)
  ∧ (isKeyValueObject config = false → isObject config = true →
     validateConfig config = Some getDefaultConfig)
  ∧ (isObject config = false
     ↔ config = JUndefined ∨ config = JNull ∨ (∃ b, config = JBoolean b)
       ∨ (∃ n, config = JNumber n) ∨ (∃ s, config = JString s)).
Proof.
  split; [|split; [|split]].
  - intros Hno. unfold validateConfig.
    rewrite <- negb_andb, object_guard, Hno. reflexivity.
  - intros Hobj. unfold validateConfig.
    rewrite <- negb_andb, object_guard, Hobj. cbn [negb].
    eexists. split; [reflexivity|]. cbn [name version environment tools settings].
    rewrite object_guard.
    repeat split.
    + intros s ->. apply string_or_string.
    + apply string_or_other.
    + intros s ->. apply string_or_string.
    + apply string_or_other.
    + intros s ->. apply string_or_string.
    + apply string_or_other.
    + by intros l ->.
    + apply array_or_empty_other.
    + by intros ->.
    + by intros ->.
    + by destruct (isObject (read config "settings")) eqn:E.
  - by destruct config.
  - destruct config as [| |b|n|s|d|l|ps]; cbn [isObject].
    + split; [intros _; by left|reflexivity].
    + split; [intros _; right; by left|reflexivity].
    + split; [intros _; right; right; left; by exists b|reflexivity].
    + split; [intros _; right; right; right; left; by exists n|reflexivity].
    + split; [intros _; right; right; right; right; by exists s|reflexivity].
    + split; [discriminate|].
      intros [H|[H|[[? H]|[[? H]|[? H]]]]]; discriminate H.
    + split; [discriminate|].
      intros [H|[H|[[? H]|[[? H]|[? H]]]]]; discriminate H.
    + split; [discriminate|].
      intros [H|[H|[[? H]|[[? H]|[? H]]]]]; discriminate H.
Qed.

Lemma validateConfig_coerces_with_defaults_witness :
  validateConfig (JString "name: Foo") = None
  ∧ (∃ r, validateConfig Fixtures.fooDocument = Some r
          ∧ name r = "Foo" ∧ version r = "1.0.0" ∧ environment r = "development"
          ∧ tools r = [] ∧ settings r = JObject [])
  ∧ validateConfig (JArray [JString "git"]) = Some getDefaultConfig.
Proof.
  split; [|split].
  - exact (proj1 (validateConfig_coerces_with_defaults (JString "name: Foo")) eq_refl).
  - destruct (proj1 (proj2 (validateConfig_coerces_with_defaults Fixtures.fooDocument))
                eq_refl)
      as (r & Hr & [Hn _] & [_ Hv] & [_ He] & [_ Ht] & [_ Hs] & _).
    exists r. split; [exact Hr|]. split; [exact (Hn "Foo" eq_refl)|].
    split; [apply Hv; discriminate|]. split; [apply He; discriminate|].
    split; [apply Ht; discriminate|]. exact (Hs eq_refl).
  - exact (proj1 (proj2 (proj2 (validateConfig_coerces_with_defaults
                                  (JArray [JString "git"]))))
             eq_refl eq_refl).
Defined.

(** C3, as written, fails on arrays, which the claim itself sets apart
    from objects: an array as the whole document is not rejected but
    coerced to the all-defaults record, and an array under [settings] is
    kept instead of becoming the empty map. *)
Lemma arrays_pass_for_objects :
  ¬ (∀ config, isKeyValueObject config = false → validateConfig config = None)
  ∧ ¬ (∀ config r,
         validateConfig config = Some r →
         isKeyValueObject (read config "settings") = false →
         settings r = JObject []).
Proof.
  split.
  - intros H. specialize (H (JArray [JString "git"]) eq_refl). discriminate H.
  - intros H.
    specialize (H (JObject [("settings", JArray [JString "x"])]) _ eq_refl eq_refl).
    discriminate H.
Qed.

Example empty_object_is_all_defaults :
  validateConfig (JObject []) = Some getDefaultConfig.
Proof. reflexivity. Qed.

Example array_document_is_all_defaults :
  validateConfig (JArray [JString "git"]) = Some getDefaultConfig.
Proof. reflexivity. Qed.

Example null_document_is_absent : validateConfig JNull = None.
Proof. reflexivity. Qed.

Example null_settings_become_empty_map :
  settings <$> validateConfig (JObject [("settings", JNull)]) = Some (JObject []).
Proof. reflexivity. Qed.

(** *** Cache *)

Ltac run := unfold mbind, mret, M_bind, M_ret, fsCall, now, cacheGet, cacheSet; simpl.

(** Reading a candidate file touches neither the cache nor the clock and
    logs exactly one read. *)
Lemma loadConfigFromPath_effect env filePath st :
  snd (loadConfigFromPath env filePath st)
  = {| configCache := configCache st; clock := clock st;
       fsCalls := (fsCalls st ++ [ReadFileSync filePath])%list |}.
Proof.
  unfold loadConfigFromPath. run.
  destruct (readFileSync env filePath); [|done].
  destruct (String.eqb _ ".json"); [done|].
  by destruct (String.eqb _ ".yml" || String.eqb _ ".yaml").
Qed.

(** File-system calls are only ever appended. *)
Lemma searchFiles_appends env workspacePath cacheKey fileNames st :
  ∃ more, fsCalls (snd (searchFiles env workspacePath cacheKey fileNames st))
          = (fsCalls st ++ more)%list.
Proof.
  revert st. induction fileNames as [|f fs IH]; intros st.
  { exists []. simpl. by rewrite app_nil_r. }
  simpl. run.
  destruct (existsSync env (path_join env workspacePath f)).
  - pose proof (loadConfigFromPath_effect env (path_join env workspacePath f)
                  {| configCache := configCache st; clock := clock st;
                     fsCalls := (fsCalls st
                                 ++ [ExistsSync (path_join env workspacePath f)])%list |})
      as Heff.
    destruct (loadConfigFromPath env _ _) as [[c|] st1]; simpl in Heff; subst st1.
    + run. eexists. rewrite <- app_assoc. reflexivity.
    + destruct (IH {| configCache := configCache st; clock := clock st;
                      fsCalls := ((fsCalls st
                                   ++ [ExistsSync (path_join env workspacePath f)])
                                  ++ [ReadFileSync (path_join env workspacePath f)])%list |})
        as [more Hmore].
      rewrite Hmore. simpl. eexists. rewrite <- !app_assoc. reflexivity.
  - destruct (IH {| configCache := configCache st; clock := clock st;
                    fsCalls := (fsCalls st
                                ++ [ExistsSync (path_join env workspacePath f)])%list |})
      as [more Hmore].
    rewrite Hmore. simpl. eexists. rewrite <- app_assoc. reflexivity.
Qed.

(** A search starts by probing the first candidate name. *)
Lemma searchFiles_probes_first env workspacePath cacheKey f fs st :
  ∃ more, fsCalls (snd (searchFiles env workspacePath cacheKey (f :: fs) st))
          = (fsCalls st ++ ExistsSync (path_join env workspacePath f) :: more)%list.
Proof.
  simpl. run.
  destruct (existsSync env (path_join env workspacePath f)).
  - pose proof (loadConfigFromPath_effect env (path_join env workspacePath f)
                  {| configCache := configCache st; clock := clock st;
                     fsCalls := (fsCalls st
                                 ++ [ExistsSync (path_join env workspacePath f)])%list |})
      as Heff.
    destruct (loadConfigFromPath env _ _) as [[c|] st1]; simpl in Heff; subst st1.
    + run. eexists. rewrite <- app_assoc. reflexivity.
    + destruct (searchFiles_appends env workspacePath cacheKey fs
                  {| configCache := configCache st; clock := clock st;
                     fsCalls := ((fsCalls st
                                  ++ [ExistsSync (path_join env workspacePath f)])
                                 ++ [ReadFileSync (path_join env workspacePath f)])%list |})
        as [more Hmore].
      rewrite Hmore. simpl. eexists. rewrite <- !app_assoc. reflexivity.
  - destruct (searchFiles_appends env workspacePath cacheKey fs
                {| configCache := configCache st; clock := clock st;
                   fsCalls := (fsCalls st
                               ++ [ExistsSync (path_join env workspacePath f)])%list |})
      as [more Hmore].
    rewrite Hmore. simpl. eexists. rewrite <- app_assoc. reflexivity.
Qed.

(** Within the timeout a cached record is returned as stored, with no
    file-system call at all. *)
Lemma fresh_entry_is_served_from_cache env workspacePath st c timestamp :
  configCache st !! ("workspace:" ++ workspacePath) = Some (c, timestamp) →
  (Date_now env (clock st) - timestamp < cacheTimeout)%Z →
  findConfigInWorkspace env workspacePath st
  = (Some c, {| configCache := configCache st; clock := S (clock st);
                fsCalls := fsCalls st |}).
Proof.
  intros Hc Hfresh. unfold findConfigInWorkspace. run. rewrite Hc. run.
  apply Z.ltb_lt in Hfresh. by rewrite Hfresh.
Qed.

Lemma findConfigInWorkspace_appends env workspacePath st :
  ∃ more, fsCalls (snd (findConfigInWorkspace env workspacePath st))
          = (fsCalls st ++ more)%list.
Proof.
  unfold findConfigInWorkspace, mbind, mret, M_bind, M_ret, cacheGet, now.
  destruct (configCache st !! _) as [[c timestamp]|].
  - destruct (_ <? _)%Z.
    + exists []. cbn [snd fsCalls]. by rewrite app_nil_r.
    + apply (searchFiles_appends env workspacePath _ _
               {| configCache := configCache st; clock := S (clock st);
                  fsCalls := fsCalls st |}).
  - apply searchFiles_appends.
Qed.

Lemma searchFolders_appends env folders st :
  ∃ more, fsCalls (snd (searchFolders env folders st)) = (fsCalls st ++ more)%list.
Proof.
  revert st. induction folders as [|f fs IH]; intros st.
  { exists []. simpl. by rewrite app_nil_r. }
  simpl. unfold mbind, M_bind.
  destruct (findConfigInWorkspace_appends env f st) as [m1 H1].
  destruct (findConfigInWorkspace env f st) as [[c|] st1]; simpl in H1.
  - exists m1. exact H1.
  - destruct (IH st1) as [m2 H2]. exists (m1 ++ m2)%list.
    by rewrite H2, H1, app_assoc.
Qed.

(** With an empty cache the lookup is the search itself. *)
Lemma find_with_empty_cache env workspacePath st :
  configCache st = ∅ →
  findConfigInWorkspace env workspacePath st
  = searchFiles env workspacePath ("workspace:" ++ workspacePath) configFileNames st.
Proof.
  intros Hempty. unfold findConfigInWorkspace, mbind, M_bind, cacheGet.
  by rewrite Hempty, lookup_empty.
Qed.

(** The same through [loadConfiguration], when no custom path is set and
    the automatic search has a folder to look into. *)
Lemma loadConfiguration_after_clear env ws st folder rest :
  configPath ws = None →
  autoSearch ws = Some true →
  workspaceFolders ws = Some (folder :: rest) →
  ∃ more,
    fsCalls (snd (loadConfiguration env ws (clearCache st)))
    = (fsCalls st ++ ExistsSync (path_join env folder "den.yml") :: more)%list.
Proof.
  intros Hpath Hauto Hfolders. unfold loadConfiguration.
  rewrite Hpath, Hauto, Hfolders. change (default false (Some true)) with true.
  cbn [searchFolders]. unfold mbind, mret, M_bind, M_ret. cbv beta iota.
  rewrite find_with_empty_cache by done.
  destruct (searchFiles_probes_first env folder ("workspace:" ++ folder) "den.yml"
              (tl configFileNames) (clearCache st)) as [m1 H1].
  change ("den.yml" :: tl configFileNames) with configFileNames in H1.
  destruct (searchFiles env folder _ configFileNames (clearCache st)) as [[c|] st1];
    simpl in H1.
  - exists m1. exact H1.
  - destruct (searchFolders_appends env rest st1) as [m2 H2].
    exists (m1 ++ m2)%list. rewrite H2, H1. by rewrite <- app_assoc.
Qed.

(** A load, a second load one second later, a clear, a third load: the
    second load makes no file-system call, the third probes and reads
    again although the entry was only two seconds old. *)
Example load_load_clear_load :
  let st1 := snd (findConfigInWorkspace Fixtures.disk "/work" create) in
  let st2 := snd (findConfigInWorkspace Fixtures.disk "/work" st1) in
  let st3 := snd (findConfigInWorkspace Fixtures.disk "/work" (clearCache st2)) in
  fsCalls st1 = [ExistsSync "/work/den.yml"; ReadFileSync "/work/den.yml"]
  ∧ fsCalls st2 = fsCalls st1
  ∧ fsCalls st3 = (fsCalls st2 ++ [ExistsSync "/work/den.yml";
                                    ReadFileSync "/work/den.yml"])%list
  ∧ name <$> fst (findConfigInWorkspace Fixtures.disk "/work" (clearCache st2))
    = Some "Foo".
Proof. vm_compute. repeat split. Qed.

(** *** The stricter check on a loaded record *)

Lemma string_or_empty v d :
  d ≠ "" → (string_or v d = "" ↔ v = JString "").
Proof.
  intros Hd. destruct v as [| |b|n|s|d0|l|ps];
    try (change (string_or _ d) with d; split; intros H; congruence).
  change (string_or (JString s) d) with s. split; intros H; congruence.
Qed.

Lemma settings_of_loaded_is_object v r :
  validateConfig v = Some r → isObject (settings r) = true.
Proof.
  unfold validateConfig. destruct (_ || _); [done|]. intros [= <-].
  cbn [settings]. rewrite object_guard.
  by destruct (isObject (read v "settings")) eqn:E.
Qed.

(** X14. For a record loaded from a decoded value, the validation command
    fails exactly when the file gives [name], [version] or [environment]
    as the empty string: a field that is missing or of the wrong type has
    been replaced by its default and is never reported, and [settings] is
    never reported. The only warning is the one for an empty tools list,
    raised exactly when the file's [tools] is missing, not an array, or
    the empty array. *)
Theorem loaded_record_fails_validation_only_on_empty_strings
    (v : JSValue) (r : DENConfig) :
  validateConfig v = Some r →
  (isValid (validateConfiguration r) = false
   ↔ read v "name" = JString "" ∨ read v "version" = JString ""
     ∨ read v "environment" = JString "")
  ∧ (warnings (validateConfiguration r) = ["No tools specified in configuration"]
     ↔ array_or_empty (read v "tools") = [])
  ∧ (warnings (validateConfiguration r) = []
     ↔ array_or_empty (read v "tools") ≠ []).
Proof.
  intros Hload.
  pose proof (settings_of_loaded_is_object v r Hload) as Hobj.
  rewrite <- object_guard in Hobj.
  unfold validateConfig in Hload. destruct (_ || _); [done|].
  injection Hload as <-. cbn [settings] in Hobj.
  unfold validateConfiguration. cbn [name version environment tools settings].
  rewrite <- negb_andb, Hobj. cbn [negb pushIf].
  assert (Hn := string_or_empty (read v "name") "Default Environment"
                  ltac:(discriminate)).
  assert (Hv := string_or_empty (read v "version") "1.0.0" ltac:(discriminate)).
  assert (He := string_or_empty (read v "environment") "development"
                  ltac:(discriminate)).
  unfold JsString.truthy. rewrite !negb_involutive.
  split; [|split].
  - destruct (String.eqb_spec (string_or (read v "name") "Default Environment") "");
      destruct (String.eqb_spec (string_or (read v "version") "1.0.0") "");
      destruct (String.eqb_spec (string_or (read v "environment") "development") "");
      simpl; rewrite <- Hn, <- Hv, <- He; split; try done; tauto.
  - cbn [warnings]. destruct (array_or_empty (read v "tools")); by split.
  - cbn [warnings]. destruct (array_or_empty (read v "tools")); by split.
Qed.

Lemma loaded_record_fails_validation_only_on_empty_strings_witness :
  isValid (validateConfiguration
             {| name := "Foo"; version := "1.0.0"; environment := "development";
                tools := []; settings := JObject [] |})
  ≠ false.
Proof.
  intros Hbad.
  destruct (proj1 (proj1 (loaded_record_fails_validation_only_on_empty_strings
                            Fixtures.fooDocument _ eq_refl)) Hbad)
    as [H|[H|H]]; discriminate H.
Defined.

Example empty_name_is_reported :
  errors <$> (validateConfiguration
                <$> validateConfig (JObject [("name", JString "")]))
  = Some ["Missing or invalid " ++ dq ++ "name" ++ dq ++ " field"].
Proof. reflexivity. Qed.

(** *** Discovery order *)

Lemma loadConfigFromPath_result env filePath st :
  fst (loadConfigFromPath env filePath st) = decodeAt env filePath.
Proof.
  unfold loadConfigFromPath, decodeAt. run.
  destruct (readFileSync env filePath); [|done].
  destruct (String.eqb _ ".json"); [done|].
  by destruct (String.eqb _ ".yml" || String.eqb _ ".yaml").
Qed.

Lemma searchFiles_step env workspacePath cacheKey f fs st :
  searchFiles env workspacePath cacheKey (f :: fs) st
  = match candidate env workspacePath f with
    | Some c =>
        (Some c,
         {| configCache :=
              <[cacheKey := (c, Date_now env (clock st))]> (configCache st);
            clock := S (clock st);
            fsCalls := (fsCalls st
                        ++ [ExistsSync (path_join env workspacePath f);
                            ReadFileSync (path_join env workspacePath f)])%list |})
    | None =>
        searchFiles env workspacePath cacheKey fs
          {| configCache := configCache st; clock := clock st;
             fsCalls :=
               (fsCalls st
                ++ ExistsSync (path_join env workspacePath f)
                   :: (if existsSync env (path_join env workspacePath f)
                       then [ReadFileSync (path_join env workspacePath f)]
                       else []))%list |}
    end.
Proof.
  unfold candidate. cbn [searchFiles]. unfold mbind, M_bind, fsCall at 1.
  destruct (existsSync env (path_join env workspacePath f)).
  - pose proof (loadConfigFromPath_effect env (path_join env workspacePath f)
                  {| configCache := configCache st; clock := clock st;
                     fsCalls := (fsCalls st
                                 ++ [ExistsSync (path_join env workspacePath f)])%list |})
      as Heff.
    pose proof (loadConfigFromPath_result env (path_join env workspacePath f)
                  {| configCache := configCache st; clock := clock st;
                     fsCalls := (fsCalls st
                                 ++ [ExistsSync (path_join env workspacePath f)])%list |})
      as Hres.
    destruct (loadConfigFromPath env _ _) as [res st1].
    cbn [fst snd] in Heff, Hres. subst st1. rewrite <- Hres.
    cbn [configCache clock fsCalls].
    destruct res as [c|].
    + run. by rewrite <- app_assoc.
    + by rewrite <- app_assoc.
  - reflexivity.
Qed.

Lemma searchFiles_result env workspacePath cacheKey fileNames st :
  fst (searchFiles env workspacePath cacheKey fileNames st)
  = firstSome (candidate env workspacePath) fileNames.
Proof.
  revert st. induction fileNames as [|f fs IH]; intros st; [done|].
  rewrite searchFiles_step. cbn [firstSome].
  destruct (candidate env workspacePath f); [done|]. apply IH.
Qed.

(** C7. [clearCache] empties the cache whatever it held - also an entry
    that was still fresh. The next workspace lookup therefore skips the
    cache branch and goes to the disk: it probes [den.yml] first and, when
    that file exists, reads it; what it returns is what the files on disk
    decode to now, namely the first loadable candidate in priority order;
    and a record found this way is stored again under a new timestamp. *)
Theorem clearCache_then_load_reads_disk
    (env : Env) (workspacePath : string) (st : ConfigManager.t) :
  configCache (clearCache st) = ∅
  ∧ findConfigInWorkspace env workspacePath (clearCache st)
    = searchFiles env workspacePath ("workspace:" ++ workspacePath)
        configFileNames (clearCache st)
  ∧ (∃ more,
       fsCalls (snd (findConfigInWorkspace env workspacePath (clearCache st)))
       = (fsCalls st
          ++ ExistsSync (path_join env workspacePath "den.yml") :: more)%list)
  ∧ fst (findConfigInWorkspace env workspacePath (clearCache st))
    = firstSome (candidate env workspacePath) configFileNames
  ∧ (existsSync env (path_join env workspacePath "den.yml") = true →
     ∃ more,
       fsCalls (snd (findConfigInWorkspace env workspacePath (clearCache st)))
       = (fsCalls st
          ++ ExistsSync (path_join env workspacePath "den.yml")
             :: ReadFileSync (path_join env workspacePath "den.yml") :: more)%list)
  ∧ (∀ c, decodeAt env (path_join env workspacePath "den.yml") = Some c →
          existsSync env (path_join env workspacePath "den.yml") = true →
          fst (findConfigInWorkspace env workspacePath (clearCache st)) = Some c
          ∧ configCache (snd (findConfigInWorkspace env workspacePath (clearCache st)))
              !! ("workspace:" ++ workspacePath)
            = Some (c, Date_now env (clock st))).
Proof.
  split; [done|]. split; [by apply find_with_empty_cache|].
  rewrite find_with_empty_cache by done.
  split; [|split; [|split]].
  - apply (searchFiles_probes_first env workspacePath _ "den.yml" _ (clearCache st)).
  - apply searchFiles_result.
  - intros Hexists.
    change configFileNames with ("den.yml" :: tl configFileNames).
    rewrite searchFiles_step. unfold candidate. rewrite Hexists.
    destruct (decodeAt env (path_join env workspacePath "den.yml")) as [c|].
    + exists []. reflexivity.
    + destruct (searchFiles_appends env workspacePath
                  ("workspace:" ++ workspacePath) (tl configFileNames)
                  {| configCache := configCache (clearCache st);
                     clock := clock (clearCache st);
                     fsCalls :=
                       (fsCalls (clearCache st)
                        ++ [ExistsSync (path_join env workspacePath "den.yml");
                            ReadFileSync (path_join env workspacePath "den.yml")])%list |})
        as [more Hmore].
      exists more. rewrite Hmore. cbn [fsCalls clearCache].
      by rewrite <- app_assoc.
  - intros c Hdecode Hexists.
    change configFileNames with ("den.yml" :: tl configFileNames).
    rewrite searchFiles_step. unfold candidate. rewrite Hexists, Hdecode.
    cbn [fst snd configCache clearCache clock]. split; [done|].
    apply lookup_insert_eq.
Qed.

Lemma clearCache_then_load_reads_disk_witness :
  name <$> fst (findConfigInWorkspace Fixtures.disk "/work"
                  (clearCache Fixtures.agedManager))
  = Some "Foo".
Proof.
  exact (f_equal (fmap name)
           (proj1 (proj2 (proj2 (proj2 (proj2 (proj2
              (clearCache_then_load_reads_disk Fixtures.disk "/work"
                 Fixtures.agedManager)))))
              _ eq_refl eq_refl))).
Defined.

(** X15. A workspace search returns the record of the first candidate
    name, in the fixed priority order, whose file exists, can be read, has
    a supported extension, decodes and is an object; a candidate that
    fails any of these is passed over, and the result is absent only when
    all six fail. The cache plays no part when it has no fresh entry: in
    particular, after [clearCache]. *)
Theorem search_returns_first_loadable_candidate
    (env : Env) (workspacePath : string) (st : ConfigManager.t) :
  fst (searchFiles env workspacePath ("workspace:" ++ workspacePath)
         configFileNames st)
  = firstSome (candidate env workspacePath)
      ["den.yml"; "den.yaml"; "den.json"; ".den.yml"; ".den.yaml"; ".den.json"]
  ∧ fst (findConfigInWorkspace env workspacePath (clearCache st))
    = firstSome (candidate env workspacePath)
        ["den.yml"; "den.yaml"; "den.json"; ".den.yml"; ".den.yaml"; ".den.json"].
Proof.
  split; [apply searchFiles_result|].
  rewrite find_with_empty_cache by done. apply searchFiles_result.
Qed.

(** *** What a lookup does to the cache *)

Lemma searchFiles_cache env workspacePath cacheKey fileNames st :
  match fst (searchFiles env workspacePath cacheKey fileNames st) with
  | Some c =>
      ∃ timestamp,
        configCache (snd (searchFiles env workspacePath cacheKey fileNames st))
        = <[cacheKey := (c, timestamp)]> (configCache st)
  | None =>
      configCache (snd (searchFiles env workspacePath cacheKey fileNames st))
      = configCache st
  end.
Proof.
  revert st. induction fileNames as [|f fs IH]; intros st; [done|].
  rewrite searchFiles_step.
  destruct (candidate env workspacePath f) as [c|].
  - cbn [fst snd configCache]. by eexists.
  - apply (IH {| configCache := configCache st; clock := clock st;
                 fsCalls := _ |}).
Qed.

Lemma find_cache env workspacePath st :
  match fst (findConfigInWorkspace env workspacePath st) with
  | Some c =>
      ∃ timestamp,
        configCache (snd (findConfigInWorkspace env workspacePath st))
          !! ("workspace:" ++ workspacePath)
        = Some (c, timestamp)
        ∧ ∀ k, k ≠ "workspace:" ++ workspacePath →
               configCache (snd (findConfigInWorkspace env workspacePath st)) !! k
               = configCache st !! k
  | None =>
      configCache (snd (findConfigInWorkspace env workspacePath st))
      = configCache st
  end.
Proof.
  unfold findConfigInWorkspace, mbind, mret, M_bind, M_ret, cacheGet, now.
  destruct (configCache st !! ("workspace:" ++ workspacePath))
    as [[c timestamp]|] eqn:Hc.
  - destruct (_ <? _)%Z.
    + cbn [fst snd configCache]. exists timestamp. by split.
    + pose proof (searchFiles_cache env workspacePath ("workspace:" ++ workspacePath)
                    configFileNames
                    {| configCache := configCache st; clock := S (clock st);
                       fsCalls := fsCalls st |}) as H.
      destruct (fst (searchFiles _ _ _ _ _)) as [c'|].
      * destruct H as [ts ->]. cbn [configCache]. exists ts.
        split; [apply lookup_insert_eq|]. intros k Hk. by rewrite lookup_insert_ne.
      * exact H.
  - pose proof (searchFiles_cache env workspacePath ("workspace:" ++ workspacePath)
                  configFileNames st) as H.
    destruct (fst (searchFiles _ _ _ _ _)) as [c'|].
    + destruct H as [ts ->]. exists ts.
      split; [apply lookup_insert_eq|]. intros k Hk. by rewrite lookup_insert_ne.
    + exact H.
Qed.

(** X16. A workspace lookup only ever writes the cache entry of its own
    workspace, and only when it found a record: a lookup that finds
    nothing leaves the whole cache as it was (a missing configuration is
    never remembered), and entries of other workspaces are never touched. *)
Theorem lookup_touches_only_its_own_entry
    (env : Env) (workspacePath : string) (st : ConfigManager.t) :
  (fst (findConfigInWorkspace env workspacePath st) = None →
   configCache (snd (findConfigInWorkspace env workspacePath st)) = configCache st)
  ∧ (∀ k, k ≠ "workspace:" ++ workspacePath →
          configCache (snd (findConfigInWorkspace env workspacePath st)) !! k
          = configCache st !! k).
Proof.
  pose proof (find_cache env workspacePath st) as H.
  destruct (fst (findConfigInWorkspace env workspacePath st)) as [c|].
  - destruct H as (ts & _ & Hother). split; [done|exact Hother].
  - split; [by intros _|]. intros k _. by rewrite H.
Qed.

(** *** Time to live *)

(** X17. A record a workspace lookup has returned is in the cache under
    that workspace's key, and any later lookup less than 30 000 ms after
    its timestamp returns that same record without a single file-system
    call and without touching the cache - whatever the disk holds by
    then. *)
Theorem found_record_is_served_while_fresh
    (env env' : Env) (workspacePath : string) (st : ConfigManager.t) (c : DENConfig) :
  fst (findConfigInWorkspace env workspacePath st) = Some c →
  ∃ timestamp,
    configCache (snd (findConfigInWorkspace env workspacePath st))
      !! ("workspace:" ++ workspacePath)
    = Some (c, timestamp)
    ∧ ((Date_now env' (clock (snd (findConfigInWorkspace env workspacePath st)))
        - timestamp < 30000)%Z →
       findConfigInWorkspace env' workspacePath
         (snd (findConfigInWorkspace env workspacePath st))
       = (Some c,
          {| configCache :=
               configCache (snd (findConfigInWorkspace env workspacePath st));
             clock := S (clock (snd (findConfigInWorkspace env workspacePath st)));
             fsCalls := fsCalls (snd (findConfigInWorkspace env workspacePath st)) |})).
Proof.
  intros Hfound. pose proof (find_cache env workspacePath st) as H.
  rewrite Hfound in H. destruct H as (ts & Hts & _).
  exists ts. split; [exact Hts|]. intros Hfresh.
  apply (fresh_entry_is_served_from_cache env' workspacePath _ c ts Hts Hfresh).
Qed.

Lemma found_record_is_served_while_fresh_witness :
  fsCalls (snd (findConfigInWorkspace Fixtures.disk "/work"
                  (snd (findConfigInWorkspace Fixtures.disk "/work" create))))
  = fsCalls (snd (findConfigInWorkspace Fixtures.disk "/work" create)).
Proof.
  destruct (found_record_is_served_while_fresh Fixtures.disk Fixtures.disk "/work"
              create _ eq_refl) as (ts & Hts & Hserve).
  injection Hts as <-.
  exact (f_equal (fun r => fsCalls (snd r)) (Hserve eq_refl)).
Defined.

(** X18. An entry that is 30 000 ms old or older is not used: the lookup
    goes to the disk, starting with [den.yml], and returns what the search
    finds there. The comparison is strict, so an entry exactly 30 000 ms
    old has already expired. *)
Theorem expired_entry_is_looked_up_again
    (env : Env) (workspacePath : string) (st : ConfigManager.t)
    (c : DENConfig) (timestamp : Z) :
  configCache st !! ("workspace:" ++ workspacePath) = Some (c, timestamp) →
  (30000 ≤ Date_now env (clock st) - timestamp)%Z →
  fst (findConfigInWorkspace env workspacePath st)
  = firstSome (candidate env workspacePath) configFileNames
  ∧ ∃ more,
      fsCalls (snd (findConfigInWorkspace env workspacePath st))
      = (fsCalls st ++ ExistsSync (path_join env workspacePath "den.yml") :: more)%list.
Proof.
  intros Hc Hold.
  assert (Hfind : findConfigInWorkspace env workspacePath st
                  = searchFiles env workspacePath ("workspace:" ++ workspacePath)
                      configFileNames
                      {| configCache := configCache st; clock := S (clock st);
                         fsCalls := fsCalls st |}).
  { unfold findConfigInWorkspace, mbind, mret, M_bind, M_ret, cacheGet, now.
    rewrite Hc. apply Z.ltb_ge in Hold. unfold cacheTimeout. by rewrite Hold. }
  rewrite Hfind. split; [apply searchFiles_result|].
  apply (searchFiles_probes_first env workspacePath _ "den.yml" _
           {| configCache := configCache st; clock := S (clock st);
              fsCalls := fsCalls st |}).
Qed.

Lemma expired_entry_is_looked_up_again_witness :
  fst (findConfigInWorkspace Fixtures.disk "/work" Fixtures.agedManager)
  = firstSome (candidate Fixtures.disk "/work") configFileNames.
Proof.
  exact (proj1 (expired_entry_is_looked_up_again Fixtures.disk "/work"
                  Fixtures.agedManager getDefaultConfig (-30000)%Z
                  (lookup_insert_eq _ _ _) ltac:(vm_compute; discriminate))).
Defined.

(** *** The custom path *)

(** X19. When the custom path is set and its file loads, [loadConfiguration]
    returns that record after a single read: no workspace folder is probed,
    the cache is neither consulted nor written, and the clock is not read.
    When the file does not load, the call goes on as if no custom path were
    set, with the one failed read behind it. *)
Theorem custom_path_comes_first
    (env : Env) (ws : Workspace) (st : ConfigManager.t) (customPath : string) :
  configPath ws = Some customPath →
  customPath ≠ "" →
  (∀ c, decodeAt env customPath = Some c →
        loadConfiguration env ws st
        = (Some c,
           {| configCache := configCache st; clock := clock st;
              fsCalls := (fsCalls st ++ [ReadFileSync customPath])%list |}))
  ∧ (decodeAt env customPath = None →
     loadConfiguration env ws st
     = loadConfiguration env
         {| configPath := None; autoSearch := autoSearch ws;
            workspaceFolders := workspaceFolders ws |}
         {| configCache := configCache st; clock := clock st;
            fsCalls := (fsCalls st ++ [ReadFileSync customPath])%list |}).
Proof.
  intros Hpath Hne. apply String.eqb_neq in Hne.
  pose proof (loadConfigFromPath_result env customPath st) as Hres.
  pose proof (loadConfigFromPath_effect env customPath st) as Heff.
  unfold loadConfiguration. rewrite Hpath. unfold JsString.truthy. rewrite Hne.
  cbn [negb configPath autoSearch workspaceFolders].
  unfold mbind, mret, M_bind, M_ret.
  destruct (loadConfigFromPath env customPath st) as [res st1].
  cbn [fst snd] in Hres, Heff. subst st1 res. split.
  - by intros c ->.
  - by intros ->.
Qed.

Lemma custom_path_comes_first_witness :
  fst (loadConfiguration Fixtures.disk
         {| configPath := Some "/work/den.yml"; autoSearch := Some true;
            workspaceFolders := Some ["/elsewhere"] |} create)
  = validateConfig Fixtures.fooDocument.
Proof.
  exact (f_equal fst
           (proj1 (custom_path_comes_first Fixtures.disk
                     {| configPath := Some "/work/den.yml"; autoSearch := Some true;
                        workspaceFolders := Some ["/elsewhere"] |}
                     create "/work/den.yml" eq_refl ltac:(discriminate))
              _ eq_refl)).
Defined.

(** *** Writing the default file *)

Lemma writeDefaultConfig_cache desk configPath st :
  (writeFileSync desk configPath (yaml_dump desk defaultConfig) = None →
   configCache (snd (writeDefaultConfig desk configPath st)) = ∅)
  ∧ (writeFileSync desk configPath (yaml_dump desk defaultConfig) ≠ None →
     snd (writeDefaultConfig desk configPath st) = st)
  ∧ ∀ p content,
      WriteFileSync p content ∈ fst (writeDefaultConfig desk configPath st) →
      p = configPath ∧ content = yaml_dump desk defaultConfig.
Proof.
  unfold writeDefaultConfig.
  destruct (writeFileSync desk configPath _) as [e|]; [|destruct (openAndShow _ _)];
    cbn [fst snd]; (split; [done|split; [done|]]);
    intros p content Hin;
    repeat (apply elem_of_cons in Hin as [Hin|Hin];
            [first [discriminate Hin | by injection Hin as -> ->]|]);
    by apply elem_of_nil in Hin.
Qed.

(** X20. [createDefaultConfig] writes at most to [den.yml] in the first
    workspace folder, and only the serialized default record; when that
    file exists it writes only if the prompt was answered [Yes]. The cache
    is emptied when the write went through, and the manager is otherwise
    left with the cache it had: when there is no workspace, when the
    prompt is declined or dismissed, and when the write throws. *)
Theorem default_file_write_and_cache
    (env : Env) (desk : Desk) (ws : Workspace) (st : ConfigManager.t)
    (calls : list UiCall) :
  fst (createDefaultConfig env desk ws st) = Some calls →
  (∀ p content, WriteFileSync p content ∈ calls →
     ∃ root rest,
       workspaceFolders ws = Some (root :: rest)
       ∧ p = path_join env root "den.yml"
       ∧ content = yaml_dump desk defaultConfig
       ∧ (existsSync env p = true → overwriteAnswer desk = Some "Yes")
       ∧ (writeFileSync desk p content = None →
          configCache (snd (createDefaultConfig env desk ws st)) = ∅)
       ∧ (writeFileSync desk p content ≠ None →
          configCache (snd (createDefaultConfig env desk ws st)) = configCache st))
  ∧ ((∀ p content, WriteFileSync p content ∉ calls) →
     configCache (snd (createDefaultConfig env desk ws st)) = configCache st).
Proof.
  unfold createDefaultConfig.
  destruct (workspaceFolders ws) as [[|root rest]|] eqn:Hfolders.
  - done.
  - unfold mbind, mret, M_bind, M_ret, fsCall.
    set (st0 := {| configCache := configCache st; clock := clock st;
                   fsCalls := (fsCalls st ++ [ExistsSync (path_join env root "den.yml")])%list |}).
    destruct (writeDefaultConfig_cache desk (path_join env root "den.yml") st0)
      as (Hok & Hfail & Hwrites).
    destruct (existsSync env (path_join env root "den.yml")) eqn:Hexists.
    + destruct (String.eqb (default "" (overwriteAnswer desk)) "Yes") eqn:Hyes.
      * destruct (writeDefaultConfig desk _ st0) as [calls0 st1] eqn:Hw.
        cbn [fst snd] in *. intros [= <-]. split.
        -- intros p content Hin. apply elem_of_cons in Hin as [Hin|Hin]; [done|].
           destruct (Hwrites p content Hin) as [-> ->].
           exists root, rest. repeat split; try done.
           ++ intros _. apply String.eqb_eq in Hyes.
              destruct (overwriteAnswer desk); simpl in Hyes; by subst.
           ++ intros Hbad. by rewrite (Hfail Hbad).
        -- intros Hnone.
           destruct (writeFileSync desk (path_join env root "den.yml")
                       (yaml_dump desk defaultConfig)) as [e|] eqn:Hwrite.
           ++ by rewrite Hfail.
           ++ exfalso. unfold writeDefaultConfig in Hw. rewrite Hwrite in Hw.
              destruct (openAndShow desk _); injection Hw as <- <-;
                apply (Hnone (path_join env root "den.yml")
                         (yaml_dump desk defaultConfig)); right; by left.
      * cbn [fst snd]. intros [= <-]. split; [|done].
        intros p content Hin. apply list_elem_of_singleton in Hin. done.
    + destruct (writeDefaultConfig desk _ st0) as [calls0 st1] eqn:Hw.
      cbn [fst snd] in *. intros [= <-]. split.
      * intros p content Hin. destruct (Hwrites p content Hin) as [-> ->].
        exists root, rest. repeat split; try done.
        -- intros Hex. congruence.
        -- intros Hbad. by rewrite (Hfail Hbad).
      * intros Hnone.
        destruct (writeFileSync desk (path_join env root "den.yml")
                    (yaml_dump desk defaultConfig)) as [e|] eqn:Hwrite.
        -- by rewrite Hfail.
        -- exfalso. unfold writeDefaultConfig in Hw. rewrite Hwrite in Hw.
           destruct (openAndShow desk _); injection Hw as <- <-;
             apply (Hnone (path_join env root "den.yml")
                      (yaml_dump desk defaultConfig)); by left.
  - cbn [fst snd]. intros [= <-]. split; [|done].
    intros p content Hin. apply list_elem_of_singleton in Hin. done.
Qed.

Lemma default_file_write_and_cache_witness :
  configCache (snd (createDefaultConfig Fixtures.disk Fixtures.desk
                      Fixtures.freshFolder Fixtures.agedManager))
  = ∅.
Proof.
  destruct (proj1 (default_file_write_and_cache Fixtures.disk Fixtures.desk
                     Fixtures.freshFolder Fixtures.agedManager _ eq_refl)
              "/fresh/den.yml" "name: Developer Environment"
              ltac:(left))
    as (root & rest & _ & _ & _ & _ & Hcleared & _).
  exact (Hcleared eq_refl).
Defined.

Example declined_overwrite_writes_nothing :
  fst (createDefaultConfig Fixtures.disk Fixtures.desk
         {| configPath := None; autoSearch := Some true;
            workspaceFolders := Some ["/work"] |} Fixtures.agedManager)
  = Some [ShowWarningMessage "Configuration file already exists. Overwrite?"
            ["Yes"; "No"]]
  ∧ configCache
      (snd (createDefaultConfig Fixtures.disk Fixtures.desk
              {| configPath := None; autoSearch := Some true;
                 workspaceFolders := Some ["/work"] |} Fixtures.agedManager))
    = configCache Fixtures.agedManager.
Proof. split; reflexivity. Qed.

(** *** Resolution order *)

Lemma searchFolders_result env folders st :
  configCache st = ∅ →
  fst (searchFolders env folders st)
  = firstSome (fun folder => firstSome (candidate env folder) configFileNames)
      folders.
Proof.
  revert st. induction folders as [|f fs IH]; intros st Hempty; [done|].
  cbn [searchFolders firstSome]. unfold mbind, mret, M_bind, M_ret.
  rewrite find_with_empty_cache by done.
  pose proof (searchFiles_result env f ("workspace:" ++ f) configFileNames st) as Hres.
  pose proof (searchFiles_cache env f ("workspace:" ++ f) configFileNames st) as Hcache.
  destruct (searchFiles env f _ configFileNames st) as [res st1].
  cbn [fst snd] in Hres, Hcache. rewrite <- Hres.
  destruct res as [c|]; [done|]. apply IH. by rewrite Hcache.
Qed.

(** X21. With nothing cached, [loadConfiguration] resolves in this order:
    the custom path, if one is set and its file loads; otherwise, if the
    automatic search is on, the workspace folders in their order, each
    searched for its first loadable candidate name; otherwise nothing. A
    folder without a loadable file is passed over, and the result is absent
    only when no candidate anywhere loads. *)
Theorem load_follows_the_resolution_order
    (env : Env) (ws : Workspace) (st : ConfigManager.t) :
  configCache st = ∅ →
  fst (loadConfiguration env ws st) = resolved env ws.
Proof.
  intros Hempty. unfold loadConfiguration, resolved.
  unfold mbind, mret, M_bind, M_ret.
  destruct (configPath ws) as [customPath|].
  - destruct (JsString.truthy customPath).
    + pose proof (loadConfigFromPath_result env customPath st) as Hres.
      pose proof (loadConfigFromPath_effect env customPath st) as Heff.
      destruct (loadConfigFromPath env customPath st) as [res st1].
      cbn [fst snd] in Hres, Heff. rewrite <- Hres.
      destruct res as [c|]; [done|].
      destruct (default false (autoSearch ws)); [|done].
      destruct (workspaceFolders ws) as [folders|]; [|done].
      apply searchFolders_result. by rewrite Heff.
    + destruct (default false (autoSearch ws)); [|done].
      destruct (workspaceFolders ws) as [folders|]; [|done].
      by apply searchFolders_result.
  - destruct (default false (autoSearch ws)); [|done].
    destruct (workspaceFolders ws) as [folders|]; [|done].
    by apply searchFolders_result.
Qed.

Lemma load_follows_the_resolution_order_witness :
  name <$> fst (loadConfiguration Fixtures.disk
                  {| configPath := Some "/missing.json"; autoSearch := Some true;
                     workspaceFolders := Some ["/empty"; "/work"] |} create)
  = Some "Foo".
Proof.
  exact (f_equal (fmap name)
           (load_follows_the_resolution_order Fixtures.disk
              {| configPath := Some "/missing.json"; autoSearch := Some true;
                 workspaceFolders := Some ["/empty"; "/work"] |} create eq_refl)).
Defined.

End ConfigProps.

(** ** Status bar *)

Module StatusBarProps.

Import StatusBarManager Views.

Lemma StatusType_eqb_eq a b : StatusType_eqb a b = true ↔ a = b.
Proof. destruct a, b; simpl; split; congruence. Qed.

Lemma samePair_eq a b : samePair a b = true ↔ a = b.
Proof.
  destruct a as [s t], b as [s' t']. unfold samePair. simpl.
  rewrite andb_true_iff, StatusType_eqb_eq, String.eqb_eq. split.
  - by intros [-> ->].
  - by intros [= -> ->].
Qed.

Lemma sameAs_displayed status text bar :
  sameAs status text bar
  = match displayed bar with
    | Some p => samePair p (status, text)
    | None => false
    end.
Proof.
  unfold sameAs, displayed.
  by destruct (currentStatus bar), (currentText bar).
Qed.

Lemma setStatuses_writes calls bar :
  textWrites (setStatuses calls bar)
  = (textWrites bar ++ map statusLine (changes (displayed bar) calls))%list.
Proof.
  revert bar. induction calls as [|[status text] calls IH]; intros bar.
  { simpl. by rewrite app_nil_r. }
  unfold setStatuses. cbn [fold_left fst snd]. fold (setStatuses calls).
  rewrite IH. unfold setStatus. rewrite sameAs_displayed.
  cbn [changes].
  destruct (displayed bar) as [p|] eqn:Hp.
  - destruct (samePair p (status, text)) eqn:Hsame.
    + by rewrite Hp.
    + cbn [textWrites displayed currentStatus currentText map].
      by rewrite <- app_assoc.
  - cbn [textWrites displayed currentStatus currentText map].
    by rewrite <- app_assoc.
Qed.

Lemma setStatus_inSync status text bar :
  inSync bar →
  inSync (setStatus status text bar)
  ∧ displayed (setStatus status text bar) = Some (status, text).
Proof.
  intros Hsync. unfold setStatus. rewrite sameAs_displayed.
  destruct (displayed bar) as [p|] eqn:Hp.
  - destruct (samePair p (status, text)) eqn:Hsame.
    + apply samePair_eq in Hsame as ->. by split.
    + split; [|done]. intros q [= <-]. unfold shownText. cbn [textWrites].
      by rewrite last_snoc.
  - split; [|done]. intros q [= <-]. unfold shownText. cbn [textWrites].
    by rewrite last_snoc.
Qed.

Lemma setStatuses_last calls c bar :
  inSync bar →
  inSync (setStatuses (calls ++ [c]) bar)
  ∧ displayed (setStatuses (calls ++ [c]) bar) = Some c.
Proof.
  revert bar. induction calls as [|[s t] calls IH]; intros bar Hsync.
  - destruct c as [s t]. by apply setStatus_inSync.
  - apply (IH (setStatus s t bar)). by apply setStatus_inSync.
Qed.

(** X22. Starting from a fresh status bar, a sequence of [setStatus]
    calls writes the item's text once for every call that differs, in
    status or in text, from the pair displayed when it arrives, and for no
    other call; the text shown after a non-empty sequence is the line of
    its last call; and repeating a call changes nothing. *)
Theorem setStatus_writes_only_changes
    (calls : list (StatusType * string)) (c : StatusType * string) (bar : t) :
  textWrites (setStatuses calls create) = map statusLine (changes None calls)
  ∧ shownText (setStatuses (calls ++ [c]) create) = Some (statusLine c)
  ∧ setStatus (fst c) (snd c) (setStatus (fst c) (snd c) bar)
    = setStatus (fst c) (snd c) bar.
Proof.
  split; [|split].
  - by rewrite setStatuses_writes.
  - assert (Hfresh : inSync create) by (intros p Hp; discriminate Hp).
    destruct (setStatuses_last calls c create Hfresh) as [Hsync Hshown].
    by apply Hsync.
  - destruct c as [s t]. cbn [fst snd].
    assert (Hsame : sameAs s t (setStatus s t bar) = true).
    { unfold setStatus. destruct (sameAs s t bar) eqn:E; [done|].
      unfold sameAs. cbn [currentStatus currentText].
      apply andb_true_iff. split; [by apply StatusType_eqb_eq|apply String.eqb_refl]. }
    unfold setStatus at 1. by rewrite Hsame.
Qed.

Example loading_loading_ready_loading :
  textWrites (setStatuses [(loading, "Initializing..."); (loading, "Initializing...");
                           (success, "Ready"); (loading, "Ready")] create)
  = ["$(sync~spin) DEN: Initializing..."; "$(check) DEN: Ready";
     "$(sync~spin) DEN: Ready"].
Proof. reflexivity. Qed.

End StatusBarProps.

(** ** Repository detection and the Git commands *)

Module GitCommandProps.

Import PullRequestMonitor GitCommands.

Lemma create_without_git_dir folders hasGitDir w :
  GitManager.git (GitManager.create folders hasGitDir w) = false →
  GitManager.create folders hasGitDir w = GitManager.blank.
Proof.
  unfold GitManager.create, GitManager.initializeGit.
  destruct folders as [[|root rest]|]; try done.
  by destruct (hasGitDir root).
Qed.

(** X23. A manager is constructed over a repository exactly when the
    first workspace folder has a [.git] entry. When it is not, every query
    answers its neutral value and changes nothing: no snapshot, no
    branches, no branch switch, and a tick or a listing of a monitor built
    on it leaves the session as it is and reports nothing. *)
Theorem non_repository_answers_are_neutral
    (folders : option (list string)) (hasGitDir : string → bool)
    (w0 : GitManager.Git) :
  (GitManager.git (GitManager.create folders hasGitDir w0) = true
   ↔ ∃ root rest, folders = Some (root :: rest) ∧ hasGitDir root = true)
  ∧ (GitManager.git (GitManager.create folders hasGitDir w0) = false →
     ∀ (w : GitManager.Git) (http : RepositoryHostAPI.Http)
       (checkout : string → option GitManager.Git) (branchName : string)
       (checkIsRepo : option bool) (q : Timers.t) (cfg : GitConfig),
       let gm := GitManager.create folders hasGitDir w0 in
       GitManager.getRepositoryInfo w gm = (None, gm)
       ∧ GitManager.refreshRepositoryInfo w gm = (None, gm)
       ∧ GitManager.getBranchList w gm = []
       ∧ GitManager.switchBranch checkout branchName gm = (false, gm)
       ∧ GitManager.isGitRepository checkIsRepo gm = false
       ∧ checkForNewPullRequests w http (create gm q cfg) = (create gm q cfg, [])
       ∧ getCurrentPullRequests w http (create gm q cfg) = (create gm q cfg, [])).
Proof.
  split.
  - unfold GitManager.create, GitManager.initializeGit. split.
    + destruct folders as [[|root rest]|]; try done.
      destruct (hasGitDir root) eqn:E; [|done]. intros _. by exists root, rest.
    + intros (root & rest & -> & ->). reflexivity.
  - intros Hno w http checkout branchName checkIsRepo q cfg gm.
    subst gm. rewrite (create_without_git_dir _ _ _ Hno). by repeat split.
Qed.

Lemma non_repository_answers_are_neutral_witness :
  GitManager.switchBranch (fun _ => Some (Fixtures.workingCopy [])) "main"
    (GitManager.create (Some ["/plain"]) (fun _ => false) (Fixtures.workingCopy []))
  = (false,
     GitManager.create (Some ["/plain"]) (fun _ => false) (Fixtures.workingCopy [])).
Proof.
  exact (proj1 (proj2 (proj2 (proj2
           (proj2 (non_repository_answers_are_neutral
                     (Some ["/plain"]) (fun _ => false) (Fixtures.workingCopy []))
              eq_refl (Fixtures.workingCopy []) (Fixtures.hosts [] [] [])
              (fun _ => Some (Fixtures.workingCopy [])) "main" None
              Timers.empty (Extension.getGitConfig Fixtures.defaultSettings)))))).
Defined.

Lemma withGit_same s : withGit (gitManager s) s = s.
Proof. by destruct s. Qed.

Lemma updateGitStatus_stored w app info :
  GitManager.repositoryInfo (gitManager (session app)) = Some info →
  updateGitStatus w app
  = {| session := session app;
       statusBar :=
         StatusBarManager.setGitStatus (currentBranch info) (isClean (status info))
           (ahead (status info)) (behind (status info)) (statusBar app) |}.
Proof.
  intros Hinfo. unfold updateGitStatus, GitManager.getRepositoryInfo.
  rewrite Hinfo. by rewrite withGit_same.
Qed.

(** X24. Once a snapshot is stored, the refresh-status command does not
    look at the working copy: whatever state the working copy is in, it
    shows the branch, cleanliness and ahead/behind counts of the stored
    snapshot and leaves the session untouched. *)
Theorem refresh_command_shows_the_stored_snapshot
    (w w' : GitManager.Git) (app : App) (info : GitRepositoryInfo) :
  GitManager.repositoryInfo (gitManager (session app)) = Some info →
  refreshGitStatus w app = refreshGitStatus w' app
  ∧ session (fst (refreshGitStatus w app)) = session app
  ∧ StatusBarManager.gitText (statusBar (fst (refreshGitStatus w app)))
    = StatusBarManager.gitText
        (StatusBarManager.setGitStatus (currentBranch info) (isClean (status info))
           (ahead (status info)) (behind (status info)) (statusBar app)).
Proof.
  intros Hinfo. unfold refreshGitStatus. cbn [fst].
  by rewrite !(updateGitStatus_stored _ _ _ Hinfo).
Qed.

Lemma refresh_command_shows_the_stored_snapshot_witness :
  StatusBarManager.gitText
    (statusBar (fst (refreshGitStatus Fixtures.onDevelop Fixtures.app)))
  = "$(git-branch) main".
Proof.
  exact (proj2 (proj2 (refresh_command_shows_the_stored_snapshot
                         Fixtures.onDevelop Fixtures.onDevelop Fixtures.app _
                         eq_refl))).
Defined.

(** X25. The switch-branch command, with a repository whose branch list
    is not empty and a branch picked: if the checkout is rejected the
    application is left exactly as it was and one error message names the
    branch; if it is accepted, one information message names the branch,
    the stored snapshot is the one refreshed from the working copy as the
    checkout left it, and the Git status item shows that snapshot's
    branch and counts. A dismissed pick does nothing. *)
Theorem switch_command_outcomes
    (w : GitManager.Git) (checkout : string → option GitManager.Git)
    (selected : string) (app : App) :
  GitManager.git (gitManager (session app)) = true →
  GitManager.getBranchList w (gitManager (session app)) ≠ [] →
  selected ≠ "" →
  switchGitBranch w checkout None app = (app, [])
  ∧ (checkout selected = None →
     switchGitBranch w checkout (Some selected) app
     = (app, [Error ("Failed to switch to branch: " ++ selected)]))
  ∧ (∀ w', checkout selected = Some w' →
       snd (switchGitBranch w checkout (Some selected) app)
       = [Information ("Switched to branch: " ++ selected)]
       ∧ GitManager.repositoryInfo
           (gitManager (session (fst (switchGitBranch w checkout (Some selected) app))))
         = fst (GitManager.refreshRepositoryInfo w' (gitManager (session app)))
       ∧ statusBar (fst (switchGitBranch w checkout (Some selected) app))
         = StatusBarManager.setGitStatus
             (GitManager.getCurrentBranch w' (gitManager (session app)))
             (isClean (GitManager.getStatus w' (gitManager (session app))))
             (ahead (GitManager.getStatus w' (gitManager (session app))))
             (behind (GitManager.getStatus w' (gitManager (session app))))
             (statusBar app)).
Proof.
  intros Hgit Hlist Hsel. unfold switchGitBranch.
  destruct (GitManager.getBranchList w (gitManager (session app))) as [|b bs];
    [done|].
  apply String.eqb_neq in Hsel. unfold JsString.truthy. rewrite Hsel. cbn [negb].
  unfold GitManager.switchBranch. rewrite Hgit. cbn [negb].
  split; [done|]. split.
  - intros ->. rewrite withGit_same. by destruct app.
  - intros w' ->. cbn [default].
    unfold GitManager.refreshRepositoryInfo. rewrite Hgit. cbn [negb fst snd].
    erewrite updateGitStatus_stored by reflexivity.
    by repeat split.
Qed.

Lemma switch_command_outcomes_witness :
  StatusBarManager.gitText
    (statusBar (fst (switchGitBranch (Fixtures.workingCopy [Fixtures.origin])
                       Fixtures.checkoutDevelop (Some "develop") Fixtures.app)))
  = "$(git-branch) $(warning) develop ↑2 ↓0"
  ∧ switchGitBranch (Fixtures.workingCopy [Fixtures.origin])
      Fixtures.checkoutDevelop (Some "gone") Fixtures.app
    = (Fixtures.app, [Error "Failed to switch to branch: gone"]).
Proof.
  split.
  - exact (f_equal StatusBarManager.gitText
             (proj2 (proj2 (proj2 (proj2
                (switch_command_outcomes (Fixtures.workingCopy [Fixtures.origin])
                   Fixtures.checkoutDevelop "develop" Fixtures.app
                   eq_refl ltac:(discriminate) ltac:(discriminate)))
                Fixtures.onDevelop eq_refl)))).
  - exact (proj1 (proj2
             (switch_command_outcomes (Fixtures.workingCopy [Fixtures.origin])
                Fixtures.checkoutDevelop "gone" Fixtures.app
                eq_refl ltac:(discriminate) ltac:(discriminate)))
             eq_refl).
Defined.

Lemma updateGitStatus_session w app :
  timers (session (updateGitStatus w app)) = timers (session app)
  ∧ monitor (session (updateGitStatus w app)) = monitor (session app).
Proof.
  unfold updateGitStatus.
  by destruct (GitManager.getRepositoryInfo w (gitManager (session app)))
    as [[info|] gm'].
Qed.

(** X26. [initializeGit] of the extension: outside a repository it hides
    the Git status item and leaves the monitor and its timers alone; when
    the settings disable Git it changes nothing at all; and in a
    repository with Git enabled in the settings and in the monitor's own
    configuration, each call installs one more polling timer at the
    monitor's interval and cancels none - the call made after every
    validated configuration change adds a timer to those already running. *)
Theorem initializeGit_outcomes
    (checkIsRepo : option bool) (settings : Extension.GitSettings)
    (w : GitManager.Git) (http : RepositoryHostAPI.Http) (app : App) :
  (GitManager.isGitRepository checkIsRepo (gitManager (session app)) = false →
   initializeGit checkIsRepo settings w http app
   = ({| session := session app;
         statusBar := StatusBarManager.hideGitStatus (statusBar app) |}, []))
  ∧ (GitManager.isGitRepository checkIsRepo (gitManager (session app)) = true →
     enabled (Extension.getGitConfig settings) = false →
     initializeGit checkIsRepo settings w http app = (app, []))
  ∧ (GitManager.isGitRepository checkIsRepo (gitManager (session app)) = true →
     enabled (Extension.getGitConfig settings) = true →
     enabled (config (monitor (session app))) = true →
     Timers.wf (timers (session app)) →
     Timers.active (timers (session (fst (initializeGit checkIsRepo settings w http app))))
     = <[Timers.next (timers (session app))
           := GitTypes.pollingInterval (config (monitor (session app)))]>
         (Timers.active (timers (session app)))
     ∧ size (Timers.active
               (timers (session (fst (initializeGit checkIsRepo settings w http app)))))
       = S (size (Timers.active (timers (session app))))).
Proof.
  unfold initializeGit. split; [|split].
  - by intros ->.
  - by intros -> ->.
  - intros -> -> Hen Hwf.
    destruct (MonitorProps.startMonitoring_enabled w http (session app) Hen)
      as (Ht & _ & _).
    destruct (startMonitoring w http (session app)) as [s' shown].
    cbn [fst] in *.
    destruct (updateGitStatus_session w {| session := s'; statusBar := statusBar app |})
      as [Htimers _].
    cbn [session] in Htimers. rewrite Htimers, Ht. cbn [Timers.active].
    split; [done|].
    apply map_size_insert_None. by apply MonitorProps.wf_next_free.
Qed.

Lemma initializeGit_outcomes_witness :
  size (Timers.active
          (timers (session (fst (initializeGit (Some true) Fixtures.defaultSettings
                                   (Fixtures.workingCopy [Fixtures.origin])
                                   (Fixtures.hosts [] [] [])
                                   (fst (initializeGit (Some true)
                                           Fixtures.defaultSettings
                                           (Fixtures.workingCopy [Fixtures.origin])
                                           (Fixtures.hosts [] [] [])
                                           Fixtures.app)))))))
  = 2.
Proof.
  refine (proj2 (proj2 (proj2 (initializeGit_outcomes (Some true)
            Fixtures.defaultSettings (Fixtures.workingCopy [Fixtures.origin])
            (Fixtures.hosts [] [] [])
            (fst (initializeGit (Some true) Fixtures.defaultSettings
                    (Fixtures.workingCopy [Fixtures.origin])
                    (Fixtures.hosts [] [] []) Fixtures.app))))
            eq_refl eq_refl eq_refl _)).
  intros h [d Hd].
  destruct h as [|h]; [apply Nat.lt_0_succ|].
  assert (Heq : Timers.active
                  (timers (session (fst (initializeGit (Some true)
                                           Fixtures.defaultSettings
                                           (Fixtures.workingCopy [Fixtures.origin])
                                           (Fixtures.hosts [] [] [])
                                           Fixtures.app))))
                = <[0%nat := 300000%Z]> ∅) by (vm_compute; reflexivity).
  rewrite Heq, lookup_insert_ne, lookup_empty in Hd by done. discriminate Hd.
Defined.

End GitCommandProps.
